(** * PRISMM-Bench evaluation framework: batch orchestration, verified

    A shallow embedding of the evaluation framework's pure core:

    - [utils/types.py]: the annotation record format;
    - [utils/helpers.py]: [prepare_answers], [get_list_of_context],
      [merge_binary_results];
    - [utils/providers/base.py]: [iter_annotations], the three context
      builders and [write_results];
    - [utils/providers/gemini_batch.py], [openai_batch.py]: the chunker, the
      correlation key, the run loop and [get_batch_results];
    - [utils/providers/cluster.py]: the run loop of the synchronous backend.

    Python strings are modelled as [string] (one [ascii] per character),
    dictionaries as [gmap], exceptions as the left summand of a result type,
    attribute state of a provider object as an explicit record that is
    threaded through the calls.  Remote services, image files and the PDF
    renderer are parameters collected in records. *)

From Stdlib Require Import QArith Ascii DecimalString.
From stdpp Require Import gmap strings list sorting.

Local Open Scope Z_scope.

(* ================================================================== *)
(** * Part I: definitions                                              *)
(* ================================================================== *)

(** ** Python string primitives *)

Module Py.

(** [s.replace(a, b)] for one-character [a] and [b]. *)
Fixpoint replace (a b : ascii) (s : string) : string :=
  match s with
  | EmptyString => EmptyString
  | String c s' => String (if Ascii.eqb c a then b else c) (replace a b s')
  end.

(** [s.split(sep)] for a one-character separator: never returns the
    empty list, and the empty string splits into one empty field. *)
Fixpoint split (sep : ascii) (s : string) : list string :=
  match s with
  | EmptyString => [EmptyString]
  | String c s' =>
      if Ascii.eqb c sep then EmptyString :: split sep s'
      else match split sep s' with
           | [] => [String c EmptyString]
           | h :: t => String c h :: t
           end
  end.

(** [sep.join(fields)]. *)
Fixpoint join (sep : string) (fields : list string) : string :=
  match fields with
  | [] => EmptyString
  | [f] => f
  | f :: rest => f +:+ sep +:+ join sep rest
  end.

Definition mem (c : ascii) (chars : string) : bool :=
  existsb (Ascii.eqb c) (String.list_ascii_of_string chars).

(** [s.lstrip(chars)], [s.rstrip(chars)], [s.strip(chars)]: the argument
    is a set of characters, removed from the ends only. *)
Fixpoint lstrip (chars : string) (s : string) : string :=
  match s with
  | EmptyString => EmptyString
  | String c s' => if mem c chars then lstrip chars s' else s
  end.

Fixpoint rstrip (chars : string) (s : string) : string :=
  match s with
  | EmptyString => EmptyString
  | String c s' =>
      match rstrip chars s' with
      | EmptyString => if mem c chars then EmptyString else String c EmptyString
      | r => String c r
      end
  end.

Definition strip (chars : string) (s : string) : string :=
  rstrip chars (lstrip chars s).

(** The characters [str.strip()] without argument removes (the ASCII
    whitespace). *)
Definition whitespace : string :=
  String " " (String "009" (String "010" (String "011"
    (String "012" (String "013" EmptyString))))).

(** [c.upper()] on the ASCII letters; other characters are unchanged. *)
Definition upper_char (c : ascii) : ascii :=
  let n := N_of_ascii c in
  if ((97 <=? n) && (n <=? 122))%N then ascii_of_N (n - 32) else c.

Fixpoint upper (s : string) : string :=
  match s with
  | EmptyString => EmptyString
  | String c s' => String (upper_char c) (upper s')
  end.

(** [str(b)] for a Boolean. *)
Definition str_bool (b : bool) : string := if b then "True" else "False".

(** [str(n)] for a non-negative integer: its decimal digits. *)
Definition str_nat (n : nat) : string :=
  NilEmpty.string_of_uint (Nat.to_uint n).

(** [sub in s] for strings. *)
Fixpoint contains (sub s : string) : bool :=
  String.prefix sub s ||
  match s with
  | EmptyString => false
  | String _ s' => contains sub s'
  end.

(** [p.startswith(c)] and [p.endswith(c)] for one character. *)
Definition startswith (c : ascii) (p : string) : bool :=
  match p with
  | String d _ => Ascii.eqb d c
  | EmptyString => false
  end.

Fixpoint endswith (c : ascii) (p : string) : bool :=
  match p with
  | EmptyString => false
  | String d EmptyString => Ascii.eqb d c
  | String _ p' => endswith c p'
  end.

(** ** [os.path] on POSIX *)

(** [os.path.join(a, b)]. *)
Definition path_join (a b : string) : string :=
  if startswith "/" b then b
  else if String.eqb a "" || endswith "/" a then a +:+ b
  else a +:+ "/" +:+ b.

(** The part of [p] up to and including its last slash. *)
Fixpoint head_upto_slash (p : string) : string :=
  match p with
  | EmptyString => EmptyString
  | String c p' =>
      match head_upto_slash p' with
      | EmptyString => if Ascii.eqb c "/" then String c EmptyString else EmptyString
      | h => String c h
      end
  end.

(** [os.path.dirname(p)]: the head, with its trailing slashes removed
    unless it consists of slashes only. *)
Definition dirname (p : string) : string :=
  let head := head_upto_slash p in
  match rstrip "/" head with
  | EmptyString => head
  | h => h
  end.

(** [os.path.normpath(p)]. *)
Definition normpath_step (initial : nat) (acc : list string) (comp : string)
  : list string :=
  if String.eqb comp "" || String.eqb comp "." then acc
  else if negb (String.eqb comp "..") then acc ++ [comp]
  else match last acc with
       | None => if Nat.eqb initial 0 then acc ++ [comp] else acc
       | Some l => if String.eqb l ".." then acc ++ [comp]
                   else removelast acc
       end.

Definition normpath (p : string) : string :=
  if String.eqb p "" then "."
  else
    let initial :=
      if negb (startswith "/" p) then 0%nat
      else if String.prefix "//" p && negb (String.prefix "///" p) then 2%nat
      else 1%nat in
    let comps := fold_left (normpath_step initial) (split "/" p) [] in
    let q := match initial with
             | 2%nat => "//" +:+ join "/" comps
             | 1%nat => "/" +:+ join "/" comps
             | _ => join "/" comps
             end in
    if String.eqb q "" then "." else q.

(** [os.path.abspath(p)] in the working directory [cwd]. *)
Definition abspath (cwd p : string) : string :=
  normpath (if startswith "/" p then p else path_join cwd p).

End Py.

(** ** Exceptions *)

Inductive exn : Type :=
| ValueError (msg : string)
| TypeError (msg : string)
| IndexError (msg : string)
| AttributeError (msg : string)
| UnboundLocalError (msg : string)
| FileNotFoundError (path : string)
| KeyError (key : string).

Definition result (A : Type) : Type := exn + A.

Definition ok {A} (a : A) : result A := inr a.
Definition raise {A} (e : exn) : result A := inl e.

Definition bind {A B} (m : result A) (k : A -> result B) : result B :=
  match m with
  | inl e => inl e
  | inr a => k a
  end.

Notation "'let*' x := m 'in' k" := (bind m (fun x => k))
  (at level 10, x pattern, m at level 100, k at level 200).

(** A [for] loop whose body may raise: the state after the last iteration,
    or the first exception. *)
Fixpoint for_each {S A} (body : S -> A -> result S) (l : list A) (s : S)
  : result S :=
  match l with
  | [] => ok s
  | x :: l' => let* s' := body s x in for_each body l' s'
  end.

(** ** utils/types.py *)

Module types.

(** [MCQItem]. *)
Record MCQItem : Type := mkMCQItem {
question : string;
correct : string;
incorrect : list string;
letters : list string
}.

(** The field [part_pair : Union[MCQItem, dict] = {}]: a validated item,
  or a plain dictionary (the default is the empty one; a non-empty
  dictionary is what validation leaves when the object is not an
  [MCQItem]). *)
Inductive part_pair_t : Type :=
| PPItem (m : MCQItem)
| PPDict (d : list (string * string)).

(** [MCQ]. *)
Record MCQ : Type := mkMCQ {
default : MCQItem;
binary_consistent : MCQItem;
binary_inconsistent : MCQItem;
edit : MCQItem;
default_natural : MCQItem;
part_pair : part_pair_t
}.

(** [ImageInconsistencyPart] and [TextInconsistencyPart]; the bounding box
  of an image part is never read by the evaluation framework and is left
  out. *)
Inductive InconsistencyPart : Type :=
| ImageInconsistencyPart (page : nat) (image_id : string)
| TextInconsistencyPart (page : nat) (content : string) (line : nat).

(** [AnnotationEntry]. *)
Record AnnotationEntry : Type := mkAnnotationEntry {
inconsistency_parts : list InconsistencyPart;
review_text : string;
category : string;
description : string;
mcq : MCQ
}.

End types.

Abbreviation MCQItem := types.MCQItem.
Abbreviation MCQ := types.MCQ.
Abbreviation AnnotationEntry := types.AnnotationEntry.
Abbreviation InconsistencyPart := types.InconsistencyPart.
Abbreviation part_pair_t := types.part_pair_t.
Abbreviation PPItem := types.PPItem.
Abbreviation PPDict := types.PPDict.

(** Python truthiness of a [part_pair] value: a model instance is true, a
    dictionary is true iff it is not empty. *)
Definition truthy_part_pair (p : part_pair_t) : bool :=
  match p with
  | PPItem _ => true
  | PPDict [] => false
  | PPDict (_ :: _) => true
  end.

Definition truthy_str (s : string) : bool := negb (String.eqb s "").

(** [getattr(mcq, name)] for the declared fields of [MCQ]. *)
Definition getattr_mcq (m : MCQ) (name : string) : result part_pair_t :=
  if String.eqb name "default" then ok (PPItem (types.default m))
  else if String.eqb name "binary_consistent" then ok (PPItem (types.binary_consistent m))
  else if String.eqb name "binary_inconsistent" then ok (PPItem (types.binary_inconsistent m))
  else if String.eqb name "edit" then ok (PPItem (types.edit m))
  else if String.eqb name "default_natural" then ok (PPItem (types.default_natural m))
  else if String.eqb name "part_pair" then ok (types.part_pair m)
  else raise (AttributeError name).

(** Attribute access [obj.question] etc. on what [getattr_mcq] returned:
    a dictionary has no such attribute. *)
Definition as_item (p : part_pair_t) : result MCQItem :=
  match p with
  | PPItem m => ok m
  | PPDict _ => raise (AttributeError "'dict' object has no attribute")
  end.

(** ** The outside world

    Environment variables, the constants of [utils/prompts.py] (not part of
    the sources at hand), and the functions that touch image files and the
    PDF renderer. *)
Record World : Type := mkWorld {
  IMAGE_DIR : option string;
  SUPPL_IMAGE_DIR : option string;
  PDF_DIR : option string;
  RESULTS_DIR : option string;
  cwd : string;
  after_question_prompt : string;
  system_prompt : string;
  (** [convert_image_to_base64(path)]: [None] when the file cannot be read. *)
  convert_image_to_base64 : string -> option string;
  (** [convert_from_path(pdf, first_page=p, last_page=p)] followed by the
      JPEG/base64 encoding of the first image: an exception, no image, or
      the encoded page. *)
  render_page : string -> nat -> result (option string);
  (** [convert_whole_doc_to_base64_list(pdf)]. *)
  convert_whole_doc_to_base64_list : string -> list string
}.

Definition getenv (v : option string) (dflt : string) : string :=
  match v with Some s => s | None => dflt end.

(** ** utils/helpers.py *)

Module helpers.

(** [dict(zip(keys, values))]: later bindings override earlier ones. *)
Definition dict_of_zip (keys values : list string) : gmap string string :=
  fold_left (fun m kv => <[kv.1 := kv.2]> m) (zip keys values) ∅.

(** [sorted(d.keys())] on strings. *)
Definition sorted_keys (d : gmap string string) : list string :=
  merge_sort String.le (map fst (map_to_list d)).

Definition prepare_answers (mcq : MCQItem) (question_type : string)
  : result (list string * string) :=
  let answers := types.correct mcq :: types.incorrect mcq in
  let letters := types.letters mcq in
  let letter_to_answer := dict_of_zip letters answers in
  let sorted_letters := sorted_keys letter_to_answer in
  let answer_options :=
    if Py.contains "binary" question_type
    then map (fun letter => letter +:+ ") " +:+ (letter_to_answer !!! letter))
             sorted_letters
    else map (fun letter => letter_to_answer !!! letter) sorted_letters in
  match letters with
  | [] => raise (IndexError "list index out of range")
  | correct_letter :: _ => ok (answer_options, correct_letter)
  end.

(** One context part of [get_list_of_context]: ["type"] and ["content"]
    (the content of an image part is [None] when the image file could not
    be read). *)
Inductive context_part : Type :=
| CtxImage (content : option string)
| CtxText (content : string).

Definition pdf_path (w : World) (id : string) : string :=
  Py.path_join (getenv (PDF_DIR w) "pdf") (id +:+ ".pdf").

Definition context_of_part (w : World) (id : string) (whole_page : bool)
    (part : InconsistencyPart) : result (list context_part) :=
  match part with
  | types.ImageInconsistencyPart page image_id =>
      if whole_page then
        let* img := render_page w (pdf_path w id) page in
        match img with
        | Some b64 => ok [CtxImage (Some b64)]
        | None => ok []
        end
      else
        let image_path :=
          Py.path_join (getenv (IMAGE_DIR w) "images") (image_id +:+ ".png") in
        ok [CtxImage (convert_image_to_base64 w image_path)]
  | types.TextInconsistencyPart page content _ =>
      if whole_page then
        match render_page w (pdf_path w id) page with
        | inr (Some b64) => ok [CtxImage (Some b64)]
        | inr None => ok []
        | inl _ => ok []
        end
      else ok [CtxText content]
  end.

Fixpoint context_of_parts (w : World) (id : string) (whole_page : bool)
    (parts : list InconsistencyPart) : result (list context_part) :=
  match parts with
  | [] => ok []
  | p :: rest =>
      let* c := context_of_part w id whole_page p in
      let* cs := context_of_parts w id whole_page rest in
      ok (c ++ cs)
  end.

Definition get_list_of_context (w : World) (annotation : AnnotationEntry)
    (id : string) (whole_page whole_doc : bool) : result (list context_part) :=
  if whole_doc then
    ok (map (fun b => CtxImage (Some b))
            (filter (fun b => truthy_str b = true)
                    (convert_whole_doc_to_base64_list w (pdf_path w id))))
  else context_of_parts w id whole_page (types.inconsistency_parts annotation).

(** *** [merge_binary_results] *)

(** The value of ["idx"] in a results file: an integer (synchronous
    backend) or a string (batch backends). *)
Inductive idx_t : Type :=
| IdxInt (n : Z)
| IdxStr (s : string).

#[global] Instance idx_eq_dec : EqDecision idx_t.
Proof. solve_decision. Defined.

#[global] Instance idx_countable : Countable idx_t :=
  inj_countable'
    (fun i => match i with IdxInt n => inl n | IdxStr s => inr s end)
    (fun x => match x with inl n => IdxInt n | inr s => IdxStr s end)
    (fun i => match i with IdxInt _ => eq_refl | IdxStr _ => eq_refl end).

(** The fields of a scored result that the merge reads; a prediction may
    be JSON [null]. *)
Record binary_result : Type := mkBinaryResult {
  r_id : string;
  r_idx : idx_t;
  r_prediction : option string;
  r_correct_letter : string
}.

Record merged_result : Type := mkMergedResult {
  m_id : string;
  m_idx : idx_t;
  m_prediction : string;
  m_correct_letter : string;
  m_is_correct : bool
}.

(** [{(item["id"], item["idx"]): item for item in results2}]. *)
Definition results_lookup (results2 : list binary_result)
  : gmap (string * idx_t) binary_result :=
  fold_left (fun m item => <[(r_id item, r_idx item) := item]> m) results2 ∅.

(** [a + b] on two JSON values that are strings or [null]. *)
Definition add_str (a b : option string) : result string :=
  match a, b with
  | Some x, Some y => ok (x +:+ y)
  | _, _ => raise (TypeError "unsupported operand type(s) for +")
  end.

(** The body of the loop over [results1]. *)
Definition merge_item (results2_lookup : gmap (string * idx_t) binary_result)
    (item1 : binary_result) : result merged_result :=
  let key := (r_id item1, r_idx item1) in
  match results2_lookup !! key with
  | None => raise (ValueError "Missing item in results2 for key")
  | Some item2 =>
      let* merged_prediction := add_str (r_prediction item1) (r_prediction item2) in
      let correct_letter := r_correct_letter item1 +:+ r_correct_letter item2 in
      let is_correct := bool_decide (merged_prediction = correct_letter) in
      ok {| m_id := r_id item1; m_idx := r_idx item1;
            m_prediction := merged_prediction;
            m_correct_letter := correct_letter;
            m_is_correct := is_correct |}
  end.

Fixpoint merge_loop (results2_lookup : gmap (string * idx_t) binary_result)
    (results1 : list binary_result) (merged_results : list merged_result)
  : result (list merged_result) :=
  match results1 with
  | [] => ok merged_results
  | item1 :: rest =>
      let* m := merge_item results2_lookup item1 in
      merge_loop results2_lookup rest (merged_results ++ [m])
  end.

(** The in-memory part of [merge_binary_results]. *)
Definition merge (results1 results2 : list binary_result)
  : result (list merged_result) :=
  merge_loop (results_lookup results2) results1 [].

(** File operations, in the order they happen. *)
Inductive io_event : Type :=
| EvOpenRead (path : string)
| EvLoad (path : string)
| EvDump (path : string) (data : list merged_result).

(** The files that hold result lists. *)
Definition files : Type := gmap string (list binary_result).

Definition merge_binary_results (w : World) (fs : files)
    (binary_file_1 binary_file_2 : string) : list io_event * result string :=
  if negb (String.eqb (Py.dirname (Py.abspath (cwd w) binary_file_1))
                      (Py.dirname (Py.abspath (cwd w) binary_file_2)))
  then ([], raise (ValueError "Binary files must be in the same directory"))
  else
    match fs !! binary_file_1 with
    | None => ([EvOpenRead binary_file_1],
               raise (FileNotFoundError binary_file_1))
    | Some results1 =>
        match fs !! binary_file_2 with
        | None => ([EvOpenRead binary_file_1; EvOpenRead binary_file_2],
                   raise (FileNotFoundError binary_file_2))
        | Some results2 =>
            let reads := [EvOpenRead binary_file_1; EvOpenRead binary_file_2;
                          EvLoad binary_file_1; EvLoad binary_file_2] in
            match merge results1 results2 with
            | inl e => (reads, inl e)
            | inr merged_results =>
                let output_path :=
                  Py.path_join (Py.dirname binary_file_1) "merged_results.json" in
                (reads ++ [EvDump output_path merged_results], ok output_path)
            end
        end
    end.

End helpers.

(** ** utils/providers/base.py *)

Module base.

(** Generic item schema: [{"kind": "text", "text": str}] or
    [{"kind": "image", "base64": str}]. *)
Inductive GenericItem : Type :=
| TextItem (text : string)
| ImageItem (base64 : option string).

(** The annotation file: a JSON object from paper id to the list of its
    entries, in file order. *)
Definition annotations : Type := list (string * list AnnotationEntry).

(** [enumerate(entries)]. *)
Fixpoint enumerate_from {A} (i : nat) (l : list A) : list (nat * A) :=
  match l with
  | [] => []
  | x :: l' => (i, x) :: enumerate_from (S i) l'
  end.

(** [iter_annotations]: the triples the generator yields, in order. *)
Definition iter_annotations (data : annotations) (question_type : string)
    (whole_page whole_doc : bool) : list (string * nat * AnnotationEntry) :=
  flat_map
    (fun '(key, entries) =>
       flat_map
         (fun '(idx, ann) =>
            if String.eqb question_type "part_pair"
               && negb (truthy_part_pair (types.part_pair (types.mcq ann)))
            then []
            else [(key, idx, ann)])
         (enumerate_from 0 entries))
    data.

Definition item_of_part (p : helpers.context_part) : GenericItem :=
  match p with
  | helpers.CtxImage c => ImageItem c
  | helpers.CtxText c => TextItem c
  end.

Definition build_default_context (w : World) (annotation : AnnotationEntry)
    (id : string) (question_type : string) (whole_page whole_doc : bool)
  : result (list GenericItem * string * list string * string) :=
  let* attr := getattr_mcq (types.mcq annotation) question_type in
  let* mcq_item := as_item attr in
  let question := types.question mcq_item in
  let* (answers, correct_letter) := helpers.prepare_answers mcq_item question_type in
  let* parts :=
    helpers.get_list_of_context w annotation id whole_page whole_doc in
  let context_items :=
    map item_of_part parts
    ++ [TextItem question]
    ++ map TextItem answers
    ++ [TextItem (after_question_prompt w)] in
  ok (context_items, question, answers, correct_letter).

Definition build_without_context (w : World) (annotation : AnnotationEntry)
    (question_type : string)
  : result (list GenericItem * string * list string * string) :=
  let* attr := getattr_mcq (types.mcq annotation) question_type in
  let* mcq_item := as_item attr in
  let question := types.question mcq_item in
  let* (answers, correct_letter) := helpers.prepare_answers mcq_item question_type in
  let context_items :=
    [TextItem question]
    ++ map TextItem answers
    ++ [TextItem (after_question_prompt w)] in
  ok (context_items, question, answers, correct_letter).

(** [l.index(x)]. *)
Fixpoint list_index (x : string) (l : list string) : option nat :=
  match l with
  | [] => None
  | y :: l' => if String.eqb y x then Some 0%nat
               else option_map S (list_index x l')
  end.

(** The image shown for one answer option of a part-pair question. *)
Definition part_pair_option_image (w : World) (image_id : string)
  : option string :=
  let image_path :=
    if (length (Py.split "_" image_id) <? 4)%nat
    then Py.path_join (getenv (IMAGE_DIR w) "images") (image_id +:+ ".png")
    else Py.path_join (getenv (SUPPL_IMAGE_DIR w) "suppl_images")
                      (image_id +:+ ".png") in
  convert_image_to_base64 w image_path.

Definition build_part_pair_context (w : World) (annotation : AnnotationEntry)
    (id : string) : result (list GenericItem * string) :=
  let mcq_attr := types.part_pair (types.mcq annotation) in
  (* Guard: [not mcq_item or not mcq_item.question or not mcq_item.correct] *)
  if negb (truthy_part_pair mcq_attr) then ok ([], "")
  else
    let* mcq_item := as_item mcq_attr in
    if negb (truthy_str (types.question mcq_item))
       || negb (truthy_str (types.correct mcq_item))
    then ok ([], "")
    else
      let question := types.question mcq_item in
      let answer_options := types.correct mcq_item :: types.incorrect mcq_item in
      let letters := types.letters mcq_item in
      let letter_to_answer := helpers.dict_of_zip letters answer_options in
      let sorted_letters := helpers.sorted_keys letter_to_answer in
      let answer_options :=
        map (fun letter_key => letter_to_answer !!! letter_key) sorted_letters in
      match list_index (types.correct mcq_item) answer_options with
      | None => raise (ValueError "is not in list")
      | Some i =>
          let correct_letter := sorted_letters !!! i in
          let items :=
            [TextItem "You are provided with a part of a scientific paper:"]
            ++ [if Py.contains id question
                then ImageItem
                       (convert_image_to_base64 w
                          (Py.path_join (getenv (IMAGE_DIR w) "images")
                                        (question +:+ ".png")))
                else TextItem question]
            ++ [TextItem "The combination with one of the other parts within the same paper results in an inconsistency. Pick the letter of the correct answer option."]
            ++ flat_map
                 (fun '(letter, image_id) =>
                    [TextItem (letter +:+ ")");
                     ImageItem (part_pair_option_image w image_id)])
                 (zip sorted_letters answer_options)
            ++ [TextItem (after_question_prompt w)] in
          ok (items, correct_letter)
      end.

(** The path [write_results] writes to. *)
Definition results_file (w : World) (model_id question_type : string)
    (whole_page whole_doc without_context : bool) : string :=
  Py.path_join (getenv (RESULTS_DIR w) "results")
    (Py.replace "_" "-" (Py.replace "/" "-" model_id)
     +:+ "_" +:+ Py.replace "_" "-" question_type
     +:+ (if whole_page then "_fullpage" else "")
     +:+ (if whole_doc then "_wholedoc" else "")
     +:+ (if without_context then "_without_context" else "")
     +:+ ".json").

(** What a provider run does to the file system: the results files it
    writes, each with the responses dumped into it. *)
Inductive write_event (response : Type) : Type :=
| EvWriteResults (path : string) (responses : list response).
Arguments EvWriteResults {response} path responses.

(** [os.makedirs(name, exist_ok=True)] raises for the empty name.  For
    any other name the file system is taken to accept the directory, and
    then the file; the directories created are not recorded. *)
Definition makedirs (name : string) : result unit :=
  if String.eqb name "" then raise (FileNotFoundError name) else ok tt.

Definition write_results {response} (w : World) (responses : list response)
    (model_id question_type : string)
    (whole_page whole_doc without_context : bool)
  : result (list (write_event response) * string) :=
  let results_file :=
    results_file w model_id question_type whole_page whole_doc without_context in
  let* _ := makedirs (Py.dirname results_file) in
  ok ([EvWriteResults results_file responses], results_file).

End base.

(** ** The chunker of the batch providers

    [_estimate_request_size_mb], [_estimate_total_size_mb] and
    [_split_batch_requests] are the same text in [gemini_batch.py] and in
    [openai_batch.py]; they are embedded once, over any request type with a
    serialized length ([len(json.dumps(request).encode("utf-8"))]).

    Sizes in MB are rationals: every size is a multiple of [2^-20], on which
    the floating-point additions and comparisons of the source are exact as
    long as a total stays below [2^53] bytes. *)

Module chunker.
Section Chunker.

Context {request : Type}.
Variable json_dumps_len : request -> nat.
Variable max_batch_size_mb : Q.

Definition _estimate_request_size_mb (r : request) : Q :=
  (inject_Z (Z.of_nat (json_dumps_len r)) / inject_Z (1024 * 1024))%Q.

Definition _estimate_total_size_mb (requests : list request) : Q :=
  fold_left (fun total_size r => (total_size + _estimate_request_size_mb r)%Q)
            requests 0%Q.

(** The loop variables of [_split_batch_requests]. *)
Record split_state : Type := mkSplit {
  batches : list (list request);
  current_batch : list request;
  current_size_mb : Q
}.

(** [a > b] on sizes. *)
Definition Qgtb (a b : Q) : bool := negb (Qle_bool a b).

Definition truthy_list {A} (l : list A) : bool :=
  match l with [] => false | _ => true end.

(** One iteration of the [for request in requests] loop. *)
Definition split_step (st : split_state) (r : request) : split_state :=
  let request_size_mb := _estimate_request_size_mb r in
  if truthy_list (current_batch st)
     && Qgtb (current_size_mb st + request_size_mb)%Q max_batch_size_mb
  then {| batches := batches st ++ [current_batch st];
          current_batch := [r];
          current_size_mb := request_size_mb |}
  else {| batches := batches st;
          current_batch := current_batch st ++ [r];
          current_size_mb := (current_size_mb st + request_size_mb)%Q |}.

Definition _split_batch_requests (requests : list request)
  : list (list request) :=
  let st := fold_left split_step requests
              {| batches := []; current_batch := []; current_size_mb := 0%Q |} in
  if truthy_list (current_batch st)
  then batches st ++ [current_batch st]
  else batches st.

End Chunker.
End chunker.

(** ** The correlation key of the batch providers

    The f-string
    [f"{id}_{idx}_{question_type.replace('_', '-')}_{correct_letter}_{whole_page}_{whole_doc}_{without_context}"]
    of every request handler, and the decoding at the head of the result
    loop of [get_batch_results]. *)

Module key.

Definition custom_id (id : string) (idx : nat) (question_type : string)
    (correct_letter : string) (whole_page whole_doc without_context : bool)
  : string :=
  id +:+ "_" +:+ Py.str_nat idx
     +:+ "_" +:+ Py.replace "_" "-" question_type
     +:+ "_" +:+ correct_letter
     +:+ "_" +:+ Py.str_bool whole_page
     +:+ "_" +:+ Py.str_bool whole_doc
     +:+ "_" +:+ Py.str_bool without_context.

(** The six-field key of earlier runs (no [whole_doc]). *)
Definition custom_id_legacy (id : string) (idx : nat) (question_type : string)
    (correct_letter : string) (whole_page without_context : bool) : string :=
  id +:+ "_" +:+ Py.str_nat idx
     +:+ "_" +:+ Py.replace "_" "-" question_type
     +:+ "_" +:+ correct_letter
     +:+ "_" +:+ Py.str_bool whole_page
     +:+ "_" +:+ Py.str_bool without_context.

(** The loop variables a key is unpacked into; all of them are strings. *)
Record fields : Type := mkFields {
  f_id : string;
  f_idx : string;
  f_question_type_part : string;
  f_correct_letter : string;
  f_whole_page : string;
  f_whole_doc : string;
  f_without_context : string
}.

(** [parts = key.split("_")] and the two tuple assignments. *)
Definition unpack (k : string) : result fields :=
  match Py.split "_" k with
  | [id; idx; qt; cl; wp; wc] =>
      ok (mkFields id idx qt cl wp "False" wc)
  | [id; idx; qt; cl; wp; wd; wc] =>
      ok (mkFields id idx qt cl wp wd wc)
  | parts =>
      if (length parts <? 7)%nat
      then raise (ValueError "not enough values to unpack")
      else raise (ValueError "too many values to unpack")
  end.

(** [x == "True"]. *)
Definition is_True (x : string) : bool := String.eqb x "True".

(** The fields as [gemini_batch.get_batch_results] uses them: the question
    type with its hyphens turned back into underscores, the flags
    compared with ["True"]. *)
Record decoded : Type := mkDecoded {
  d_id : string;
  d_idx : string;
  d_question_type : string;
  d_correct_letter : string;
  d_whole_page : bool;
  d_whole_doc : bool;
  d_without_context : bool
}.

Definition decode (k : string) : result decoded :=
  let* f := unpack k in
  ok {| d_id := f_id f;
        d_idx := f_idx f;
        d_question_type := Py.replace "-" "_" (f_question_type_part f);
        d_correct_letter := f_correct_letter f;
        d_whole_page := is_True (f_whole_page f);
        d_whole_doc := is_True (f_whole_doc f);
        d_without_context := is_True (f_without_context f) |}.

End key.

(** ** Scoring a prediction

    [text.strip(chars).upper()] and [prediction == correct_letter], as in
    the three backends. *)

Module scoring.

(** The argument of [strip]: quote, full stop, double quote, space,
    closing parenthesis. *)
Definition strip_chars : string :=
  String "'" (String "." (String "034" (String " " (String ")" EmptyString)))).

Definition normalize (text : string) : string :=
  Py.upper (Py.strip strip_chars text).

(** [prediction == correct_letter] where [prediction] may be [None]. *)
Definition is_correct (prediction : option string) (correct_letter : string)
  : bool :=
  match prediction with
  | Some p => String.eqb p correct_letter
  | None => false
  end.

End scoring.

(** ** Scored results of the batch providers *)

Module batch.

(** One element of [self.responses] of a batch provider; [idx] is the
    string found in the key, [prediction] may be [None]. *)
Record response : Type := mkResponse {
  id : string;
  idx : string;
  question_type : string;
  correct_letter : string;
  prediction : option string;
  is_correct : bool
}.

(** [x and y] on two optional strings used as a condition. *)
Definition both_set (a b : option string) : option (string * string) :=
  match a, b with
  | Some x, Some y =>
      if truthy_str x && truthy_str y then Some (x, y) else None
  | _, _ => None
  end.

End batch.

(** ** utils/providers/gemini_batch.py *)

Module gemini_batch.

(** One element of ["parts"] of a request. *)
Inductive part : Type :=
| PText (text : string)
| PInline (data : option string).

(** A line of the upload file: ["key"] and the user parts and system
    instruction of ["request"] (the generation config is constant). *)
Record request : Type := mkRequest {
  key : string;
  parts : list part;
  system_instruction : string
}.

Record job : Type := mkJob {
  file_name : string;
  batch_name : string
}.

(** The attributes of a [GeminiBatchProvider] that the embedded methods
    read or write. *)
Record provider : Type := mkProvider {
  model : string;
  responses : list batch.response;
  batch_requests : list request;
  batch_jobs : list job;
  self_file_name : option string;
  self_batch_name : option string;
  max_batch_size_mb : Q
}.

(** What [batches.get] returns: the state name and the file name of
    [dest]; [None] when [dest] or its [file_name] is [None], so that the
    condition [dest and dest.file_name] is the truthiness of this name. *)
Record batch_response : Type := mkBatchResponse {
  state_name : string;
  dest_file_name : option string
}.

(** A parsed line of a result file, down to the first text part. *)
Record result_part : Type := mkResultPart { text : option string }.
Record result_content : Type := mkResultContent {
  content_parts : option (list result_part)
}.
Record candidate : Type := mkCandidate { content : option result_content }.
Record response_obj : Type := mkResponseObj {
  candidates : option (list candidate)
}.
Record result_line : Type := mkResultLine {
  line_key : string;
  line_response : option response_obj
}.

(** The remote service: the serializer's length, job creation
    ([_create_batch_from_requests]), job status and file download. *)
Record remote : Type := mkRemote {
  json_dumps_len : request -> nat;
  create_batch : list request -> nat -> result job;
  batches_get : string -> batch_response;
  files_download : string -> list result_line
}.

Definition encode_parts (items : list base.GenericItem) : list part :=
  map (fun item => match item with
                   | base.ImageItem b => PInline b
                   | base.TextItem t => PText t
                   end) items.

Definition append_request (w : World) (self : provider)
    (context_items : list base.GenericItem) (custom_id : string) : provider :=
  let request := {| key := custom_id;
                    parts := encode_parts context_items;
                    system_instruction := system_prompt w |} in
  {| model := model self; responses := responses self;
     batch_requests := batch_requests self ++ [request];
     batch_jobs := batch_jobs self;
     self_file_name := self_file_name self;
     self_batch_name := self_batch_name self;
     max_batch_size_mb := max_batch_size_mb self |}.

Definition _handle_one_annotation (w : World) (self : provider)
    (id : string) (idx : nat) (annotation : AnnotationEntry)
    (question_type : string) (whole_page whole_doc without_context : bool)
  : result provider :=
  let* (context_items, question, answers, correct_letter) :=
    base.build_default_context w annotation id question_type whole_page whole_doc in
  ok (append_request w self context_items
        (key.custom_id id idx question_type correct_letter
           whole_page whole_doc without_context)).

Definition _handle_one_annotation_without_context (w : World) (self : provider)
    (id : string) (idx : nat) (annotation : AnnotationEntry)
    (question_type : string) (whole_page whole_doc without_context : bool)
  : result provider :=
  let* (context_items, question, answers, correct_letter) :=
    base.build_without_context w annotation question_type in
  ok (append_request w self context_items
        (key.custom_id id idx question_type correct_letter
           whole_page whole_doc without_context)).

Definition _handle_one_part_pair_annotation (w : World) (self : provider)
    (id : string) (idx : nat) (annotation : AnnotationEntry)
    (question_type : string) (whole_page whole_doc without_context : bool)
  : result provider :=
  let* (context_items, correct_letter) :=
    base.build_part_pair_context w annotation id in
  match context_items with
  | [] => ok self
  | _ =>
      ok (append_request w self context_items
            (key.custom_id id idx question_type correct_letter
               whole_page whole_doc without_context))
  end.

(** The body of the loop over the annotations. *)
Definition handle (w : World) (question_type : string)
    (whole_page whole_doc without_context : bool)
    (self : provider) (it : string * nat * AnnotationEntry) : result provider :=
  let '(key, idx, ann) := it in
  if without_context then
    _handle_one_annotation_without_context w self key idx ann question_type
      whole_page whole_doc without_context
  else if String.eqb question_type "part_pair" then
    _handle_one_part_pair_annotation w self key idx ann question_type
      whole_page whole_doc without_context
  else
    _handle_one_annotation w self key idx ann question_type
      whole_page whole_doc without_context.

(** The first half of [run_mcq_inference]: the requests prepared for
    every annotation. *)
Definition prepare_requests (w : World) (data : base.annotations)
    (self : provider) (question_type : string)
    (whole_page whole_doc without_context : bool) : result provider :=
  let self := {| model := model self; responses := [];
                 batch_requests := batch_requests self;
                 batch_jobs := batch_jobs self;
                 self_file_name := self_file_name self;
                 self_batch_name := self_batch_name self;
                 max_batch_size_mb := max_batch_size_mb self |} in
  let whole_page :=
    if whole_page && String.eqb question_type "part_pair" then false
    else whole_page in
  let whole_doc :=
    if whole_doc && String.eqb question_type "part_pair" then false
    else whole_doc in
  for_each (handle w question_type whole_page whole_doc without_context)
           (base.iter_annotations data question_type whole_page whole_doc)
           self.

Fixpoint create_jobs (r : remote) (splits : list (nat * list request))
    (jobs : list job) : result (list job) :=
  match splits with
  | [] => ok jobs
  | (i, batch_requests) :: rest =>
      let* batch_info := create_batch r batch_requests (i + 1) in
      create_jobs r rest (jobs ++ [batch_info])
  end.

Definition run_mcq_inference (w : World) (r : remote) (data : base.annotations)
    (self : provider) (question_type : string)
    (whole_page whole_doc without_context : bool) : result provider :=
  let* self := prepare_requests w data self question_type
                 whole_page whole_doc without_context in
  let batch_splits :=
    chunker._split_batch_requests (json_dumps_len r) (max_batch_size_mb self)
      (batch_requests self) in
  let* jobs := create_jobs r (base.enumerate_from 0 batch_splits) [] in
  ok {| model := model self; responses := responses self;
        batch_requests := batch_requests self;
        batch_jobs := jobs;
        self_file_name := match jobs with
                          | j :: _ => Some (file_name j)
                          | [] => self_file_name self
                          end;
        self_batch_name := match jobs with
                           | j :: _ => Some (batch_name j)
                           | [] => self_batch_name self
                           end;
        max_batch_size_mb := max_batch_size_mb self |}.

(** *** [get_batch_results] *)

Definition batch_jobs_to_process (self : provider) : result (list job) :=
  match batch_jobs self with
  | _ :: _ => ok (batch_jobs self)
  | [] =>
      match batch.both_set (self_file_name self) (self_batch_name self) with
      | Some (f, b) => ok [{| file_name := f; batch_name := b |}]
      | None =>
          raise (ValueError "No batch jobs found. file_name and batch_name must be set to retrieve results.")
      end
  end.

Definition not_ready (batch_name status : string) : exn :=
  ValueError ("Batch job " +:+ batch_name +:+ " not ready yet. Status: " +:+ status).

Definition no_output_file (batch_name : string) : exn :=
  ValueError ("No output file found for batch " +:+ batch_name).

(** The loop that checks and downloads every job. *)
Fixpoint fetch_all (r : remote) (jobs : list job) (all_results : list result_line)
  : result (list result_line) :=
  match jobs with
  | [] => ok all_results
  | batch_job :: rest =>
      let batch_response := batches_get r (batch_name batch_job) in
      if negb (String.eqb (state_name batch_response) "JOB_STATE_SUCCEEDED")
      then raise (not_ready (batch_name batch_job) (state_name batch_response))
      else
        match dest_file_name batch_response with
        | Some result_file_name =>
            if truthy_str result_file_name
            then fetch_all r rest
                   (all_results ++ files_download r result_file_name)
            else raise (no_output_file (batch_name batch_job))
        | None => raise (no_output_file (batch_name batch_job))
        end
  end.

(** The text of the first part of the first candidate of a result line,
    when every level down to it is present and not empty. *)
Definition first_text (line : result_line) : option string :=
  match line_response line with
  | Some response_obj =>
      match candidates response_obj with
      | Some (candidate :: _) =>
          match content candidate with
          | Some c =>
              match content_parts c with
              | Some (p :: _) => text p
              | _ => None
              end
          | None => None
          end
      | _ => None
      end
  | None => None
  end.

(** [prediction]: [None], or that text stripped and upper-cased. *)
Definition extract_prediction (line : result_line) : option string :=
  option_map scoring.normalize (first_text line).

Definition score_line (line : result_line)
  : result (batch.response * key.decoded)%type :=
  let* d := key.decode (line_key line) in
  let prediction := extract_prediction line in
  ok ({| batch.id := key.d_id d;
         batch.idx := key.d_idx d;
         batch.question_type := key.d_question_type d;
         batch.correct_letter := key.d_correct_letter d;
         batch.prediction := prediction;
         batch.is_correct := scoring.is_correct prediction (key.d_correct_letter d) |},
      d).

(** The loop over all results; [last] holds the loop variables that
    survive the loop.  (The question type read from the first key before
    the loop is overwritten by the first iteration.) *)
Fixpoint score_all (all_results : list result_line)
    (responses : list batch.response) (last : option key.decoded)
  : result (list batch.response * option key.decoded)%type :=
  match all_results with
  | [] => ok (responses, last)
  | line :: rest =>
      let* (resp, d) := score_line line in
      score_all rest (responses ++ [resp]) (Some d)
  end.

Definition get_batch_results (w : World) (r : remote) (self : provider)
  : list (base.write_event batch.response) * result provider :=
  let computed :=
    let* jobs := batch_jobs_to_process self in
    let* all_results := fetch_all r jobs [] in
    let* (responses, last) := score_all all_results [] None in
    match last with
    | None =>
        raise (UnboundLocalError "cannot access local variable 'whole_page'")
    | Some d => ok (responses, d)
    end in
  match computed with
  | inl e => ([], inl e)
  | inr (responses, d) =>
      match base.write_results w responses (model self) (key.d_question_type d)
              (key.d_whole_page d) (key.d_whole_doc d)
              (key.d_without_context d) with
      | inl e => ([], inl e)
      | inr (events, _) =>
          (events,
           ok {| model := model self; responses := responses;
                 batch_requests := batch_requests self;
                 batch_jobs := batch_jobs self;
                 self_file_name := self_file_name self;
                 self_batch_name := self_batch_name self;
                 max_batch_size_mb := max_batch_size_mb self |})
      end
  end.

End gemini_batch.

(** ** utils/providers/openai_batch.py *)

Module openai_batch.

(** One element of the user message's ["content"]. *)
Inductive message : Type :=
| InputText (text : string)
| InputImage (base64 : option string).

(** A line of the upload file: ["custom_id"] and, of ["body"], the model,
    the system prompt, the user content and the reasoning effort (method
    and url are constant). *)
Record request : Type := mkRequest {
  custom_id : string;
  body_model : string;
  body_system : string;
  body_content : list message;
  body_effort : string
}.

Record job : Type := mkJob {
  file_id : string;
  batch_id : string
}.

Record provider : Type := mkProvider {
  model : string;
  reasoning : string;
  responses : list batch.response;
  batch_requests : list request;
  batch_jobs : list job;
  self_file_id : option string;
  self_batch_id : option string;
  max_batch_size_mb : Q
}.

Record batch_response : Type := mkBatchResponse {
  status : string;
  output_file_id : option string
}.

(** A parsed line of the output file.  ["response"] may be missing, JSON
    [null], or an object whose ["body"]["output"] lists the output items
    (missing levels default to the empty list). *)
Record output_content : Type := mkOutputContent {
  c_type : option string;
  c_text : option string
}.
Record output_item : Type := mkOutputItem {
  i_type : option string;
  i_content : list output_content
}.
Inductive response_field : Type :=
| ResponseMissing
| ResponseNull
| ResponseObject (output : list output_item).
Record result_line : Type := mkResultLine {
  line_custom_id : string;
  line_response : response_field
}.

Record remote : Type := mkRemote {
  json_dumps_len : request -> nat;
  create_batch : list request -> string -> nat -> result job;
  batches_retrieve : string -> batch_response;
  files_content : option string -> result (list result_line)
}.

Definition encode_messages (items : list base.GenericItem) : list message :=
  map (fun item => match item with
                   | base.ImageItem b => InputImage b
                   | base.TextItem t => InputText t
                   end) items.

Definition append_request (w : World) (self : provider)
    (context_items : list base.GenericItem) (custom_id : string) : provider :=
  let request := {| custom_id := custom_id;
                    body_model := model self;
                    body_system := system_prompt w;
                    body_content := encode_messages context_items;
                    body_effort := reasoning self |} in
  {| model := model self; reasoning := reasoning self;
     responses := responses self;
     batch_requests := batch_requests self ++ [request];
     batch_jobs := batch_jobs self;
     self_file_id := self_file_id self;
     self_batch_id := self_batch_id self;
     max_batch_size_mb := max_batch_size_mb self |}.

Definition _handle_one_annotation (w : World) (self : provider)
    (id : string) (idx : nat) (annotation : AnnotationEntry)
    (question_type : string) (whole_page whole_doc without_context : bool)
  : result provider :=
  let* (context_items, question, answers, correct_letter) :=
    base.build_default_context w annotation id question_type whole_page whole_doc in
  ok (append_request w self context_items
        (key.custom_id id idx question_type correct_letter
           whole_page whole_doc without_context)).

Definition _handle_one_annotation_without_context (w : World) (self : provider)
    (id : string) (idx : nat) (annotation : AnnotationEntry)
    (question_type : string) (whole_page whole_doc without_context : bool)
  : result provider :=
  let* (context_items, question, answers, correct_letter) :=
    base.build_without_context w annotation question_type in
  ok (append_request w self context_items
        (key.custom_id id idx question_type correct_letter
           whole_page whole_doc without_context)).

Definition _handle_one_part_pair_annotation (w : World) (self : provider)
    (id : string) (idx : nat) (annotation : AnnotationEntry)
    (question_type : string) (whole_page whole_doc without_context : bool)
  : result provider :=
  let* (context_items, correct_letter) :=
    base.build_part_pair_context w annotation id in
  match context_items with
  | [] => ok self
  | _ =>
      ok (append_request w self context_items
            (key.custom_id id idx question_type correct_letter
               whole_page whole_doc without_context))
  end.

Definition handle (w : World) (question_type : string)
    (whole_page whole_doc without_context : bool)
    (self : provider) (it : string * nat * AnnotationEntry) : result provider :=
  let '(key, idx, ann) := it in
  if without_context then
    _handle_one_annotation_without_context w self key idx ann question_type
      whole_page whole_doc without_context
  else if String.eqb question_type "part_pair" then
    _handle_one_part_pair_annotation w self key idx ann question_type
      whole_page whole_doc without_context
  else
    _handle_one_annotation w self key idx ann question_type
      whole_page whole_doc without_context.

Definition prepare_requests (w : World) (data : base.annotations)
    (self : provider) (question_type : string)
    (whole_page whole_doc without_context : bool) : result provider :=
  let self := {| model := model self; reasoning := reasoning self;
                 responses := [];
                 batch_requests := batch_requests self;
                 batch_jobs := batch_jobs self;
                 self_file_id := self_file_id self;
                 self_batch_id := self_batch_id self;
                 max_batch_size_mb := max_batch_size_mb self |} in
  let whole_page :=
    if whole_page && String.eqb question_type "part_pair" then false
    else whole_page in
  let whole_doc :=
    if whole_doc && String.eqb question_type "part_pair" then false
    else whole_doc in
  for_each
    (handle w question_type whole_page whole_doc without_context)
    (base.iter_annotations data question_type whole_page whole_doc)
    self.

Fixpoint create_jobs (r : remote) (question_type : string)
    (splits : list (nat * list request)) (jobs : list job) : result (list job) :=
  match splits with
  | [] => ok jobs
  | (i, batch_requests) :: rest =>
      let* batch_info := create_batch r batch_requests question_type (i + 1) in
      create_jobs r question_type rest (jobs ++ [batch_info])
  end.

Definition run_mcq_inference (w : World) (r : remote) (data : base.annotations)
    (self : provider) (question_type : string)
    (whole_page whole_doc without_context : bool) : result provider :=
  let* self := prepare_requests w data self question_type
                 whole_page whole_doc without_context in
  let batch_splits :=
    chunker._split_batch_requests (json_dumps_len r) (max_batch_size_mb self)
      (batch_requests self) in
  let* jobs := create_jobs r question_type (base.enumerate_from 0 batch_splits) [] in
  ok {| model := model self; reasoning := reasoning self;
        responses := responses self;
        batch_requests := batch_requests self;
        batch_jobs := jobs;
        self_file_id := match jobs with
                        | j :: _ => Some (file_id j)
                        | [] => self_file_id self
                        end;
        self_batch_id := match jobs with
                         | j :: _ => Some (batch_id j)
                         | [] => self_batch_id self
                         end;
        max_batch_size_mb := max_batch_size_mb self |}.

(** *** [get_batch_results] *)

Definition batch_jobs_to_process (self : provider) : result (list job) :=
  match batch_jobs self with
  | _ :: _ => ok (batch_jobs self)
  | [] =>
      match batch.both_set (self_file_id self) (self_batch_id self) with
      | Some (f, b) => ok [{| file_id := f; batch_id := b |}]
      | None =>
          raise (ValueError "No batch jobs found. file_id and batch_id must be set to retrieve results.")
      end
  end.

Definition not_ready (batch_id status : string) : exn :=
  ValueError ("Batch job " +:+ batch_id +:+ " not ready yet. Status: " +:+ status).

Fixpoint fetch_all (r : remote) (jobs : list job) (all_results : list result_line)
  : result (list result_line) :=
  match jobs with
  | [] => ok all_results
  | batch_job :: rest =>
      let batch_response := batches_retrieve r (batch_id batch_job) in
      if negb (String.eqb (status batch_response) "completed")
      then raise (not_ready (batch_id batch_job) (status batch_response))
      else
        let* batch_results := files_content r (output_file_id batch_response) in
        fetch_all r rest (all_results ++ batch_results)
  end.

(** The inner loop: the first content of type ["output_text"]. *)
Fixpoint first_output_text (content : list output_content) : option string :=
  match content with
  | [] => None
  | c :: rest =>
      if bool_decide (c_type c = Some "output_text")
      then Some (scoring.normalize (match c_text c with
                                    | Some t => t
                                    | None => ""
                                    end))
      else first_output_text rest
  end.

(** The outer loop: the first message item that has such a content. *)
Fixpoint first_message_text (output : list output_item) : option string :=
  match output with
  | [] => None
  | item :: rest =>
      if bool_decide (i_type item = Some "message")
      then match first_output_text (i_content item) with
           | Some p => Some p
           | None => first_message_text rest
           end
      else first_message_text rest
  end.

Definition extract_prediction (line : result_line) : result (option string) :=
  match line_response line with
  | ResponseMissing => ok None
  | ResponseNull =>
      raise (AttributeError "'NoneType' object has no attribute 'get'")
  | ResponseObject output => ok (first_message_text output)
  end.

Definition score_line (line : result_line)
  : result (batch.response * key.fields)%type :=
  let* f := key.unpack (line_custom_id line) in
  let* prediction := extract_prediction line in
  ok ({| batch.id := key.f_id f;
         batch.idx := key.f_idx f;
         batch.question_type := key.f_question_type_part f;
         batch.correct_letter := key.f_correct_letter f;
         batch.prediction := prediction;
         batch.is_correct :=
           scoring.is_correct prediction (key.f_correct_letter f) |},
      f).

Fixpoint score_all (all_results : list result_line)
    (responses : list batch.response) (last : option key.fields)
  : result (list batch.response * option key.fields)%type :=
  match all_results with
  | [] => ok (responses, last)
  | line :: rest =>
      let* (resp, f) := score_line line in
      score_all rest (responses ++ [resp]) (Some f)
  end.

Definition get_batch_results (w : World) (r : remote) (self : provider)
  : list (base.write_event batch.response) * result provider :=
  let computed :=
    let* jobs := batch_jobs_to_process self in
    let* all_results := fetch_all r jobs [] in
    let* (responses, last) := score_all all_results [] None in
    match last with
    | None =>
        raise (UnboundLocalError "cannot access local variable 'whole_page'")
    | Some f => ok (responses, f)
    end in
  match computed with
  | inl e => ([], inl e)
  | inr (responses, f) =>
      match base.write_results w responses (model self)
              (key.f_question_type_part f)
              (key.is_True (key.f_whole_page f))
              (key.is_True (key.f_whole_doc f))
              (key.is_True (key.f_without_context f)) with
      | inl e => ([], inl e)
      | inr (events, _) =>
          (events,
           ok {| model := model self; reasoning := reasoning self;
                 responses := responses;
                 batch_requests := batch_requests self;
                 batch_jobs := batch_jobs self;
                 self_file_id := self_file_id self;
                 self_batch_id := self_batch_id self;
                 max_batch_size_mb := max_batch_size_mb self |})
      end
  end.

End openai_batch.

(** ** utils/providers/cluster.py *)

Module cluster.

(** [sep in s] and [s.split(sep, 1)] together: the text before and the
    text after the first occurrence of [sep], [None] when [sep] does not
    occur. *)
Fixpoint drop_chars (n : nat) (s : string) : string :=
  match n, s with
  | S n', String _ s' => drop_chars n' s'
  | _, _ => s
  end.

Fixpoint split_once (sep s : string) : option (string * string) :=
  if String.prefix sep s then Some (EmptyString, drop_chars (String.length sep) s)
  else match s with
       | EmptyString => None
       | String c s' =>
           match split_once sep s' with
           | Some (before, after) => Some (String c before, after)
           | None => None
           end
       end.

(** [s.replace(old, "")] for a non-empty [old]: the occurrences are
    removed from left to right without overlap; [skip] counts the
    characters of an occurrence still to be dropped. *)
Fixpoint remove_all_from (old : string) (skip : nat) (s : string) : string :=
  match s with
  | EmptyString => EmptyString
  | String c s' =>
      match skip with
      | S k => remove_all_from old k s'
      | O =>
          if String.prefix old s
          then remove_all_from old (String.length old - 1) s'
          else String c (remove_all_from old 0 s')
      end
  end.

Definition remove_all (old s : string) : string := remove_all_from old 0 s.

(** The ASCII characters [str.strip()] without argument removes: those of
    [Py.whitespace] and the four separators FS, GS, RS and US. *)
Definition isspace_chars : string :=
  Py.whitespace
  +:+ String "028" (String "029" (String "030" (String "031" EmptyString))).

(** One element of [self.responses] of the synchronous backend; the key
    ["reasoning"] is present for a reasoning model whose text closes its
    thinking part. *)
Record response : Type := mkResponse {
  id : string;
  idx : nat;
  prediction : string;
  correct_letter : string;
  is_correct : bool;
  reasoning : option string
}.

(** The attributes of a [vLLMProvider] that the embedded methods read or
    write; the constructor sets [self.reasoning = False]. *)
Record provider : Type := mkProvider {
  model : string;
  self_reasoning : bool;
  responses : list response
}.

(** The loaders of [model_map]. *)
Inductive loader : Type :=
| load_llava_ov
| load_qwen_2_5_vl
| load_internvl
| load_internvl3_5
| load_glm
| load_ovis
| load_gemma.

Definition model_map : list (string * loader) :=
  [("llava-hf/llava-onevision-qwen2-7b-ov-hf", load_llava_ov);
   ("llava-hf/llava-onevision-qwen2-72b-ov-hf", load_llava_ov);
   ("Qwen/Qwen2.5-VL-72B-Instruct", load_qwen_2_5_vl);
   ("Qwen/Qwen2.5-VL-32B-Instruct", load_qwen_2_5_vl);
   ("Qwen/Qwen2.5-VL-7B-Instruct", load_qwen_2_5_vl);
   ("OpenGVLab/InternVL3-8B-Instruct", load_internvl);
   ("OpenGVLab/InternVL3-38B-Instruct", load_internvl);
   ("OpenGVLab/InternVL3-78B-Instruct", load_internvl);
   ("OpenGVLab/InternVL3_5-8B", load_internvl3_5);
   ("OpenGVLab/InternVL3_5-38B", load_internvl3_5);
   ("internlm/internlm-xcomposer2d5-7b", load_internvl);
   ("internlm/internlm-xcomposer2-4khd-7b", load_internvl);
   ("zai-org/GLM-4.5V-FP8", load_glm);
   ("AIDC-AI/Ovis2-34B", load_ovis);
   ("AIDC-AI/Ovis2-8B", load_ovis);
   ("google/gemma-3-4b-it", load_gemma);
   ("google/gemma-3-27b-it", load_gemma);
   ("google/gemma-3-12b-it", load_gemma)].

Fixpoint lookup_model (name : string) (m : list (string * loader))
  : option loader :=
  match m with
  | [] => None
  | (k, l) :: m' => if String.eqb k name then Some l else lookup_model name m'
  end.

(** The loaders whose first statement is [self.reasoning = True]. *)
Definition sets_reasoning (l : loader) : bool :=
  match l with
  | load_internvl3_5 | load_glm => true
  | _ => false
  end.

(** What lies behind the loader and [self.llm.generate]: the text
    generated by the model for the context items of one question, with the
    given [max_tokens], with or without the images, or the exception raised
    on the way (a loader or an engine failure). *)
Definition engine : Type :=
  string -> list base.GenericItem -> Z -> bool -> result string.

Definition _run_inference (llm : engine) (self : provider) (id : string)
    (idx : nat) (context_items : list base.GenericItem)
    (correct_letter : string) (include_images : bool) : result provider :=
  match lookup_model (model self) model_map with
  | None => raise (KeyError (model self))
  | Some load =>
      let self_reasoning := self_reasoning self || sets_reasoning load in
      let max_tokens := if self_reasoning then 16384 else 10 in
      let* full_text :=
        llm (model self) context_items max_tokens include_images in
      let prediction := scoring.normalize full_text in
      let response_dict :=
        {| id := id; idx := idx; prediction := prediction;
           correct_letter := correct_letter;
           is_correct := String.eqb prediction correct_letter;
           reasoning := None |} in
      let response_dict :=
        if self_reasoning then
          match split_once "</think>" full_text with
          | Some (thinking_part, final_part) =>
              let prediction := scoring.normalize final_part in
              {| id := id; idx := idx; prediction := prediction;
                 correct_letter := correct_letter;
                 is_correct := String.eqb prediction correct_letter;
                 reasoning :=
                   Some (Py.strip isspace_chars
                           (remove_all "<think>" thinking_part)) |}
          | None => response_dict
          end
        else response_dict in
      ok {| model := model self; self_reasoning := self_reasoning;
            responses := responses self ++ [response_dict] |}
  end.

Definition _handle_one_annotation (w : World) (llm : engine) (self : provider)
    (id : string) (idx : nat) (annotation : AnnotationEntry)
    (question_type : string) (whole_page whole_doc : bool) : result provider :=
  let* (context_items, question, answers, correct_letter) :=
    base.build_default_context w annotation id question_type whole_page whole_doc in
  _run_inference llm self id idx context_items correct_letter true.

Definition _handle_one_annotation_without_context (w : World) (llm : engine)
    (self : provider) (id : string) (idx : nat) (annotation : AnnotationEntry)
    (question_type : string) (whole_page whole_doc : bool) : result provider :=
  let* (context_items, question, answers, correct_letter) :=
    base.build_without_context w annotation question_type in
  _run_inference llm self id idx context_items correct_letter false.

Definition _handle_one_part_pair_annotation (w : World) (llm : engine)
    (self : provider) (id : string) (idx : nat) (annotation : AnnotationEntry)
    (question_type : string) (whole_page whole_doc : bool) : result provider :=
  let* (context_items, correct_letter) :=
    base.build_part_pair_context w annotation id in
  match context_items with
  | [] => ok self
  | _ => _run_inference llm self id idx context_items correct_letter true
  end.

Definition unsupported_mode : exn :=
  ValueError "without_context=True is not supported for question_type='part_pair'".

(** The body of the loop over the annotations. *)
Definition handle (w : World) (llm : engine) (question_type : string)
    (whole_page whole_doc without_context : bool)
    (self : provider) (it : string * nat * AnnotationEntry) : result provider :=
  let '(key, idx, ann) := it in
  if without_context then
    if String.eqb question_type "part_pair" then raise unsupported_mode
    else _handle_one_annotation_without_context w llm self key idx ann
           question_type whole_page whole_doc
  else if String.eqb question_type "part_pair" then
    _handle_one_part_pair_annotation w llm self key idx ann
      question_type whole_page whole_doc
  else
    _handle_one_annotation w llm self key idx ann
      question_type whole_page whole_doc.

Definition run_mcq_inference (w : World) (llm : engine)
    (data : base.annotations) (self : provider) (question_type : string)
    (whole_page whole_doc without_context : bool)
  : list (base.write_event response) * result provider :=
  let self := {| model := model self; self_reasoning := self_reasoning self;
                 responses := [] |} in
  match for_each
          (handle w llm question_type whole_page whole_doc without_context)
          (base.iter_annotations data question_type whole_page whole_doc)
          self with
  | inl e => ([], inl e)
  | inr self =>
      match base.write_results w (responses self) (model self) question_type
              whole_page whole_doc without_context with
      | inl e => ([], inl e)
      | inr (events, _) => (events, ok self)
      end
  end.

End cluster.

(* ================================================================== *)
(** * Part II: properties                                              *)
(* ================================================================== *)

(** ** The chunker *)

Section ChunkerFacts.

Context {request : Type}.
Variable json_dumps_len : request -> nat.
Variable max_batch_size_mb : Q.

Local Abbreviation size := (chunker._estimate_request_size_mb json_dumps_len).
Local Abbreviation total := (chunker._estimate_total_size_mb json_dumps_len).
Local Abbreviation step := (chunker.split_step json_dumps_len max_batch_size_mb).

(** A closed chunk is acceptable: it is not empty, and if its estimated
    size exceeds the limit it holds a single request. *)
Definition chunk_ok (c : list request) : Prop :=
  c <> [] /\ ((max_batch_size_mb < total c)%Q -> length c = 1%nat).

Lemma total_snoc (l : list request) (r : request) :
  total (l ++ [r]) = (total l + size r)%Q.
Proof.
  unfold chunker._estimate_total_size_mb.
  rewrite fold_left_app. reflexivity.
Qed.

Lemma Qgtb_false (a b : Q) : chunker.Qgtb a b = false -> ~ (b < a)%Q.
Proof.
  unfold chunker.Qgtb. intros H.
  apply negb_false_iff, Qle_bool_iff in H.
  apply Qle_not_lt. exact H.
Qed.

(** The loop invariant of [_split_batch_requests], relative to the
    requests consumed so far. *)
Record split_inv (consumed : list request) (st : chunker.split_state)
  : Prop := mkSplitInv {
  inv_concat :
    concat (chunker.batches st) ++ chunker.current_batch st = consumed;
  inv_closed : Forall chunk_ok (chunker.batches st);
  inv_size : (chunker.current_size_mb st == total (chunker.current_batch st))%Q;
  inv_current :
    chunker.current_batch st = []
    \/ length (chunker.current_batch st) = 1%nat
    \/ ~ (max_batch_size_mb < total (chunker.current_batch st))%Q
}.

Lemma split_inv_current_ok consumed st :
  split_inv consumed st ->
  chunker.current_batch st <> [] ->
  chunk_ok (chunker.current_batch st).
Proof.
  intros [_ _ _ Hcur] Hne. split; [exact Hne|].
  intros Hgt. destruct Hcur as [H | [H | H]]; [congruence | exact H | tauto].
Qed.

Lemma split_step_inv consumed st r :
  split_inv consumed st -> split_inv (consumed ++ [r]) (step st r).
Proof.
  intros Hinv. pose proof Hinv as [Hcat Hclosed Hsize Hcur].
  unfold chunker.split_step.
  destruct (chunker.current_batch st) as [|x cur] eqn:Ecur; simpl.
  - (* the first request of a chunk *)
    constructor; simpl.
    + rewrite <- Hcat, app_nil_r. reflexivity.
    + exact Hclosed.
    + rewrite Hsize. reflexivity.
    + right. left. reflexivity.
  - destruct (chunker.Qgtb _ _) eqn:Egt; constructor;
      cbn [chunker.batches chunker.current_batch chunker.current_size_mb].
    + rewrite <- Hcat, concat_app. simpl. rewrite app_nil_r. reflexivity.
    + apply Forall_app. split; [exact Hclosed|].
      constructor; [|constructor].
      rewrite <- Ecur. apply (split_inv_current_ok consumed); [exact Hinv|].
      rewrite Ecur. discriminate.
    + unfold chunker._estimate_total_size_mb. simpl. ring.
    + right. left. reflexivity.
    + rewrite <- Hcat. rewrite <- app_assoc. reflexivity.
    + exact Hclosed.
    + change (x :: cur ++ [r]) with ((x :: cur) ++ [r]).
      rewrite total_snoc, Hsize. reflexivity.
    + right. right.
      change (x :: cur ++ [r]) with ((x :: cur) ++ [r]).
      rewrite total_snoc, <- Hsize.
      apply Qgtb_false. exact Egt.
Qed.

Lemma split_loop_inv rs : forall consumed st,
  split_inv consumed st ->
  split_inv (consumed ++ rs) (fold_left step rs st).
Proof.
  induction rs as [|r rs IH]; intros consumed st Hinv; simpl.
  - rewrite app_nil_r. exact Hinv.
  - replace (consumed ++ r :: rs) with ((consumed ++ [r]) ++ rs)
      by (rewrite <- app_assoc; reflexivity).
    apply IH, split_step_inv, Hinv.
Qed.

Lemma split_init_inv :
  split_inv [] {| chunker.batches := []; chunker.current_batch := [];
                  chunker.current_size_mb := 0%Q |}.
Proof.
  constructor; simpl; [reflexivity | constructor | reflexivity | now left].
Qed.

(** C1. For every list of requests and every limit (positive or not), the
    chunks returned by [_split_batch_requests], concatenated in order, are
    exactly the input list; no chunk is empty; and a chunk whose estimated
    size exceeds the limit holds exactly one request. *)
Theorem split_batch_requests_partition (requests : list request) :
  concat (chunker._split_batch_requests json_dumps_len max_batch_size_mb requests)
    = requests
  /\ Forall (fun chunk =>
               chunk <> []
               /\ ((max_batch_size_mb
                    < chunker._estimate_total_size_mb json_dumps_len chunk)%Q
                   -> length chunk = 1%nat))
            (chunker._split_batch_requests json_dumps_len max_batch_size_mb
               requests).
Proof.
  unfold chunker._split_batch_requests.
  pose proof (split_loop_inv requests [] _ split_init_inv) as Hinv.
  simpl in Hinv.
  set (st := fold_left step requests _) in *.
  pose proof Hinv as [Hcat Hclosed _ _].
  destruct (chunker.current_batch st) as [|x cur] eqn:Ecur; simpl.
  - split; [|exact Hclosed].
    rewrite app_nil_r in Hcat. exact Hcat.
  - split.
    + rewrite concat_app. simpl. rewrite app_nil_r. exact Hcat.
    + apply Forall_app. split; [exact Hclosed|].
      constructor; [|constructor].
      rewrite <- Ecur. apply (split_inv_current_ok requests); [exact Hinv|].
      rewrite Ecur. discriminate.
Qed.

End ChunkerFacts.

(** ** Strings: splitting and replacing *)

Section StringFacts.

(** [c] does not occur in [s]. *)
Definition free_of (c : ascii) (s : string) : Prop := Py.mem c s = false.

Lemma free_of_cons c a s :
  free_of c (String a s) <-> a <> c /\ free_of c s.
Proof.
  unfold free_of, Py.mem. simpl.
  rewrite orb_false_iff, Ascii.eqb_neq. intuition congruence.
Qed.

Lemma free_of_empty c : free_of c "".
Proof. reflexivity. Qed.

Lemma free_of_app c s t :
  free_of c s -> free_of c t -> free_of c (s +:+ t).
Proof.
  induction s as [|a s IH]; simpl; intros Hs Ht; [exact Ht|].
  apply free_of_cons in Hs as [Ha Hs].
  apply free_of_cons. split; [exact Ha | apply IH; assumption].
Qed.

Lemma split_free c s : free_of c s -> Py.split c s = [s].
Proof.
  induction s as [|a s IH]; intros H; simpl; [reflexivity|].
  apply free_of_cons in H as [Ha Hs].
  apply Ascii.eqb_neq in Ha. rewrite Ha, (IH Hs). reflexivity.
Qed.

Lemma split_app c s t :
  free_of c s -> Py.split c (s +:+ String c t) = s :: Py.split c t.
Proof.
  induction s as [|a s IH]; intros H; simpl.
  - rewrite Ascii.eqb_refl. reflexivity.
  - apply free_of_cons in H as [Ha Hs].
    apply Ascii.eqb_neq in Ha. rewrite Ha, (IH Hs). reflexivity.
Qed.

Lemma replace_free a b s : a <> b -> free_of a (Py.replace a b s).
Proof.
  intros Hab. induction s as [|c s IH]; simpl; [reflexivity|].
  apply free_of_cons. split; [|exact IH].
  destruct (Ascii.eqb c a) eqn:E; [congruence|].
  apply Ascii.eqb_neq. exact E.
Qed.

Lemma replace_inverse a b s :
  free_of b s -> Py.replace b a (Py.replace a b s) = s.
Proof.
  induction s as [|c s IH]; intros H; simpl; [reflexivity|].
  apply free_of_cons in H as [Hc Hs]. rewrite (IH Hs). f_equal.
  destruct (Ascii.eqb c a) eqn:E.
  - apply Ascii.eqb_eq in E. rewrite Ascii.eqb_refl. congruence.
  - apply Ascii.eqb_neq in Hc. rewrite Hc. reflexivity.
Qed.

Lemma app_sep (a b : string) : a +:+ "_" +:+ b = a +:+ String "_" b.
Proof. reflexivity. Qed.

Lemma str_bool_free b : free_of "_" (Py.str_bool b).
Proof. destruct b; reflexivity. Qed.

Lemma string_of_uint_free d : free_of "_" (NilEmpty.string_of_uint d).
Proof.
  induction d; simpl; try reflexivity;
    (apply free_of_cons; split; [discriminate | assumption]).
Qed.

Lemma str_nat_free n : free_of "_" (Py.str_nat n).
Proof. apply string_of_uint_free. Qed.

Lemma is_True_str_bool b : key.is_True (Py.str_bool b) = b.
Proof. destruct b; reflexivity. Qed.

End StringFacts.

(** ** The correlation key *)

Section KeyFacts.

(** The claim as the specification words it: decoding the encoded key
    gives back the fields, whatever strings they are. *)
Definition key_round_trip_for_all : Prop :=
  forall id idx question_type correct_letter whole_page whole_doc without_context,
    key.decode (key.custom_id id idx question_type correct_letter
                  whole_page whole_doc without_context)
    = ok (key.mkDecoded id (Py.str_nat idx) question_type correct_letter
            whole_page whole_doc without_context).

Lemma unpack_custom_id id idx qt cl wp wd wc :
  free_of "_" id -> free_of "_" cl ->
  key.unpack (key.custom_id id idx qt cl wp wd wc)
  = ok (key.mkFields id (Py.str_nat idx) (Py.replace "_" "-" qt) cl
          (Py.str_bool wp) (Py.str_bool wd) (Py.str_bool wc)).
Proof.
  intros Hid Hcl. unfold key.unpack, key.custom_id.
  rewrite !app_sep.
  rewrite (split_app _ _ _ Hid).
  rewrite (split_app _ _ _ (str_nat_free idx)).
  rewrite (split_app "_" (Py.replace "_" "-" qt));
    [|apply replace_free; discriminate].
  rewrite (split_app _ _ _ Hcl).
  rewrite (split_app _ _ _ (str_bool_free wp)).
  rewrite (split_app _ _ _ (str_bool_free wd)).
  rewrite (split_free _ _ (str_bool_free wc)).
  reflexivity.
Qed.

Lemma unpack_custom_id_legacy id idx qt cl wp wc :
  free_of "_" id -> free_of "_" cl ->
  key.unpack (key.custom_id_legacy id idx qt cl wp wc)
  = ok (key.mkFields id (Py.str_nat idx) (Py.replace "_" "-" qt) cl
          (Py.str_bool wp) "False" (Py.str_bool wc)).
Proof.
  intros Hid Hcl. unfold key.unpack, key.custom_id_legacy.
  rewrite !app_sep.
  rewrite (split_app _ _ _ Hid).
  rewrite (split_app _ _ _ (str_nat_free idx)).
  rewrite (split_app "_" (Py.replace "_" "-" qt));
    [|apply replace_free; discriminate].
  rewrite (split_app _ _ _ Hcl).
  rewrite (split_app _ _ _ (str_bool_free wp)).
  rewrite (split_free _ _ (str_bool_free wc)).
  reflexivity.
Qed.

(** C2. If the id and the correct letter contain no underscore and the
    question type contains no hyphen, then decoding the seven-field key
    gives back the id, the decimal digits of the index, the question
    type, the correct letter and the three flags; decoding the six-field
    key of older runs gives the same with [whole_doc] false. *)
Theorem key_round_trip id idx question_type correct_letter
    whole_page whole_doc without_context :
  free_of "_" id ->
  free_of "_" correct_letter ->
  free_of "-" question_type ->
  key.decode (key.custom_id id idx question_type correct_letter
                whole_page whole_doc without_context)
  = ok (key.mkDecoded id (Py.str_nat idx) question_type correct_letter
          whole_page whole_doc without_context)
  /\ key.decode (key.custom_id_legacy id idx question_type correct_letter
                   whole_page without_context)
     = ok (key.mkDecoded id (Py.str_nat idx) question_type correct_letter
             whole_page false without_context).
Proof.
  intros Hid Hcl Hqt. unfold key.decode.
  rewrite (unpack_custom_id _ _ _ _ _ _ _ Hid Hcl).
  rewrite (unpack_custom_id_legacy _ _ _ _ _ _ Hid Hcl).
  simpl. rewrite !is_True_str_bool, (replace_inverse _ _ _ Hqt).
  split; reflexivity.
Qed.

Lemma key_round_trip_witness :
  free_of "_" "paper7" /\ free_of "_" "B" /\ free_of "-" "binary_consistent"
  /\ key.decode (key.custom_id "paper7" 3 "binary_consistent" "B"
                   true false true)
     = ok (key.mkDecoded "paper7" "3" "binary_consistent" "B" true false true).
Proof.
  split; [reflexivity|]. split; [reflexivity|]. split; [reflexivity|].
  exact (proj1 (key_round_trip "paper7" 3 "binary_consistent" "B"
                  true false true eq_refl eq_refl eq_refl)).
Defined.

(** An id with an underscore: the seven-field key has eight fields and
    unpacking raises; the six-field key has seven fields and is silently
    read as a current key, with every field after the id shifted.  An
    underscore in the correct letter does the same, and a hyphen of the
    question type comes back as an underscore. *)
Lemma key_round_trip_counterexample :
  ~ key_round_trip_for_all
  /\ key.decode (key.custom_id "a_b" 0 "default" "A" false false false)
     = raise (ValueError "too many values to unpack")
  /\ key.decode (key.custom_id_legacy "a_b" 0 "default" "A" false false)
     = ok (key.mkDecoded "a" "b" "0" "default" false false false)
  /\ key.decode (key.custom_id "p1" 0 "default" "A_B" false false false)
     = raise (ValueError "too many values to unpack")
  /\ key.decode (key.custom_id "p1" 0 "multi-step" "A" false false false)
     = ok (key.mkDecoded "p1" "0" "multi_step" "A" false false false).
Proof.
  split; [|repeat split; reflexivity].
  intros H.
  specialize (H "a_b" 0%nat "default" "A" false false false).
  discriminate H.
Qed.

End KeyFacts.

(** ** Normalizing and scoring a prediction *)

Section ScoringFacts.

(** Every character of [s] is in [chars]. *)
Definition all_in (chars s : string) : Prop :=
  Forall (fun c => Py.mem c chars = true) (String.list_ascii_of_string s).

(** [s] does not begin with a character of [chars]. *)
Definition head_out (chars s : string) : Prop :=
  match s with
  | EmptyString => True
  | String c _ => Py.mem c chars = false
  end.

(** [s] does not end with a character of [chars]. *)
Fixpoint last_out (chars s : string) : Prop :=
  match s with
  | EmptyString => True
  | String c EmptyString => Py.mem c chars = false
  | String _ s' => last_out chars s'
  end.

Lemma lstrip_spec chars s :
  exists l, s = l +:+ Py.lstrip chars s
            /\ all_in chars l /\ head_out chars (Py.lstrip chars s).
Proof.
  induction s as [|c s IH]; simpl.
  - exists "". repeat split. constructor.
  - destruct (Py.mem c chars) eqn:E.
    + destruct IH as (l & Hs & Hl & Hh).
      exists (String c l). repeat split; [|constructor; assumption|exact Hh].
      change (String c s = String c (l +:+ Py.lstrip chars s)).
      f_equal. exact Hs.
    + exists "". repeat split; [constructor|exact E].
Qed.

Lemma rstrip_spec chars s :
  exists r, s = Py.rstrip chars s +:+ r
            /\ all_in chars r /\ last_out chars (Py.rstrip chars s).
Proof.
  induction s as [|c s IH]; simpl.
  - exists "". repeat split. constructor.
  - destruct IH as (r & Hs & Hr & Hlast).
    destruct (Py.rstrip chars s) as [|a t] eqn:E.
    + change (s = r) in Hs. subst s.
      destruct (Py.mem c chars) eqn:Ec.
      * exists (String c r). repeat split. constructor; assumption.
      * exists r. repeat split; assumption.
    + exists r. repeat split; [|exact Hr|exact Hlast].
      change (String c s = String c (String a t +:+ r)).
      f_equal. exact Hs.
Qed.

Lemma rstrip_head_out chars s :
  head_out chars s -> head_out chars (Py.rstrip chars s).
Proof.
  destruct s as [|c s]; simpl; [trivial|]. intros Hc.
  destruct (Py.rstrip chars s); [rewrite Hc|]; exact Hc.
Qed.

(** [strip] removes a run of [chars] at each end and nothing else. *)
Lemma strip_spec chars s :
  exists l r, s = l +:+ Py.strip chars s +:+ r
              /\ all_in chars l /\ all_in chars r
              /\ head_out chars (Py.strip chars s)
              /\ last_out chars (Py.strip chars s).
Proof.
  destruct (lstrip_spec chars s) as (l & Hs & Hl & Hh).
  destruct (rstrip_spec chars (Py.lstrip chars s)) as (r & Hm & Hr & Hlast).
  exists l, r. unfold Py.strip. repeat split; try assumption.
  - rewrite <- Hm. exact Hs.
  - apply rstrip_head_out. exact Hh.
Qed.

(** What the scoring of a line guarantees about the response it
    appends, given the correct letter found in the key. *)
Definition scored (resp : batch.response) (correct_letter : string) : Prop :=
  batch.correct_letter resp = correct_letter
  /\ (batch.is_correct resp = true
      <-> batch.prediction resp = Some correct_letter)
  /\ (batch.prediction resp = None -> batch.is_correct resp = false)
  /\ (String.length correct_letter = 1%nat ->
      forall p, batch.prediction resp = Some p ->
                String.length p <> 1%nat ->
                batch.is_correct resp = false).

Lemma is_correct_iff prediction correct_letter :
  scoring.is_correct prediction correct_letter = true
  <-> prediction = Some correct_letter.
Proof.
  destruct prediction as [p|]; simpl.
  - rewrite String.eqb_eq. split; congruence.
  - split; discriminate.
Qed.

Lemma is_correct_scored id idx qt prediction correct_letter :
  scored (batch.mkResponse id idx qt correct_letter prediction
            (scoring.is_correct prediction correct_letter))
         correct_letter.
Proof.
  unfold scored. simpl. split; [reflexivity|].
  split; [apply is_correct_iff|]. split.
  - intros ->. reflexivity.
  - intros Hlen p -> Hp. simpl.
    apply String.eqb_neq. intros ->. contradiction.
Qed.

(** The texts of the [output_text] contents of the message items of an
    output, in order; a content without text counts as the empty text. *)
Definition output_texts (output : list openai_batch.output_item)
  : list string :=
  flat_map
    (fun item =>
       if bool_decide (openai_batch.i_type item = Some "message")
       then flat_map
              (fun c =>
                 if bool_decide (openai_batch.c_type c = Some "output_text")
                 then [match openai_batch.c_text c with
                       | Some t => t
                       | None => ""
                       end]
                 else [])
              (openai_batch.i_content item)
       else [])
    output.

(** The raw text the OpenAI scoring reads from a line: the first such
    text, if the line has a response object with one. *)
Definition openai_raw_text (line : openai_batch.result_line)
  : option string :=
  match openai_batch.line_response line with
  | openai_batch.ResponseObject output => head (output_texts output)
  | _ => None
  end.

Lemma first_output_text_head content :
  openai_batch.first_output_text content
  = option_map scoring.normalize
      (head (flat_map
               (fun c =>
                  if bool_decide (openai_batch.c_type c = Some "output_text")
                  then [match openai_batch.c_text c with
                        | Some t => t
                        | None => ""
                        end]
                  else [])
               content)).
Proof.
  induction content as [|c content IH]; [reflexivity|].
  cbn [openai_batch.first_output_text flat_map].
  destruct (bool_decide (openai_batch.c_type c = Some "output_text"));
    [reflexivity | exact IH].
Qed.

Lemma first_message_text_head output :
  openai_batch.first_message_text output
  = option_map scoring.normalize (head (output_texts output)).
Proof.
  induction output as [|item output IH]; [reflexivity|].
  unfold output_texts.
  cbn [openai_batch.first_message_text flat_map].
  fold (output_texts output).
  destruct (bool_decide (openai_batch.i_type item = Some "message"));
    [|exact IH].
  rewrite first_output_text_head.
  destruct (flat_map _ (openai_batch.i_content item)) as [|t ts];
    [exact IH | reflexivity].
Qed.

(** The normalization as the specification words it: the five characters
    and any surrounding whitespace are trimmed, then the text is
    upper-cased. *)
Definition spec_normalize (text : string) : string :=
  Py.upper (Py.strip (scoring.strip_chars +:+ Py.whitespace) text).

Definition newline : ascii := "010"%char.

(** C3. The five characters quote, full stop, double quote, space and
    closing parenthesis are trimmed from both ends of the text, and
    nothing else is; the rest is upper-cased.  A line is marked correct
    iff its prediction is the correct letter of its key; a missing
    prediction is incorrect, and so is, for a one-character correct
    letter, an empty or longer prediction.  With a well-formed key the
    Gemini scoring returns without exception, and so does the OpenAI
    scoring when the response is absent or an object; the prediction is
    the normalized first text of the line (Gemini: of the first part of
    the first candidate; OpenAI: of the first [output_text] content among
    the message items), or missing when the line has no such text. *)
Theorem prediction_scoring :
  (scoring.normalize "A)" = "A"
   /\ scoring.normalize " a " = "A"
   /\ scoring.normalize "'A.'" = "A")
  /\ (forall text,
        exists l m r,
          text = l +:+ m +:+ r
          /\ all_in scoring.strip_chars l /\ all_in scoring.strip_chars r
          /\ head_out scoring.strip_chars m /\ last_out scoring.strip_chars m
          /\ scoring.normalize text = Py.upper m)
  /\ (forall line d,
        key.decode (gemini_batch.line_key line) = ok d ->
        exists resp,
          gemini_batch.score_line line = ok (resp, d)
          /\ batch.prediction resp
             = option_map scoring.normalize (gemini_batch.first_text line)
          /\ scored resp (key.d_correct_letter d))
  /\ (forall line f,
        key.unpack (openai_batch.line_custom_id line) = ok f ->
        openai_batch.line_response line <> openai_batch.ResponseNull ->
        exists resp,
          openai_batch.score_line line = ok (resp, f)
          /\ batch.prediction resp
             = option_map scoring.normalize (openai_raw_text line)
          /\ scored resp (key.f_correct_letter f)).
Proof.
  split; [repeat split|]. split; [|split].
  - intros text.
    destruct (strip_spec scoring.strip_chars text)
      as (l & r & Ht & Hl & Hr & Hh & Hlast).
    exists l, (Py.strip scoring.strip_chars text), r.
    repeat split; assumption.
  - intros line d Hd. unfold gemini_batch.score_line. rewrite Hd. simpl.
    eexists. split; [reflexivity|]. split; [reflexivity|].
    apply is_correct_scored.
  - intros line f Hf Hnull. unfold openai_batch.score_line. rewrite Hf. simpl.
    unfold openai_batch.extract_prediction, openai_raw_text.
    destruct (openai_batch.line_response line) as [| |output];
      [|contradiction|]; simpl.
    + eexists. split; [reflexivity|]. split; [reflexivity|].
      apply is_correct_scored.
    + eexists. split; [reflexivity|]. split; [apply first_message_text_head|].
      apply is_correct_scored.
Qed.

Lemma prediction_scoring_witness :
  key.decode "p1_0_default_A_False_False_False"
  = ok (key.mkDecoded "p1" "0" "default" "A" false false false)
  /\ exists resp,
       gemini_batch.score_line
         (gemini_batch.mkResultLine "p1_0_default_A_False_False_False"
            (Some (gemini_batch.mkResponseObj
                     (Some [gemini_batch.mkCandidate
                              (Some (gemini_batch.mkResultContent
                                       (Some [gemini_batch.mkResultPart
                                                (Some " a) ")])))]))))
       = ok (resp, key.mkDecoded "p1" "0" "default" "A" false false false)
       /\ batch.prediction resp = Some "A"
       /\ scored resp "A".
Proof.
  split; [reflexivity|].
  destruct (proj1 (proj2 (proj2 prediction_scoring))
              (gemini_batch.mkResultLine "p1_0_default_A_False_False_False"
                 (Some (gemini_batch.mkResponseObj
                          (Some [gemini_batch.mkCandidate
                                   (Some (gemini_batch.mkResultContent
                                            (Some [gemini_batch.mkResultPart
                                                     (Some " a) ")])))]))))
              (key.mkDecoded "p1" "0" "default" "A" false false false)
              eq_refl) as (resp & Hs & Hp & Hsc).
  exists resp. split; [exact Hs|]. split; [exact Hp | exact Hsc].
Defined.

(** A prediction followed by a newline: the specification's wording
    trims it to the letter, the code keeps the newline and scores the
    line incorrect.  Against a correct letter that is not one character
    long, a two-character or an empty prediction is scored correct. *)
Lemma prediction_scoring_counterexample :
  spec_normalize (String "A" (String newline "")) = "A"
  /\ scoring.normalize (String "A" (String newline ""))
     = String "A" (String newline "")
  /\ scoring.normalize (String "A" (String newline ""))
     <> spec_normalize (String "A" (String newline ""))
  /\ scoring.is_correct
       (Some (scoring.normalize (String "A" (String newline "")))) "A"
     = false
  /\ scoring.is_correct (Some (scoring.normalize "ab")) "AB" = true
  /\ scoring.is_correct (Some (scoring.normalize " ")) "" = true.
Proof. repeat split. discriminate. Qed.

End ScoringFacts.

(** ** Merging two binary result lists *)

Section MergeFacts.

Import helpers.

Definition key_of (item : binary_result) : string * idx_t :=
  (r_id item, r_idx item).

(** The item of [results2] the lookup table holds for a key: the last one
    with that key. *)
Definition counterpart (results2 : list binary_result) (k : string * idx_t)
  : option binary_result :=
  last (filter (fun item => key_of item = k) results2).

Definition has_counterpart (results2 : list binary_result)
    (item1 : binary_result) : Prop :=
  exists item2, item2 ∈ results2 /\ key_of item2 = key_of item1.

Lemma lookup_fold_insert (l : list binary_result) :
  forall (m : gmap (string * idx_t) binary_result) k,
    fold_left (fun m item => <[(r_id item, r_idx item) := item]> m) l m !! k
    = match counterpart l k with
      | Some v => Some v
      | None => m !! k
      end.
Proof.
  induction l as [|x l IH]; intros m k; simpl; [reflexivity|].
  rewrite IH. unfold counterpart. rewrite filter_cons.
  destruct (decide (key_of x = k)) as [E|E].
  - rewrite last_cons.
    destruct (last (filter _ l)); [reflexivity|].
    unfold key_of in E. rewrite E. apply lookup_insert_eq.
  - destruct (last (filter _ l)); [reflexivity|].
    apply lookup_insert_ne. exact E.
Qed.

Lemma results_lookup_counterpart results2 k :
  results_lookup results2 !! k = counterpart results2 k.
Proof.
  unfold results_lookup. rewrite lookup_fold_insert.
  destruct (counterpart results2 k); [reflexivity | apply lookup_empty].
Qed.

Lemma counterpart_Some results2 item1 :
  has_counterpart results2 item1 <->
  is_Some (counterpart results2 (key_of item1)).
Proof.
  unfold has_counterpart, counterpart. split.
  - intros (item2 & Hin & Hk).
    assert (Hf : item2 ∈ filter (fun item => key_of item = key_of item1) results2)
      by (apply list_elem_of_filter; split; assumption).
    destruct (filter _ results2) as [|y f] eqn:E using rev_ind.
    + apply elem_of_nil in Hf. contradiction.
    + rewrite last_snoc. eexists. reflexivity.
  - intros [item2 Hlast].
    apply last_Some_elem_of in Hlast.
    apply list_elem_of_filter in Hlast as [Hk Hin].
    exists item2. split; assumption.
Qed.

(** The record the loop appends for [item1] and its counterpart. *)
Definition merged_pair (results2 : list binary_result)
    (item1 : binary_result) (m : merged_result) : Prop :=
  exists item2 p1 p2,
    counterpart results2 (key_of item1) = Some item2
    /\ r_prediction item1 = Some p1
    /\ r_prediction item2 = Some p2
    /\ m = {| m_id := r_id item1;
              m_idx := r_idx item1;
              m_prediction := p1 +:+ p2;
              m_correct_letter := r_correct_letter item1 +:+ r_correct_letter item2;
              m_is_correct :=
                bool_decide (p1 +:+ p2
                             = r_correct_letter item1 +:+ r_correct_letter item2) |}.

Definition missing_pair : exn := ValueError "Missing item in results2 for key".

Definition predictions_set (results : list binary_result) : Prop :=
  forall item, item ∈ results -> is_Some (r_prediction item).

Lemma merge_item_paired results2 item1 :
  predictions_set results2 ->
  is_Some (r_prediction item1) ->
  has_counterpart results2 item1 ->
  exists m, merge_item (results_lookup results2) item1 = ok m
            /\ merged_pair results2 item1 m.
Proof.
  intros H2 [p1 Hp1] Hc.
  apply counterpart_Some in Hc as [item2 Hc].
  assert (Hin : item2 ∈ results2).
  { apply last_Some_elem_of in Hc.
    apply list_elem_of_filter in Hc as [_ Hin]. exact Hin. }
  destruct (H2 item2 Hin) as [p2 Hp2].
  unfold merge_item. rewrite results_lookup_counterpart.
  fold (key_of item1). rewrite Hc, Hp1, Hp2. simpl.
  eexists. split; [reflexivity|].
  exists item2, p1, p2. repeat split; assumption.
Qed.

Lemma merge_item_missing results2 item1 :
  ~ has_counterpart results2 item1 ->
  merge_item (results_lookup results2) item1 = raise missing_pair.
Proof.
  intros Hc. unfold merge_item. rewrite results_lookup_counterpart.
  fold (key_of item1).
  destruct (counterpart results2 (key_of item1)) eqn:E; [|reflexivity].
  exfalso. apply Hc, counterpart_Some. rewrite E. eexists. reflexivity.
Qed.

Lemma merge_loop_paired results2 results1 :
  predictions_set results2 ->
  predictions_set results1 ->
  (forall item1, item1 ∈ results1 -> has_counterpart results2 item1) ->
  forall acc, exists ms,
    merge_loop (results_lookup results2) results1 acc = ok (acc ++ ms)
    /\ Forall2 (merged_pair results2) results1 ms.
Proof.
  intros H2. induction results1 as [|item1 rest IH]; intros H1 Hc acc; simpl.
  - exists []. rewrite app_nil_r. split; [reflexivity | constructor].
  - destruct (merge_item_paired results2 item1 H2) as (m & Hm & Hpair).
    { apply H1. left. }
    { apply Hc. left. }
    rewrite Hm. simpl.
    destruct (IH (fun i Hi => H1 i (list_elem_of_further _ _ _ Hi))
                 (fun i Hi => Hc i (list_elem_of_further _ _ _ Hi))
                 (acc ++ [m])) as (ms & Hloop & Hall).
    exists (m :: ms). rewrite Hloop, <- app_assoc. simpl.
    split; [reflexivity | constructor; assumption].
Qed.

Lemma merge_loop_missing results2 results1 :
  predictions_set results2 ->
  predictions_set results1 ->
  (exists item1, item1 ∈ results1 /\ ~ has_counterpart results2 item1) ->
  forall acc,
    merge_loop (results_lookup results2) results1 acc = raise missing_pair.
Proof.
  intros H2. induction results1 as [|item1 rest IH];
    intros H1 (bad & Hin & Hbad) acc; simpl.
  - apply elem_of_nil in Hin. contradiction.
  - destruct (counterpart results2 (key_of item1)) as [item2|] eqn:Ec.
    + destruct (merge_item_paired results2 item1 H2) as (m & Hm & _).
      { apply H1. left. }
      { apply counterpart_Some. rewrite Ec. eexists. reflexivity. }
      rewrite Hm. simpl. apply IH.
      * intros i Hi. apply H1. right. exact Hi.
      * exists bad. split; [|exact Hbad].
        apply elem_of_cons in Hin as [-> | Hin]; [|exact Hin].
        exfalso. apply Hbad, counterpart_Some. rewrite Ec. eexists. reflexivity.
    + rewrite merge_item_missing; [reflexivity|].
      intros Hc. apply counterpart_Some in Hc as [x Hx]. congruence.
Qed.

(** The claim as the specification words it: whenever every key of
    [results1] has a counterpart, the merge produces the merged records. *)
Definition merge_succeeds_for_all : Prop :=
  forall results1 results2,
    (forall item1, item1 ∈ results1 -> has_counterpart results2 item1) ->
    exists merged, merge results1 results2 = ok merged.

(** C4. For two result lists whose predictions are all strings: if every
    item of [results1] has an item of [results2] with the same (id, idx),
    the merge returns one record per item of [results1], in order, whose
    prediction and correct letter are the concatenations of the two
    predictions and of the two correct letters (those of the last item of
    [results2] with that key) and whose [is_correct] is the equality of the
    two concatenations; if some item of [results1] has no counterpart the
    merge raises the missing-item error. *)
Theorem merge_binary_pairs results1 results2 :
  predictions_set results1 ->
  predictions_set results2 ->
  ((forall item1, item1 ∈ results1 -> has_counterpart results2 item1) ->
   exists merged,
     merge results1 results2 = ok merged
     /\ Forall2 (merged_pair results2) results1 merged)
  /\ ((exists item1, item1 ∈ results1 /\ ~ has_counterpart results2 item1) ->
      merge results1 results2 = raise missing_pair).
Proof.
  intros H1 H2. split.
  - intros Hc.
    destruct (merge_loop_paired results2 results1 H2 H1 Hc []) as (ms & Hm & Hall).
    exists ms. split; [exact Hm | exact Hall].
  - intros Hbad. apply (merge_loop_missing results2 results1 H2 H1 Hbad).
Qed.

Lemma merge_binary_pairs_witness :
  predictions_set [mkBinaryResult "p1" (IdxInt 0) (Some "A") "A"]
  /\ predictions_set [mkBinaryResult "p1" (IdxInt 0) (Some "B") "C"]
  /\ merge [mkBinaryResult "p1" (IdxInt 0) (Some "A") "A"]
           [mkBinaryResult "p1" (IdxInt 0) (Some "B") "C"]
     = ok [mkMergedResult "p1" (IdxInt 0) "AB" "AC" false]
  /\ merge [mkBinaryResult "p1" (IdxInt 0) (Some "A") "A"]
           [mkBinaryResult "p2" (IdxInt 0) (Some "B") "C"]
     = raise missing_pair.
Proof.
  assert (Hset : forall p c i,
             predictions_set [mkBinaryResult i (IdxInt 0) (Some p) c]).
  { intros p c i item Hin. apply list_elem_of_singleton in Hin. subst item.
    eexists. reflexivity. }
  split; [apply Hset|]. split; [apply Hset|]. split; [reflexivity|].
  apply (merge_binary_pairs
           [mkBinaryResult "p1" (IdxInt 0) (Some "A") "A"]
           [mkBinaryResult "p2" (IdxInt 0) (Some "B") "C"]
           (Hset _ _ _) (Hset _ _ _)).
  exists (mkBinaryResult "p1" (IdxInt 0) (Some "A") "A").
  split; [left|].
  intros (item2 & Hin & Hk). apply list_elem_of_singleton in Hin. subst item2.
  discriminate Hk.
Defined.

(** A null prediction: the key has its counterpart, yet the concatenation
    raises and no merged record is produced. *)
Lemma merge_binary_pairs_counterexample :
  ~ merge_succeeds_for_all
  /\ has_counterpart [mkBinaryResult "p1" (IdxStr "0") (Some "B") "C"]
                     (mkBinaryResult "p1" (IdxStr "0") None "A")
  /\ merge [mkBinaryResult "p1" (IdxStr "0") None "A"]
           [mkBinaryResult "p1" (IdxStr "0") (Some "B") "C"]
     = raise (TypeError "unsupported operand type(s) for +").
Proof.
  assert (Hc : has_counterpart [mkBinaryResult "p1" (IdxStr "0") (Some "B") "C"]
                               (mkBinaryResult "p1" (IdxStr "0") None "A")).
  { eexists. split; [left | reflexivity]. }
  split; [|split; [exact Hc | reflexivity]].
  intros H.
  destruct (H [mkBinaryResult "p1" (IdxStr "0") None "A"]
              [mkBinaryResult "p1" (IdxStr "0") (Some "B") "C"]) as [merged Hm].
  - intros item1 Hin. apply list_elem_of_singleton in Hin. subst item1. exact Hc.
  - discriminate Hm.
Qed.

End MergeFacts.

(** ** The answer options and the correct letter *)

Section AnswerFacts.

Import helpers.

Lemma map_is_fmap {A B} (f : A -> B) (l : list A) : map f l = f <$> l.
Proof. induction l as [|x l IH]; simpl; [reflexivity | f_equal; exact IH]. Qed.

(** A dictionary filled by successive assignments holds, for each key, the
    value assigned last. *)
Lemma fold_insert_last (l : list (string * string)) :
  forall (m : gmap string string) k,
    fold_left (fun m kv => <[kv.1 := kv.2]> m) l m !! k
    = match last (filter (fun kv => kv.1 = k) l) with
      | Some kv => Some kv.2
      | None => m !! k
      end.
Proof.
  induction l as [|x l IH]; intros m k; simpl; [reflexivity|].
  rewrite IH, filter_cons.
  destruct (decide (x.1 = k)) as [E|E].
  - rewrite last_cons.
    destruct (last (filter _ l)); [reflexivity|].
    rewrite E. apply lookup_insert_eq.
  - destruct (last (filter _ l)); [reflexivity|].
    apply lookup_insert_ne. exact E.
Qed.

Lemma dict_of_zip_is_Some keys values k :
  is_Some (dict_of_zip keys values !! k) <-> k ∈ (zip keys values).*1.
Proof.
  unfold dict_of_zip. rewrite fold_insert_last, lookup_empty.
  rewrite list_elem_of_fmap. split.
  - intros [v Hv].
    destruct (last (filter _ (zip keys values))) as [kv|] eqn:E; [|discriminate].
    apply last_Some_elem_of, list_elem_of_filter in E as [Hk Hin].
    exists kv. split; [symmetry; exact Hk | exact Hin].
  - intros (kv & -> & Hin).
    assert (Hf : kv ∈ filter (fun x : string * string => x.1 = kv.1)
                             (zip keys values))
      by (apply list_elem_of_filter; split; [reflexivity | exact Hin]).
    destruct (filter _ (zip keys values)) as [|y f _] using rev_ind.
    + apply elem_of_nil in Hf. contradiction.
    + rewrite last_snoc. eexists. reflexivity.
Qed.

Lemma dict_of_zip_first k v keys values :
  k ∉ keys -> dict_of_zip (k :: keys) (v :: values) !! k = Some v.
Proof.
  intros Hk. unfold dict_of_zip. simpl. rewrite fold_insert_last.
  destruct (last (filter _ (zip keys values))) as [kv|] eqn:E.
  - apply last_Some_elem_of, list_elem_of_filter in E as [Hkv Hin].
    destruct kv as [k' v']. simpl in Hkv. subst k'.
    apply elem_of_zip_l in Hin. contradiction.
  - apply lookup_insert_eq.
Qed.

Lemma sorted_keys_elem_of (d : gmap string string) k :
  k ∈ sorted_keys d <-> is_Some (d !! k).
Proof.
  unfold sorted_keys. rewrite merge_sort_Permutation, map_is_fmap.
  rewrite list_elem_of_fmap. split.
  - intros ([k' v] & -> & Hin). apply elem_of_map_to_list in Hin.
    eexists. exact Hin.
  - intros [v Hv]. exists (k, v). split; [reflexivity|].
    apply elem_of_map_to_list. exact Hv.
Qed.

Lemma sorted_keys_sorted (d : gmap string string) :
  StronglySorted String.le (sorted_keys d) /\ NoDup (sorted_keys d).
Proof.
  unfold sorted_keys. split.
  - apply StronglySorted_merge_sort; apply _.
  - rewrite merge_sort_Permutation, map_is_fmap.
    apply NoDup_fst_map_to_list.
Qed.

(** How [prepare_answers] prints an option. *)
Definition render (question_type : string) (d : gmap string string)
    (letter : string) : string :=
  if Py.contains "binary" question_type
  then letter +:+ ") " +:+ (d !!! letter)
  else d !!! letter.

(** The claim as the specification words it: the correct letter returned
    is not always the first declared letter. *)
Definition correct_letter_not_always_first : Prop :=
  exists mcq question_type answer_options correct_letter,
    prepare_answers mcq question_type = ok (answer_options, correct_letter)
    /\ head (types.letters mcq) <> Some correct_letter.

(** C5. For an item with as many letters as answers, the options are shown
    in the order of the sorted, duplicate-free list of the declared
    letters, each printed from the answer its letter maps to, and the
    correct letter returned is always the first declared letter; when the
    declared letters are pairwise distinct that letter maps to the correct
    answer text.  The default context builder returns the options and the
    letter of [prepare_answers]. *)
Theorem prepare_answers_sorted mcq question_type :
  length (types.letters mcq) = S (length (types.incorrect mcq)) ->
  let d := dict_of_zip (types.letters mcq)
                       (types.correct mcq :: types.incorrect mcq) in
  exists answer_options correct_letter sorted_letters,
    prepare_answers mcq question_type = ok (answer_options, correct_letter)
    /\ head (types.letters mcq) = Some correct_letter
    /\ StronglySorted String.le sorted_letters
    /\ NoDup sorted_letters
    /\ (forall l, l ∈ sorted_letters <-> l ∈ types.letters mcq)
    /\ answer_options = map (render question_type d) sorted_letters
    /\ (NoDup (types.letters mcq) -> d !! correct_letter = Some (types.correct mcq))
    /\ (forall w annotation id whole_page whole_doc items question answers cl,
          getattr_mcq (types.mcq annotation) question_type = ok (PPItem mcq) ->
          base.build_default_context w annotation id question_type
            whole_page whole_doc = ok (items, question, answers, cl) ->
          answers = answer_options /\ cl = correct_letter).
Proof.
  intros Hlen d.
  destruct (types.letters mcq) as [|l0 rest] eqn:El; [discriminate|].
  exists (map (render question_type d) (sorted_keys d)), l0, (sorted_keys d).
  assert (Hprep : prepare_answers mcq question_type
                  = ok (map (render question_type d) (sorted_keys d), l0)).
  { unfold prepare_answers. rewrite El. fold d. unfold render.
    destruct (Py.contains "binary" question_type); reflexivity. }
  split; [exact Hprep|]. split; [reflexivity|].
  destruct (sorted_keys_sorted d) as [Hs Hn].
  split; [exact Hs|]. split; [exact Hn|]. split; [|split; [reflexivity|split]].
  - intros l. rewrite sorted_keys_elem_of. unfold d.
    rewrite dict_of_zip_is_Some, fst_zip; [reflexivity|].
    simpl in *. lia.
  - intros Hnd. unfold d. apply dict_of_zip_first.
    apply NoDup_cons in Hnd as [Hnot _]. exact Hnot.
  - intros w annotation id wp wd items question answers cl Hattr Hctx.
    unfold base.build_default_context in Hctx.
    rewrite Hattr in Hctx. simpl in Hctx. rewrite Hprep in Hctx. simpl in Hctx.
    destruct (get_list_of_context w annotation id wp wd); simpl in Hctx;
      [discriminate|].
    inversion Hctx. split; reflexivity.
Qed.

Lemma prepare_answers_sorted_witness :
  length ["C"; "A"; "B"] = S (length ["wrong 1"; "wrong 2"])
  /\ prepare_answers
       (types.mkMCQItem "Which?" "right" ["wrong 1"; "wrong 2"] ["C"; "A"; "B"])
       "default"
     = ok (["wrong 1"; "wrong 2"; "right"], "C")
  /\ exists answer_options correct_letter,
       prepare_answers
         (types.mkMCQItem "Which?" "right" ["wrong 1"; "wrong 2"] ["C"; "A"; "B"])
         "binary_consistent"
       = ok (answer_options, correct_letter)
       /\ head ["C"; "A"; "B"] = Some correct_letter.
Proof.
  split; [reflexivity|]. split; [vm_compute; reflexivity|].
  destruct (prepare_answers_sorted
              (types.mkMCQItem "Which?" "right" ["wrong 1"; "wrong 2"]
                 ["C"; "A"; "B"])
              "binary_consistent" eq_refl)
    as (answer_options & correct_letter & sorted_letters & Hp & Hh & _).
  exists answer_options, correct_letter. split; [exact Hp | exact Hh].
Defined.

(** The correct letter is the first declared letter for every item, also
    where another letter comes first in the display order; with a letter
    declared twice it is the letter of a wrong answer. *)
Lemma prepare_answers_sorted_counterexample :
  ~ correct_letter_not_always_first
  /\ prepare_answers (types.mkMCQItem "Which?" "right" ["wrong"] ["B"; "A"])
                     "default"
     = ok (["wrong"; "right"], "B")
  /\ prepare_answers (types.mkMCQItem "Which?" "right" ["wrong"] ["A"; "A"])
                     "default"
     = ok (["wrong"], "A").
Proof.
  split; [|split; vm_compute; reflexivity].
  intros (mcq & qt & opts & cl & Hp & Hne). apply Hne.
  unfold prepare_answers in Hp.
  destruct (types.letters mcq) as [|l0 rest]; [discriminate|].
  inversion Hp. reflexivity.
Qed.

End AnswerFacts.

(** ** Part-pair questions in the three backends *)

Section PartPairFacts.

(** A small world and a small annotation file used to run the backends. *)
Definition sample_world : World :=
  {| IMAGE_DIR := None; SUPPL_IMAGE_DIR := None; PDF_DIR := None;
     RESULTS_DIR := None; cwd := "/work";
     after_question_prompt := "Answer with the letter only.";
     system_prompt := "You answer multiple-choice questions.";
     convert_image_to_base64 := fun _ => None;
     render_page := fun _ _ => ok None;
     convert_whole_doc_to_base64_list := fun _ => [] |}.

Definition sample_item : MCQItem :=
  types.mkMCQItem "Which claim is inconsistent?" "right" ["wrong"] ["B"; "A"].

Definition sample_part_pair : MCQItem :=
  types.mkMCQItem "stem text" "p1_1_0" ["p1_2_0"] ["B"; "A"].

Definition sample_entry (pp : part_pair_t) : AnnotationEntry :=
  {| types.inconsistency_parts := [];
     types.review_text := ""; types.category := ""; types.description := "";
     types.mcq := types.mkMCQ sample_item sample_item sample_item sample_item
                    sample_item pp |}.

Definition sample_gemini : gemini_batch.provider :=
  gemini_batch.mkProvider "gemini-2.0-flash" [] [] [] None None (1900 # 1).

Definition sample_openai : openai_batch.provider :=
  openai_batch.mkProvider "gpt-5" "high" [] [] [] None None (190 # 1).

(** C6. In the synchronous backend a run without context on part-pair
    questions raises at the first annotation and writes nothing.  The two
    batch backends have no such check: on an annotation file with one
    part-pair entry they return normally with one request prepared, keyed
    as a part-pair question without context. *)
Theorem without_context_part_pair :
  (forall w llm data self whole_page whole_doc,
     base.iter_annotations data "part_pair" whole_page whole_doc <> [] ->
     cluster.run_mcq_inference w llm data self "part_pair"
       whole_page whole_doc true
     = ([], raise cluster.unsupported_mode))
  /\ gemini_batch.prepare_requests sample_world
       [("p1", [sample_entry (PPItem sample_part_pair)])]
       sample_gemini "part_pair" false false true
     = ok (gemini_batch.mkProvider "gemini-2.0-flash" []
             [gemini_batch.mkRequest "p1_0_part-pair_B_False_False_True"
                [gemini_batch.PText "stem text";
                 gemini_batch.PText "p1_2_0";
                 gemini_batch.PText "p1_1_0";
                 gemini_batch.PText "Answer with the letter only."]
                "You answer multiple-choice questions."]
             [] None None (1900 # 1))
  /\ openai_batch.prepare_requests sample_world
       [("p1", [sample_entry (PPItem sample_part_pair)])]
       sample_openai "part_pair" false false true
     = ok (openai_batch.mkProvider "gpt-5" "high" []
             [openai_batch.mkRequest "p1_0_part-pair_B_False_False_True"
                "gpt-5" "You answer multiple-choice questions."
                [openai_batch.InputText "stem text";
                 openai_batch.InputText "p1_2_0";
                 openai_batch.InputText "p1_1_0";
                 openai_batch.InputText "Answer with the letter only."]
                "high"]
             [] None None (190 # 1)).
Proof.
  split; [|split; vm_compute; reflexivity].
  intros w llm data self wp wd Hne. unfold cluster.run_mcq_inference.
  destruct (base.iter_annotations data "part_pair" wp wd) as [|[[k i] a] rest];
    [contradiction|].
  reflexivity.
Qed.

Lemma without_context_part_pair_witness :
  base.iter_annotations [("p1", [sample_entry (PPItem sample_part_pair)])]
    "part_pair" false false <> []
  /\ cluster.run_mcq_inference sample_world (fun _ _ _ _ => ok "A")
       [("p1", [sample_entry (PPItem sample_part_pair)])]
       (cluster.mkProvider "google/gemma-3-4b-it" false [])
       "part_pair" false false true
     = ([], raise cluster.unsupported_mode).
Proof.
  split; [discriminate|].
  apply (proj1 without_context_part_pair). discriminate.
Defined.








End PartPairFacts.

(** ** Fetching results only from succeeded jobs *)

Section FetchFacts.

Definition gemini_succeeded (r : gemini_batch.remote) (j : gemini_batch.job)
  : Prop :=
  gemini_batch.state_name (gemini_batch.batches_get r (gemini_batch.batch_name j))
  = "JOB_STATE_SUCCEEDED".

(** The job has succeeded and names its output file: the name is there
    and is not the empty string. *)
Definition gemini_ready (r : gemini_batch.remote) (j : gemini_batch.job)
  : Prop :=
  gemini_succeeded r j
  /\ exists f,
       gemini_batch.dest_file_name
         (gemini_batch.batches_get r (gemini_batch.batch_name j)) = Some f
       /\ f <> "".

Lemma truthy_str_true (s : string) : s <> "" -> truthy_str s = true.
Proof.
  intros H. unfold truthy_str. apply negb_true_iff, String.eqb_neq. exact H.
Qed.

Lemma truthy_str_nonempty (s : string) : truthy_str s = true -> s <> "".
Proof.
  unfold truthy_str. intros H. apply negb_true_iff, String.eqb_neq in H. exact H.
Qed.

Definition openai_succeeded (r : openai_batch.remote) (j : openai_batch.job)
  : Prop :=
  openai_batch.status (openai_batch.batches_retrieve r (openai_batch.batch_id j))
  = "completed".

(** The job has completed and its output file can be read. *)
Definition openai_ready (r : openai_batch.remote) (j : openai_batch.job)
  : Prop :=
  openai_succeeded r j
  /\ exists lines,
       openai_batch.files_content r
         (openai_batch.output_file_id
            (openai_batch.batches_retrieve r (openai_batch.batch_id j)))
       = ok lines.

Lemma gemini_fetch_fails r jobs :
  (exists j, j ∈ jobs /\ ~ gemini_succeeded r j) ->
  forall acc, exists e, gemini_batch.fetch_all r jobs acc = raise e.
Proof.
  induction jobs as [|j rest IH]; intros (bad & Hin & Hbad) acc.
  - apply elem_of_nil in Hin. contradiction.
  - simpl.
    destruct (String.eqb_spec
                (gemini_batch.state_name
                   (gemini_batch.batches_get r (gemini_batch.batch_name j)))
                "JOB_STATE_SUCCEEDED") as [E|E]; simpl.
    + destruct (gemini_batch.dest_file_name _) as [f|]; [|eexists; reflexivity].
      destruct (truthy_str f); [|eexists; reflexivity].
      apply IH. exists bad. split; [|exact Hbad].
      apply elem_of_cons in Hin as [-> | Hin]; [contradiction | exact Hin].
    + eexists. reflexivity.
Qed.

Lemma gemini_fetch_first r pre j post :
  Forall (gemini_ready r) pre ->
  ~ gemini_succeeded r j ->
  forall acc,
    gemini_batch.fetch_all r (pre ++ j :: post) acc
    = raise (gemini_batch.not_ready (gemini_batch.batch_name j)
               (gemini_batch.state_name
                  (gemini_batch.batches_get r (gemini_batch.batch_name j)))).
Proof.
  intros Hpre Hj.
  induction Hpre as [|x pre [Hx (f & Hf & Hne)] _ IH]; intros acc; simpl.
  - apply String.eqb_neq in Hj. rewrite Hj. reflexivity.
  - unfold gemini_succeeded in Hx.
    rewrite Hx, Hf, (truthy_str_true f Hne). simpl. apply IH.
Qed.

Lemma openai_fetch_fails r jobs :
  (exists j, j ∈ jobs /\ ~ openai_succeeded r j) ->
  forall acc, exists e, openai_batch.fetch_all r jobs acc = raise e.
Proof.
  induction jobs as [|j rest IH]; intros (bad & Hin & Hbad) acc.
  - apply elem_of_nil in Hin. contradiction.
  - simpl.
    destruct (String.eqb_spec
                (openai_batch.status
                   (openai_batch.batches_retrieve r (openai_batch.batch_id j)))
                "completed") as [E|E]; simpl.
    + destruct (openai_batch.files_content r _); simpl; [eexists; reflexivity|].
      apply IH. exists bad. split; [|exact Hbad].
      apply elem_of_cons in Hin as [-> | Hin]; [contradiction | exact Hin].
    + eexists. reflexivity.
Qed.

Lemma openai_fetch_first r pre j post :
  Forall (openai_ready r) pre ->
  ~ openai_succeeded r j ->
  forall acc,
    openai_batch.fetch_all r (pre ++ j :: post) acc
    = raise (openai_batch.not_ready (openai_batch.batch_id j)
               (openai_batch.status
                  (openai_batch.batches_retrieve r (openai_batch.batch_id j)))).
Proof.
  intros Hpre Hj.
  induction Hpre as [|x pre [Hx [lines Hl]] _ IH]; intros acc; simpl.
  - apply String.eqb_neq in Hj. rewrite Hj. reflexivity.
  - unfold openai_succeeded in Hx. rewrite Hx, Hl. simpl. apply IH.
Qed.

(** The claim as the specification words it, for the Gemini backend: a job
    that has not succeeded always makes [get_batch_results] fail with the
    not-ready error. *)
Definition always_not_ready : Prop :=
  forall w r self jobs,
    gemini_batch.batch_jobs_to_process self = ok jobs ->
    (exists j, j ∈ jobs /\ ~ gemini_succeeded r j) ->
    exists name status,
      gemini_batch.get_batch_results w r self
      = ([], raise (gemini_batch.not_ready name status)).

(** C7. In both batch backends, if some job to process has not succeeded,
    [get_batch_results] raises and writes no results file; the exception is
    the not-ready error of the first such job whenever every job before it
    has succeeded with an output file (Gemini: a destination file with a
    non-empty name; OpenAI: an output file that can be read). *)
Theorem fetch_requires_succeeded :
  (forall w r self jobs,
     gemini_batch.batch_jobs_to_process self = ok jobs ->
     (exists j, j ∈ jobs /\ ~ gemini_succeeded r j) ->
     exists e,
       gemini_batch.get_batch_results w r self = ([], raise e)
       /\ forall pre j post,
            jobs = pre ++ j :: post ->
            Forall (gemini_ready r) pre ->
            ~ gemini_succeeded r j ->
            e = gemini_batch.not_ready (gemini_batch.batch_name j)
                  (gemini_batch.state_name
                     (gemini_batch.batches_get r (gemini_batch.batch_name j))))
  /\ (forall w r self jobs,
        openai_batch.batch_jobs_to_process self = ok jobs ->
        (exists j, j ∈ jobs /\ ~ openai_succeeded r j) ->
        exists e,
          openai_batch.get_batch_results w r self = ([], raise e)
          /\ forall pre j post,
               jobs = pre ++ j :: post ->
               Forall (openai_ready r) pre ->
               ~ openai_succeeded r j ->
               e = openai_batch.not_ready (openai_batch.batch_id j)
                     (openai_batch.status
                        (openai_batch.batches_retrieve r
                           (openai_batch.batch_id j)))).
Proof.
  split; intros w r self jobs Hjobs Hbad.
  - destruct (gemini_fetch_fails r jobs Hbad []) as [e He].
    exists e. unfold gemini_batch.get_batch_results.
    rewrite Hjobs. simpl. rewrite He. simpl. split; [reflexivity|].
    intros pre j post -> Hpre Hj.
    rewrite (gemini_fetch_first r pre j post Hpre Hj) in He.
    inversion He. reflexivity.
  - destruct (openai_fetch_fails r jobs Hbad []) as [e He].
    exists e. unfold openai_batch.get_batch_results.
    rewrite Hjobs. simpl. rewrite He. simpl. split; [reflexivity|].
    intros pre j post -> Hpre Hj.
    rewrite (openai_fetch_first r pre j post Hpre Hj) in He.
    inversion He. reflexivity.
Qed.

(** A remote service with two jobs: [j1] has succeeded, with or without a
    destination file, and [j2] is still running. *)
Definition two_jobs_remote (dest : option string) : gemini_batch.remote :=
  {| gemini_batch.json_dumps_len := fun _ => 1%nat;
     gemini_batch.create_batch :=
       fun _ _ => raise (ValueError "not used");
     gemini_batch.batches_get :=
       fun name =>
         if String.eqb name "j1"
         then gemini_batch.mkBatchResponse "JOB_STATE_SUCCEEDED" dest
         else gemini_batch.mkBatchResponse "JOB_STATE_RUNNING" None;
     gemini_batch.files_download := fun _ => [] |}.

Definition two_jobs_provider : gemini_batch.provider :=
  gemini_batch.mkProvider "gemini-2.0-flash" [] []
    [gemini_batch.mkJob "f1" "j1"; gemini_batch.mkJob "f2" "j2"]
    None None (1900 # 1).

Lemma fetch_requires_succeeded_witness :
  gemini_batch.batch_jobs_to_process two_jobs_provider
  = ok [gemini_batch.mkJob "f1" "j1"; gemini_batch.mkJob "f2" "j2"]
  /\ ~ gemini_succeeded (two_jobs_remote (Some "out1"))
         (gemini_batch.mkJob "f2" "j2")
  /\ exists e,
       gemini_batch.get_batch_results sample_world
         (two_jobs_remote (Some "out1")) two_jobs_provider
       = ([], raise e).
Proof.
  assert (Hbad : ~ gemini_succeeded (two_jobs_remote (Some "out1"))
                     (gemini_batch.mkJob "f2" "j2")) by discriminate.
  split; [reflexivity|]. split; [exact Hbad|].
  destruct (proj1 fetch_requires_succeeded sample_world
              (two_jobs_remote (Some "out1")) two_jobs_provider
              [gemini_batch.mkJob "f1" "j1"; gemini_batch.mkJob "f2" "j2"]
              eq_refl) as (e & He & _).
  - exists (gemini_batch.mkJob "f2" "j2"). split; [|exact Hbad].
    right. left.
  - exists e. exact He.
Defined.

(** The first job has succeeded but has no destination file, or one whose
    name is empty: the failure is the missing-output error of the first
    job, not a not-ready error. *)
Lemma fetch_requires_succeeded_counterexample :
  ~ always_not_ready
  /\ gemini_batch.get_batch_results sample_world (two_jobs_remote None)
       two_jobs_provider
     = ([], raise (gemini_batch.no_output_file "j1"))
  /\ gemini_batch.get_batch_results sample_world (two_jobs_remote (Some ""))
       two_jobs_provider
     = ([], raise (gemini_batch.no_output_file "j1")).
Proof.
  assert (Hrun : gemini_batch.get_batch_results sample_world
                   (two_jobs_remote None) two_jobs_provider
                 = ([], raise (gemini_batch.no_output_file "j1")))
    by reflexivity.
  split; [|split; [exact Hrun | reflexivity]].
  intros H.
  destruct (H sample_world (two_jobs_remote None) two_jobs_provider
              [gemini_batch.mkJob "f1" "j1"; gemini_batch.mkJob "f2" "j2"]
              eq_refl) as (name & status & Hnr).
  - exists (gemini_batch.mkJob "f2" "j2"). split; [right; left | discriminate].
  - rewrite Hrun in Hnr. cbv in Hnr. discriminate Hnr.
Qed.

End FetchFacts.

(** ** The results file *)

Section ResultsFileFacts.

Lemma replace_keeps_free c a b s :
  c <> b -> free_of c s -> free_of c (Py.replace a b s).
Proof.
  intros Hcb. induction s as [|x s IH]; intros H; simpl; [reflexivity|].
  apply free_of_cons in H as [Hx Hs].
  apply free_of_cons. split; [|apply IH; exact Hs].
  destruct (Ascii.eqb x a); congruence.
Qed.

Lemma startswith_app_free c s t :
  free_of c s -> Py.startswith c t = false -> Py.startswith c (s +:+ t) = false.
Proof.
  destruct s as [|x s]; intros Hs Ht; [exact Ht|].
  apply free_of_cons in Hs as [Hx _]. simpl.
  apply Ascii.eqb_neq. exact Hx.
Qed.

(** The file name of the results file, without its directory. *)
Definition results_name (model_id question_type : string)
    (whole_page whole_doc without_context : bool) : string :=
  Py.replace "_" "-" (Py.replace "/" "-" model_id)
  +:+ "_" +:+ Py.replace "_" "-" question_type
  +:+ (if whole_page then "_fullpage" else "")
  +:+ (if whole_doc then "_wholedoc" else "")
  +:+ (if without_context then "_without_context" else "")
  +:+ ".json".

(** The path as the specification words it. *)
Definition spec_results_file (model_id question_type : string)
    (whole_page whole_doc without_context : bool) : string :=
  "results/"
  +:+ Py.replace "_" "-" (Py.replace "/" "-" model_id)
  +:+ "_" +:+ question_type
  +:+ (if whole_page then "-fullpage" else "")
  +:+ (if whole_doc then "-wholedoc" else "")
  +:+ (if without_context then "-without-context" else "")
  +:+ ".json".

Lemma free_of_app_inv c s t :
  free_of c (s +:+ t) -> free_of c s /\ free_of c t.
Proof.
  induction s as [|a s IH]; intros H.
  - split; [reflexivity | exact H].
  - change (free_of c (String a (s +:+ t))) in H.
    apply free_of_cons in H as [Ha Hst]. destruct (IH Hst) as [Hs Ht].
    split; [apply free_of_cons; split; assumption | exact Ht].
Qed.

Lemma replace_free_inv c a b s :
  c <> a -> free_of c (Py.replace a b s) -> free_of c s.
Proof.
  intros Hca. induction s as [|x s IH]; intros H; [reflexivity|].
  simpl in H. apply free_of_cons in H as [Hx Hs].
  apply free_of_cons. split; [|apply IH; exact Hs].
  destruct (Ascii.eqb_spec x a) as [->|_]; [congruence | exact Hx].
Qed.

Lemma head_upto_slash_empty p :
  Py.head_upto_slash p = "" <-> free_of "/" p.
Proof.
  induction p as [|c p IH]; simpl; [split; reflexivity|].
  rewrite free_of_cons, <- IH.
  destruct (Py.head_upto_slash p) as [|h hs].
  - destruct (Ascii.eqb_spec c "/") as [->|Hc]; split.
    + discriminate.
    + intros [Hc _]. congruence.
    + intros _. split; [exact Hc | reflexivity].
    + reflexivity.
  - split; [discriminate | intros [_ H]; discriminate H].
Qed.

(** A path has an empty directory part exactly when it has no slash. *)
Lemma dirname_empty p : Py.dirname p = "" <-> free_of "/" p.
Proof.
  rewrite <- head_upto_slash_empty. unfold Py.dirname.
  destruct (Py.rstrip "/" (Py.head_upto_slash p)) as [|h hs] eqn:E.
  - reflexivity.
  - split; [discriminate|]. intros H. rewrite H in E. discriminate E.
Qed.

Lemma endswith_not_free s : Py.endswith "/" s = true -> ~ free_of "/" s.
Proof.
  induction s as [|c s IH]; [discriminate|]. intros H Hfree.
  apply free_of_cons in Hfree as [Hc Hs].
  destruct s as [|d s].
  - simpl in H. apply Ascii.eqb_eq in H. congruence.
  - apply IH; [exact H | exact Hs].
Qed.

Lemma results_name_start model_id question_type wp wd wc :
  Py.startswith "/" (results_name model_id question_type wp wd wc) = false.
Proof.
  unfold results_name. apply startswith_app_free; [|reflexivity].
  apply replace_keeps_free; [discriminate|]. apply replace_free. discriminate.
Qed.

(** The file name has a slash exactly when the question type has one. *)
Lemma results_name_free model_id question_type wp wd wc :
  free_of "/" (results_name model_id question_type wp wd wc)
  <-> free_of "/" question_type.
Proof.
  unfold results_name. split.
  - intros H. apply free_of_app_inv in H as [_ H].
    apply free_of_app_inv in H as [_ H].
    apply free_of_app_inv in H as [H _].
    apply (replace_free_inv "/" "_" "-"); [discriminate | exact H].
  - intros H. apply free_of_app.
    { apply replace_keeps_free; [discriminate|]. apply replace_free. discriminate. }
    apply free_of_app; [reflexivity|].
    apply free_of_app; [apply replace_keeps_free; [discriminate | exact H]|].
    destruct wp, wd, wc; reflexivity.
Qed.

(** The results path has a directory part unless [RESULTS_DIR] is empty
    and the question type has no slash. *)
Lemma results_path_dirname dir model_id question_type wp wd wc :
  Py.dirname (Py.path_join dir (results_name model_id question_type wp wd wc))
  = ""
  <-> dir = "" /\ free_of "/" question_type.
Proof.
  rewrite dirname_empty. unfold Py.path_join.
  rewrite results_name_start.
  destruct (String.eqb_spec dir "") as [->|Hdir]; simpl.
  - change ("" +:+ results_name model_id question_type wp wd wc)
      with (results_name model_id question_type wp wd wc).
    rewrite results_name_free. tauto.
  - split; [|intros [H _]; contradiction]. intros H. exfalso.
    destruct (Py.endswith "/" dir) eqn:E.
    + apply free_of_app_inv in H as [H _].
      exact (endswith_not_free dir E H).
    + apply free_of_app_inv in H as [_ H].
      apply free_of_app_inv in H as [H _]. discriminate H.
Qed.

(** C8. [write_results] names one file: the model id with every slash
    and underscore replaced by a hyphen, an underscore, the question type
    with every underscore replaced by a hyphen, the suffix [_fullpage],
    [_wholedoc], [_without_context] of each enabled flag (nothing for a
    disabled one) and [.json], in the directory named by [RESULTS_DIR],
    which is [results] when the variable is not set.  The responses are
    dumped into that file whenever the path has a directory part, that is
    unless [RESULTS_DIR] is the empty string and the question type has no
    slash; in that case creating the directory raises and nothing is
    written. *)
Theorem results_file_path {response} (w : World) (responses : list response)
    model_id question_type whole_page whole_doc without_context :
  let name := results_name model_id question_type
                whole_page whole_doc without_context in
  let path := Py.path_join (getenv (RESULTS_DIR w) "results") name in
  base.results_file w model_id question_type
    whole_page whole_doc without_context = path
  /\ (getenv (RESULTS_DIR w) "results" <> "" \/ ~ free_of "/" question_type ->
      base.write_results w responses model_id question_type
        whole_page whole_doc without_context
      = ok ([base.EvWriteResults path responses], path))
  /\ (RESULTS_DIR w = Some "" -> free_of "/" question_type ->
      path = name
      /\ base.write_results w responses model_id question_type
           whole_page whole_doc without_context
         = raise (FileNotFoundError ""))
  /\ free_of "/" (Py.replace "_" "-" (Py.replace "/" "-" model_id))
  /\ free_of "_" (Py.replace "_" "-" (Py.replace "/" "-" model_id))
  /\ free_of "_" (Py.replace "_" "-" question_type)
  /\ (RESULTS_DIR w = None ->
      path = "results/" +:+ name
      /\ base.write_results w responses model_id question_type
           whole_page whole_doc without_context
         = ok ([base.EvWriteResults ("results/" +:+ name) responses],
               "results/" +:+ name)).
Proof.
  intros name path.
  assert (Hfile : base.results_file w model_id question_type
                    whole_page whole_doc without_context = path)
    by reflexivity.
  assert (Hdir : Py.dirname path = ""
                 <-> getenv (RESULTS_DIR w) "results" = ""
                     /\ free_of "/" question_type)
    by apply results_path_dirname.
  assert (Hok : Py.dirname path <> "" ->
                base.write_results w responses model_id question_type
                  whole_page whole_doc without_context
                = ok ([base.EvWriteResults path responses], path)).
  { intros Hne. unfold base.write_results, base.makedirs. rewrite Hfile.
    apply String.eqb_neq in Hne. rewrite Hne. reflexivity. }
  assert (Hslash : free_of "/" (Py.replace "_" "-" (Py.replace "/" "-" model_id))).
  { apply replace_keeps_free; [discriminate|]. apply replace_free. discriminate. }
  split; [exact Hfile|]. split; [|split].
  - intros H. apply Hok. rewrite Hdir. tauto.
  - intros Hset Hfree.
    assert (Hpath : path = name).
    { unfold path. rewrite Hset. simpl. unfold Py.path_join.
      unfold name. rewrite results_name_start. reflexivity. }
    split; [exact Hpath|].
    assert (Hempty : Py.dirname path = "").
    { apply Hdir. rewrite Hset. split; [reflexivity | exact Hfree]. }
    unfold base.write_results, base.makedirs. rewrite Hfile, Hempty.
    reflexivity.
  - split; [exact Hslash|].
    split; [apply replace_free; discriminate|].
    split; [apply replace_free; discriminate|].
    intros Hnone.
    assert (Hpath : path = "results/" +:+ name).
    { unfold path. rewrite Hnone. simpl. unfold Py.path_join.
      unfold name. rewrite results_name_start. reflexivity. }
    split; [exact Hpath|]. rewrite <- Hpath. apply Hok.
    rewrite Hdir, Hnone. simpl. intros [H _]. discriminate H.
Qed.

Lemma results_file_path_witness :
  RESULTS_DIR sample_world = None
  /\ base.results_file sample_world "org/model_v1" "part_pair" true false true
     = "results/org-model-v1_part-pair_fullpage_without_context.json"
  /\ base.write_results sample_world [7%nat] "org/model_v1" "part_pair"
       true false true
     = ok ([base.EvWriteResults
              "results/org-model-v1_part-pair_fullpage_without_context.json"
              [7%nat]],
           "results/org-model-v1_part-pair_fullpage_without_context.json").
Proof.
  pose proof (results_file_path sample_world [7%nat] "org/model_v1"
                "part_pair" true false true) as H.
  cbv zeta in H.
  destruct H as (Hfile & _ & _ & _ & _ & _ & Hnone).
  destruct (Hnone eq_refl) as [Hpath Hwrite].
  split; [reflexivity|]. split; [exact (eq_trans Hfile Hpath) | exact Hwrite].
Defined.

(** [sample_world] with [RESULTS_DIR] set to the given value. *)
Definition sample_world_in (dir : string) : World :=
  {| IMAGE_DIR := None; SUPPL_IMAGE_DIR := None; PDF_DIR := None;
     RESULTS_DIR := Some dir; cwd := "/work";
     after_question_prompt := after_question_prompt sample_world;
     system_prompt := system_prompt sample_world;
     convert_image_to_base64 := convert_image_to_base64 sample_world;
     render_page := render_page sample_world;
     convert_whole_doc_to_base64_list :=
       convert_whole_doc_to_base64_list sample_world |}.

Definition sample_world_out : World := sample_world_in "out".

(** An enabled flag adds a suffix that begins with an underscore, the
    underscores of the question type become hyphens, and the directory is
    the one [RESULTS_DIR] names; with [RESULTS_DIR] set to the empty string
    the path has no directory part and nothing is written. *)
Lemma results_file_path_counterexample :
  base.results_file sample_world "org/model_v1" "default" true false false
  = "results/org-model-v1_default_fullpage.json"
  /\ spec_results_file "org/model_v1" "default" true false false
     = "results/org-model-v1_default-fullpage.json"
  /\ base.results_file sample_world "org/model_v1" "default" true false false
     <> spec_results_file "org/model_v1" "default" true false false
  /\ base.results_file sample_world "m" "part_pair" false false false
     <> spec_results_file "m" "part_pair" false false false
  /\ base.results_file sample_world_out "m" "edit" false false false
     = "out/m_edit.json"
  /\ base.results_file (sample_world_in "") "m" "edit" false false false
     = "m_edit.json"
  /\ base.write_results (sample_world_in "") [7%nat] "m" "edit"
       false false false
     = raise (FileNotFoundError "").
Proof. repeat split; discriminate. Qed.

End ResultsFileFacts.

(** ** The files of the binary merge *)

Section MergeFileFacts.

Import helpers.

Definition same_directory_error : exn :=
  ValueError "Binary files must be in the same directory".

(** C10. If the directories of the absolute paths of the two input files
    differ, [merge_binary_results] raises before opening either file.
    Whenever it returns, both files were read, the merge of their contents
    succeeded, the merged records were dumped as the last file operation
    into [merged_results.json] joined to the directory part of the first
    input path, and that path is the value returned. *)
Theorem merge_binary_results_paths w (fs : files) binary_file_1 binary_file_2 :
  (Py.dirname (Py.abspath (cwd w) binary_file_1)
   <> Py.dirname (Py.abspath (cwd w) binary_file_2) ->
   merge_binary_results w fs binary_file_1 binary_file_2
   = ([], raise same_directory_error))
  /\ (forall events output_path,
        merge_binary_results w fs binary_file_1 binary_file_2
        = (events, ok output_path) ->
        output_path
        = Py.path_join (Py.dirname binary_file_1) "merged_results.json"
        /\ exists results1 results2 merged_results,
             fs !! binary_file_1 = Some results1
             /\ fs !! binary_file_2 = Some results2
             /\ merge results1 results2 = ok merged_results
             /\ events
                = [EvOpenRead binary_file_1; EvOpenRead binary_file_2;
                   EvLoad binary_file_1; EvLoad binary_file_2;
                   EvDump output_path merged_results]).
Proof.
  unfold merge_binary_results. split.
  - intros Hdiff. apply String.eqb_neq in Hdiff. rewrite Hdiff. reflexivity.
  - intros events output_path.
    destruct (negb _); [discriminate|].
    destruct (fs !! binary_file_1) as [results1|]; [|discriminate].
    destruct (fs !! binary_file_2) as [results2|]; [|discriminate].
    destruct (merge results1 results2) as [e|merged] eqn:Em; [discriminate|].
    intros H. inversion H. split; [reflexivity|].
    exists results1, results2, merged.
    repeat split; try reflexivity. exact Em.
Qed.

Definition sample_files : files :=
  {[ "runs/a/consistent.json" := [mkBinaryResult "p1" (IdxInt 0) (Some "A") "A"];
     "runs/a/inconsistent.json" := [mkBinaryResult "p1" (IdxInt 0) (Some "B") "C"];
     "runs/b/inconsistent.json" := [mkBinaryResult "p1" (IdxInt 0) (Some "B") "C"] ]}.

Lemma merge_binary_results_paths_witness :
  Py.dirname (Py.abspath "/work" "runs/a/consistent.json")
  <> Py.dirname (Py.abspath "/work" "runs/b/inconsistent.json")
  /\ merge_binary_results sample_world sample_files
       "runs/a/consistent.json" "runs/b/inconsistent.json"
     = ([], raise same_directory_error)
  /\ merge_binary_results sample_world sample_files
       "runs/a/consistent.json" "runs/a/inconsistent.json"
     = ([EvOpenRead "runs/a/consistent.json";
         EvOpenRead "runs/a/inconsistent.json";
         EvLoad "runs/a/consistent.json"; EvLoad "runs/a/inconsistent.json";
         EvDump "runs/a/merged_results.json"
           [mkMergedResult "p1" (IdxInt 0) "AB" "AC" false]],
        ok "runs/a/merged_results.json").
Proof.
  assert (Hdiff : Py.dirname (Py.abspath "/work" "runs/a/consistent.json")
                  <> Py.dirname (Py.abspath "/work" "runs/b/inconsistent.json"))
    by (vm_compute; discriminate).
  split; [exact Hdiff|]. split; [|vm_compute; reflexivity].
  exact (proj1 (merge_binary_results_paths sample_world sample_files
                  "runs/a/consistent.json" "runs/b/inconsistent.json") Hdiff).
Defined.

End MergeFileFacts.

(* ================================================================== *)
(** * Part III: further properties of the modelled code                *)
(* ================================================================== *)

(** ** More on the chunker *)

Section ChunkerGreedy.

Context {request : Type}.
Variable json_dumps_len : request -> nat.
Variable max_batch_size_mb : Q.

Local Abbreviation size := (chunker._estimate_request_size_mb json_dumps_len).
Local Abbreviation total := (chunker._estimate_total_size_mb json_dumps_len).
Local Abbreviation step := (chunker.split_step json_dumps_len max_batch_size_mb).
Local Abbreviation split :=
  (chunker._split_batch_requests json_dumps_len max_batch_size_mb).
Local Abbreviation inv := (split_inv json_dumps_len max_batch_size_mb).

Lemma size_nonneg (r : request) : (0 <= size r)%Q.
Proof.
  unfold chunker._estimate_request_size_mb.
  apply Qle_shift_div_l; [reflexivity|].
  rewrite Qmult_0_l. change 0%Q with (inject_Z 0).
  rewrite <- Zle_Qle. lia.
Qed.

Lemma fold_total_shift (l : list request) (x : Q) :
  (fold_left (fun t r => t + size r) l x == x + total l)%Q.
Proof.
  revert x. induction l as [|r l IH]; intros x; simpl.
  - unfold chunker._estimate_total_size_mb. simpl. ring.
  - unfold chunker._estimate_total_size_mb. simpl.
    rewrite (IH (x + size r)%Q), (IH (0 + size r)%Q). ring.
Qed.

Lemma total_app (a b : list request) :
  (total (a ++ b) == total a + total b)%Q.
Proof.
  unfold chunker._estimate_total_size_mb at 1. rewrite fold_left_app.
  apply fold_total_shift.
Qed.

Lemma total_nonneg (l : list request) : (0 <= total l)%Q.
Proof.
  induction l as [|r l IH] using rev_ind; [apply Qle_refl|].
  rewrite total_snoc.
  pose proof (size_nonneg r).
  apply (Qle_trans _ (0 + 0)%Q); [apply Qle_refl|].
  apply Qplus_le_compat; assumption.
Qed.

Lemma Qgtb_true (a b : Q) : chunker.Qgtb a b = true -> (b < a)%Q.
Proof.
  unfold chunker.Qgtb. intros H. apply negb_true_iff in H.
  apply Qnot_le_lt. intros Hle. apply Qle_bool_iff in Hle. congruence.
Qed.

(** A chunk was closed because the request that opens the next one did
    not fit. *)
Definition overflows (c d : list request) : Prop :=
  exists r rest, d = r :: rest /\ (max_batch_size_mb < total c + size r)%Q.

Definition adjacent (P : list request -> list request -> Prop)
    (chunks : list (list request)) : Prop :=
  forall l1 c d l2, chunks = l1 ++ c :: d :: l2 -> P c d.

Lemma adjacent_snoc P chunks c d :
  adjacent P (chunks ++ [c]) -> P c d -> adjacent P ((chunks ++ [c]) ++ [d]).
Proof.
  intros Hadj Hcd l1 x y l2 E.
  destruct l2 as [|z l2 _] using rev_ind.
  - replace (l1 ++ [x; y]) with ((l1 ++ [x]) ++ [y]) in E
      by (rewrite <- app_assoc; reflexivity).
    apply app_inj_tail in E as [E ->].
    apply app_inj_tail in E as [_ ->]. exact Hcd.
  - replace (l1 ++ x :: y :: l2 ++ [z]) with ((l1 ++ x :: y :: l2) ++ [z]) in E
      by (rewrite <- app_assoc; reflexivity).
    apply app_inj_tail in E as [E _].
    apply (Hadj l1 x y l2). exact E.
Qed.

Lemma adjacent_single P (c : list request) : adjacent P [c].
Proof.
  intros l1 x y l2 E. apply (f_equal length) in E.
  rewrite length_app in E. simpl in E. lia.
Qed.

Lemma adjacent_nil P : adjacent P [].
Proof. intros l1 x y l2 E. destruct l1; discriminate. Qed.

(** The second invariant of the loop: the chunks closed so far, followed
    by the open one, overflow pairwise. *)
Definition greedy_inv (st : chunker.split_state) : Prop :=
  match chunker.current_batch st with
  | [] => chunker.batches st = []
  | _ :: _ =>
      adjacent overflows (chunker.batches st ++ [chunker.current_batch st])
  end.

Lemma overflows_grow c d r : d <> [] -> overflows c d -> overflows c (d ++ [r]).
Proof.
  intros _ (r0 & rest & -> & H). exists r0, (rest ++ [r]). split; [reflexivity|exact H].
Qed.

Lemma adjacent_grow_last chunks (d : list request) r :
  d <> [] ->
  adjacent overflows (chunks ++ [d]) ->
  adjacent overflows (chunks ++ [d ++ [r]]).
Proof.
  intros Hd Hadj l1 x y l2 E.
  destruct l2 as [|z l2 _] using rev_ind.
  - replace (l1 ++ [x; y]) with ((l1 ++ [x]) ++ [y]) in E
      by (rewrite <- app_assoc; reflexivity).
    apply app_inj_tail in E as [E <-]. subst chunks.
    apply overflows_grow; [exact Hd|].
    apply (Hadj l1 x d []). rewrite <- app_assoc. reflexivity.
  - replace (l1 ++ x :: y :: l2 ++ [z]) with ((l1 ++ x :: y :: l2) ++ [z]) in E
      by (rewrite <- app_assoc; reflexivity).
    apply app_inj_tail in E as [E _]. subst chunks.
    apply (Hadj l1 x y (l2 ++ [d])).
    rewrite <- app_assoc. reflexivity.
Qed.

Lemma greedy_step consumed st r :
  inv consumed st -> greedy_inv st -> greedy_inv (step st r).
Proof.
  intros [_ _ Hsize _] Hg. unfold greedy_inv in *.
  unfold chunker.split_step.
  destruct (chunker.current_batch st) as [|x cur] eqn:Ecur; simpl.
  - rewrite Hg. apply adjacent_single.
  - destruct (chunker.Qgtb _ _) eqn:Egt; simpl.
    + apply adjacent_snoc; [exact Hg|].
      exists r, []. split; [reflexivity|].
      rewrite <- Hsize. apply Qgtb_true. exact Egt.
    + apply (adjacent_grow_last _ (x :: cur) r); [discriminate | exact Hg].
Qed.

Lemma greedy_loop rs : forall consumed st,
  inv consumed st -> greedy_inv st -> greedy_inv (fold_left step rs st).
Proof.
  induction rs as [|r rs IH]; intros consumed st Hinv Hg; simpl; [exact Hg|].
  apply (IH (consumed ++ [r])).
  - apply split_step_inv. exact Hinv.
  - apply (greedy_step consumed); assumption.
Qed.

(** X1. Between two consecutive chunks of the result the split was
    forced: the size of the earlier chunk plus the size of the first
    request of the later one exceeds the limit. *)
Theorem split_is_greedy (requests : list request) l1 c d l2 :
  split requests = l1 ++ c :: d :: l2 ->
  exists r rest,
    d = r :: rest /\ (max_batch_size_mb < total c + size r)%Q.
Proof.
  unfold chunker._split_batch_requests.
  pose proof (greedy_loop requests [] _
                (split_init_inv json_dumps_len max_batch_size_mb) eq_refl) as Hg.
  unfold greedy_inv in Hg.
  destruct (chunker.current_batch (fold_left step requests _)) as [|x cur];
    simpl; intros E.
  - rewrite Hg in E. destruct l1; discriminate.
  - apply (Hg l1 c d l2). exact E.
Qed.

Lemma Qgtb_le (a b : Q) : (a <= b)%Q -> chunker.Qgtb a b = false.
Proof.
  intros H. unfold chunker.Qgtb. apply Qle_bool_iff in H. rewrite H. reflexivity.
Qed.

Lemma fits_loop rs : forall st,
  chunker.batches st = [] ->
  (chunker.current_size_mb st == total (chunker.current_batch st))%Q ->
  ~ (max_batch_size_mb < total (chunker.current_batch st ++ rs))%Q ->
  chunker.batches (fold_left step rs st) = []
  /\ chunker.current_batch (fold_left step rs st)
     = chunker.current_batch st ++ rs.
Proof.
  induction rs as [|r rs IH]; intros st Hb Hs Hfit; simpl.
  - rewrite app_nil_r. split; [exact Hb | reflexivity].
  - assert (Hstep : step st r
                    = {| chunker.batches := chunker.batches st;
                         chunker.current_batch := chunker.current_batch st ++ [r];
                         chunker.current_size_mb :=
                           (chunker.current_size_mb st + size r)%Q |}).
    { unfold chunker.split_step.
      destruct (chunker.truthy_list (chunker.current_batch st)); [|reflexivity].
      rewrite Qgtb_le; [reflexivity|].
      rewrite Hs, <- total_snoc.
      apply Qnot_lt_le in Hfit.
      apply (Qle_trans _ (total (chunker.current_batch st ++ r :: rs)));
        [|exact Hfit].
      replace (chunker.current_batch st ++ r :: rs)
        with ((chunker.current_batch st ++ [r]) ++ rs)
        by (rewrite <- app_assoc; reflexivity).
      rewrite (total_app (chunker.current_batch st ++ [r]) rs).
      rewrite <- (Qplus_0_r (total (chunker.current_batch st ++ [r]))) at 1.
      apply Qplus_le_compat; [apply Qle_refl | apply total_nonneg]. }
    rewrite Hstep.
    destruct (IH {| chunker.batches := chunker.batches st;
                    chunker.current_batch := chunker.current_batch st ++ [r];
                    chunker.current_size_mb :=
                      (chunker.current_size_mb st + size r)%Q |})
      as [Hb' Hc'];
      cbn [chunker.batches chunker.current_batch chunker.current_size_mb] in *.
    + exact Hb.
    + rewrite total_snoc, Hs. reflexivity.
    + rewrite <- app_assoc. exact Hfit.
    + split; [exact Hb'|]. rewrite Hc', <- app_assoc. reflexivity.
Qed.

(** X2. Requests that together do not exceed the limit are not split:
    a non-empty list comes back as one chunk, in its order, and the empty
    list gives no chunk at all. *)
Theorem split_within_limit (requests : list request) :
  ~ (max_batch_size_mb < total requests)%Q ->
  split requests = match requests with [] => [] | _ => [requests] end.
Proof.
  intros Hfit. unfold chunker._split_batch_requests.
  destruct (fits_loop requests
              {| chunker.batches := []; chunker.current_batch := [];
                 chunker.current_size_mb := 0%Q |}) as [Hb Hc]; simpl.
  - reflexivity.
  - reflexivity.
  - exact Hfit.
  - simpl in Hc. rewrite Hb, Hc. destruct requests; reflexivity.
Qed.

End ChunkerGreedy.

Lemma split_within_limit_witness :
  ~ (3 # 1048576 < chunker._estimate_total_size_mb (fun n : nat => n)
                     [1%nat; 2%nat])%Q
  /\ chunker._split_batch_requests (fun n : nat => n) (3 # 1048576)
       [1%nat; 2%nat]
     = [[1%nat; 2%nat]].
Proof.
  assert (H : ~ (3 # 1048576 < chunker._estimate_total_size_mb
                                 (fun n : nat => n) [1%nat; 2%nat])%Q)
    by (vm_compute; discriminate).
  split; [exact H|].
  exact (split_within_limit (fun n : nat => n) (3 # 1048576)
           [1%nat; 2%nat] H).
Defined.

Lemma split_is_greedy_witness :
  chunker._split_batch_requests (fun n : nat => n) (5 # 1048576)
    [2%nat; 2%nat; 2%nat]
  = [] ++ [2%nat; 2%nat] :: [2%nat] :: []
  /\ exists r rest,
       [2%nat] = r :: rest
       /\ (5 # 1048576 < chunker._estimate_total_size_mb (fun n : nat => n)
                           [2%nat; 2%nat]
                         + chunker._estimate_request_size_mb
                             (fun n : nat => n) r)%Q.
Proof.
  assert (H : chunker._split_batch_requests (fun n : nat => n) (5 # 1048576)
                [2%nat; 2%nat; 2%nat]
              = [] ++ [2%nat; 2%nat] :: [2%nat] :: [])
    by (vm_compute; reflexivity).
  split; [exact H|].
  exact (split_is_greedy (fun n : nat => n) (5 # 1048576) _ _ _ _ _ H).
Defined.

(** ** The chunker makes the fewest chunks *)

Section ChunkerFewest.

Context {request : Type}.
Variable json_dumps_len : request -> nat.
Variable max_batch_size_mb : Q.

Local Abbreviation size := (chunker._estimate_request_size_mb json_dumps_len).
Local Abbreviation total := (chunker._estimate_total_size_mb json_dumps_len).
Local Abbreviation step := (chunker.split_step json_dumps_len max_batch_size_mb).
Local Abbreviation split :=
  (chunker._split_batch_requests json_dumps_len max_batch_size_mb).
Local Abbreviation inv := (split_inv json_dumps_len max_batch_size_mb).
Local Abbreviation init :=
  {| chunker.batches := []; chunker.current_batch := [];
     chunker.current_size_mb := 0%Q |}.

(** The number of chunks a state stands for: the closed ones and, if it
    is not empty, the open one. *)
Definition chunk_count (st : chunker.split_state (request := request)) : nat :=
  (length (chunker.batches st)
   + if chunker.truthy_list (chunker.current_batch st) then 1 else 0)%nat.

(** A grouping within the limit: no chunk is empty and none exceeds the
    limit. *)
Definition within_limit (chunks : list (list request)) : Prop :=
  Forall (fun c => c <> [] /\ (total c <= max_batch_size_mb)%Q) chunks.

(** The size of the last chunk of a grouping. *)
Definition last_total (chunks : list (list request)) : Q :=
  match last chunks with
  | Some c => total c
  | None => 0%Q
  end.

(** The greedy state is ahead of a grouping of the same requests: it
    has fewer chunks, or as many with an open chunk that is no larger than
    the last chunk of the grouping. *)
Definition ahead (st : chunker.split_state) (chunks : list (list request))
  : Prop :=
  (chunk_count st < length chunks)%nat
  \/ (chunk_count st = length chunks
      /\ (chunker.current_size_mb st <= last_total chunks)%Q).

Lemma split_chunk_count (requests : list request) :
  length (split requests) = chunk_count (fold_left step requests init).
Proof.
  unfold chunker._split_batch_requests, chunk_count.
  destruct (chunker.current_batch (fold_left step requests init)); simpl.
  - lia.
  - rewrite length_app. reflexivity.
Qed.

Lemma step_count st r :
  (chunker.truthy_list (chunker.current_batch st)
   && chunker.Qgtb (chunker.current_size_mb st + size r) max_batch_size_mb
   = true
   /\ chunk_count (step st r) = S (chunk_count st)
   /\ chunker.current_size_mb (step st r) = size r)
  \/ (chunker.current_batch st = []
      /\ chunk_count (step st r) = S (chunk_count st)
      /\ chunker.current_size_mb (step st r)
         = (chunker.current_size_mb st + size r)%Q)
  \/ (chunker.current_batch st <> []
      /\ chunker.Qgtb (chunker.current_size_mb st + size r) max_batch_size_mb
         = false
      /\ chunk_count (step st r) = chunk_count st
      /\ chunker.current_size_mb (step st r)
         = (chunker.current_size_mb st + size r)%Q).
Proof.
  unfold chunker.split_step, chunk_count.
  destruct (chunker.current_batch st) as [|x cur] eqn:Ecur; simpl.
  - right. left. repeat split. lia.
  - destruct (chunker.Qgtb _ _) eqn:Egt; simpl.
    + left. rewrite length_app. simpl. repeat split. lia.
    + right. right. repeat split. discriminate.
Qed.

Lemma within_limit_snoc chunks c :
  within_limit (chunks ++ [c])
  <-> within_limit chunks /\ c <> [] /\ (total c <= max_batch_size_mb)%Q.
Proof.
  unfold within_limit. rewrite Forall_app, Forall_singleton. reflexivity.
Qed.

Lemma last_total_snoc chunks c : last_total (chunks ++ [c]) = total c.
Proof. unfold last_total. rewrite last_snoc. reflexivity. Qed.

Lemma fold_snoc (l : list request) r st :
  fold_left step (l ++ [r]) st = step (fold_left step l st) r.
Proof. rewrite fold_left_app. reflexivity. Qed.

Lemma current_nonempty (l : list request) :
  l <> [] -> chunker.current_batch (fold_left step l init) <> [].
Proof.
  destruct l as [|r l _] using rev_ind; [contradiction|]. intros _.
  rewrite fold_snoc. unfold chunker.split_step.
  destruct (_ && _); simpl; [discriminate|].
  destruct (chunker.current_batch _); discriminate.
Qed.

Lemma ahead_loop (requests : list request) : forall chunks,
  concat chunks = requests ->
  within_limit chunks ->
  ahead (fold_left step requests init) chunks.
Proof.
  induction requests as [|r l IH] using rev_ind; intros chunks Hcat Hlim.
  - (* no request: no chunk *)
    assert (chunks = []) as ->.
    { destruct chunks as [|c chunks]; [reflexivity|].
      apply Forall_cons in Hlim as [[Hc _] _].
      destruct c; [contradiction | discriminate Hcat]. }
    right. split; [reflexivity | apply Qle_refl].
  - rewrite fold_snoc.
    set (st := fold_left step l init) in *.
    pose proof (split_loop_inv json_dumps_len max_batch_size_mb l [] init
                  (split_init_inv json_dumps_len max_batch_size_mb))
      as [_ _ Hsize _].
    fold st in Hsize. simpl in Hsize.
    (* the last chunk of the grouping ends with [r] *)
    destruct chunks as [|c chunks0 _] using rev_ind.
    { destruct l; discriminate Hcat. }
    apply within_limit_snoc in Hlim as (Hlim0 & Hc & Hfit).
    destruct c as [|r' c0 _] using rev_ind; [contradiction|]. clear Hc.
    rewrite concat_app in Hcat. simpl in Hcat.
    rewrite app_nil_r, app_assoc in Hcat.
    apply app_inj_tail in Hcat as [Hcat ->].
    rewrite total_snoc in Hfit.
    unfold ahead. rewrite last_total_snoc, total_snoc, length_app. simpl.
    pose proof (size_nonneg json_dumps_len r) as Hr.
    pose proof (total_nonneg json_dumps_len c0) as Hc0.
    assert (Hcase : c0 = [] \/ c0 <> [])
      by (destruct c0; [left; reflexivity | right; discriminate]).
    destruct Hcase as [-> | Hc0ne].
    + (* [r] is a chunk of its own *)
      rewrite app_nil_r in Hcat.
      assert (Hle : (chunk_count st <= length chunks0)%nat).
      { destruct (IH chunks0 Hcat Hlim0) as [H | [H _]]; lia. }
      destruct (step_count st r)
        as [(_ & Hn & Hs) | [(Hcur & Hn & Hs) | (_ & _ & Hn & Hs)]];
        rewrite Hn, Hs.
      * destruct (Nat.eq_dec (chunk_count st) (length chunks0)) as [E|E];
          [right | left; lia].
        split; [lia|]. unfold chunker._estimate_total_size_mb. simpl.
        rewrite Qplus_0_l. apply Qle_refl.
      * destruct (Nat.eq_dec (chunk_count st) (length chunks0)) as [E|E];
          [right | left; lia].
        split; [lia|]. rewrite Hsize, Hcur.
        unfold chunker._estimate_total_size_mb. simpl. apply Qle_refl.
      * left. lia.
    + (* [r] extends the chunk [c0] *)
      assert (Hlim' : within_limit (chunks0 ++ [c0])).
      { apply within_limit_snoc. split; [exact Hlim0|]. split; [exact Hc0ne|].
        apply (Qle_trans _ (total c0 + size r)); [|exact Hfit].
        rewrite <- (Qplus_0_r (total c0)) at 1.
        apply Qplus_le_compat; [apply Qle_refl | exact Hr]. }
      assert (Hcat' : concat (chunks0 ++ [c0]) = l).
      { rewrite concat_app. simpl. rewrite app_nil_r. exact Hcat. }
      pose proof (IH _ Hcat' Hlim') as Hah. unfold ahead in Hah.
      rewrite last_total_snoc, length_app in Hah. simpl in Hah.
      assert (Hlne : l <> []).
      { intros El. rewrite El in Hcat.
        apply app_eq_nil in Hcat as [_ Hc]. contradiction. }
      pose proof (current_nonempty l Hlne) as Hcur. fold st in Hcur.
      destruct (step_count st r)
        as [(Hgt & Hn & Hs) | [(Hcur0 & _) | (_ & Hle & Hn & Hs)]];
        [| contradiction |]; rewrite Hn, Hs.
      * apply andb_true_iff in Hgt as [_ Hgt]. apply Qgtb_true in Hgt.
        destruct Hah as [Hlt | [Heq Hsz]].
        -- destruct (Nat.eq_dec (S (chunk_count st)) (length chunks0 + 1)%nat)
             as [E|E]; [right | left; lia].
           split; [exact E|].
           rewrite <- (Qplus_0_l (size r)) at 1.
           apply Qplus_le_compat; [exact Hc0 | apply Qle_refl].
        -- exfalso. apply (Qlt_irrefl max_batch_size_mb).
           apply (Qlt_le_trans _ _ _ Hgt).
           apply (Qle_trans _ (total c0 + size r)); [|exact Hfit].
           apply Qplus_le_compat; [exact Hsz | apply Qle_refl].
      * destruct Hah as [Hlt | [Heq Hsz]]; [left; exact Hlt | right].
        split; [exact Heq|].
        apply Qplus_le_compat; [exact Hsz | apply Qle_refl].
Qed.

(** X3. The chunker uses the fewest chunks possible: every grouping of
    the requests, in their order, into non-empty chunks that each stay
    within the limit has at least as many chunks as the result. *)
Theorem split_fewest_chunks (requests : list request)
    (chunks : list (list request)) :
  concat chunks = requests ->
  Forall (fun c => c <> [] /\ (total c <= max_batch_size_mb)%Q) chunks ->
  (length (split requests) <= length chunks)%nat.
Proof.
  intros Hcat Hlim. rewrite split_chunk_count.
  destruct (ahead_loop requests chunks Hcat Hlim) as [H | [H _]]; lia.
Qed.

End ChunkerFewest.

Lemma split_fewest_chunks_witness :
  concat [[2%nat]; [2%nat; 2%nat]] = [2%nat; 2%nat; 2%nat]
  /\ Forall (fun c => c <> []
                      /\ (chunker._estimate_total_size_mb (fun n : nat => n) c
                          <= 5 # 1048576)%Q)
       [[2%nat]; [2%nat; 2%nat]]
  /\ (length (chunker._split_batch_requests (fun n : nat => n) (5 # 1048576)
                [2%nat; 2%nat; 2%nat]) <= 2)%nat.
Proof.
  assert (Hlim : Forall (fun c => c <> []
                      /\ (chunker._estimate_total_size_mb (fun n : nat => n) c
                          <= 5 # 1048576)%Q)
                   [[2%nat]; [2%nat; 2%nat]]).
  { repeat constructor; try discriminate; vm_compute; discriminate. }
  split; [reflexivity|]. split; [exact Hlim|].
  exact (split_fewest_chunks (fun n : nat => n) (5 # 1048576)
           [2%nat; 2%nat; 2%nat] [[2%nat]; [2%nat; 2%nat]] eq_refl Hlim).
Defined.

(** ** More on the correlation key *)

Section KeyFields.

(** [s.count(c)] for one character. *)
Fixpoint count_char (c : ascii) (s : string) : nat :=
  match s with
  | EmptyString => 0
  | String a s' => (if Ascii.eqb a c then 1 else 0) + count_char c s'
  end.

Lemma split_not_nil c s : Py.split c s <> [].
Proof.
  destruct s as [|a s]; simpl; [discriminate|].
  destruct (Ascii.eqb a c); [discriminate|].
  destruct (Py.split c s); discriminate.
Qed.

Lemma split_length c s : length (Py.split c s) = S (count_char c s).
Proof.
  induction s as [|a s IH]; simpl; [reflexivity|].
  destruct (Ascii.eqb a c); simpl; [rewrite IH; reflexivity|].
  destruct (Py.split c s); simpl in *; [discriminate IH | exact IH].
Qed.

Lemma split_fields_free c s : Forall (free_of c) (Py.split c s).
Proof.
  induction s as [|a s IH]; simpl.
  - constructor; [apply free_of_empty | constructor].
  - destruct (Ascii.eqb a c) eqn:E.
    + constructor; [apply free_of_empty | exact IH].
    + destruct (Py.split c s) as [|h t].
      * constructor; [|constructor].
        apply free_of_cons. split; [apply Ascii.eqb_neq; exact E | apply free_of_empty].
      * apply Forall_cons in IH as [Hh Ht]. constructor; [|exact Ht].
        apply free_of_cons. split; [apply Ascii.eqb_neq; exact E | exact Hh].
Qed.

Lemma join_cons sep f g rest :
  Py.join sep (f :: g :: rest) = f +:+ sep +:+ Py.join sep (g :: rest).
Proof. reflexivity. Qed.

Lemma join_split c s : Py.join (String c "") (Py.split c s) = s.
Proof.
  induction s as [|a s IH]; simpl; [reflexivity|].
  destruct (Ascii.eqb a c) eqn:E.
  - apply Ascii.eqb_eq in E. subst a.
    destruct (Py.split c s) as [|h t] eqn:Es.
    + exfalso. exact (split_not_nil c s Es).
    + rewrite join_cons, IH. reflexivity.
  - destruct (Py.split c s) as [|h t] eqn:Es.
    + exfalso. exact (split_not_nil c s Es).
    + destruct t as [|g t].
      * simpl in *. rewrite IH. reflexivity.
      * rewrite join_cons. rewrite join_cons in IH. rewrite <- IH. reflexivity.
Qed.

(** X4. A key that unpacks is the underscore-join of the fields it unpacks
    into: of all seven, or, for the six-field form, of the six that were
    present, the [whole_doc] field being set to the string [False].  No
    field contains an underscore. *)
Theorem unpack_join k f :
  key.unpack k = ok f ->
  (k = Py.join "_" [key.f_id f; key.f_idx f; key.f_question_type_part f;
                    key.f_correct_letter f; key.f_whole_page f;
                    key.f_whole_doc f; key.f_without_context f]
   \/ (k = Py.join "_" [key.f_id f; key.f_idx f; key.f_question_type_part f;
                        key.f_correct_letter f; key.f_whole_page f;
                        key.f_without_context f]
       /\ key.f_whole_doc f = "False"))
  /\ Forall (free_of "_")
       [key.f_id f; key.f_idx f; key.f_question_type_part f;
        key.f_correct_letter f; key.f_whole_page f; key.f_without_context f].
Proof.
  unfold key.unpack. intros H.
  pose proof (join_split "_" k) as Hj.
  pose proof (split_fields_free "_" k) as Hfree.
  destruct (Py.split "_" k)
    as [|a [|b [|c [|d [|e [|g [|h [|i rest]]]]]]]];
    try (simpl in H; discriminate H);
    try (destruct (length _ <? 7)%nat; discriminate H).
  - inversion H; subst f; simpl. split.
    + right. split; [symmetry; exact Hj | reflexivity].
    + exact Hfree.
  - inversion H; subst f; simpl. split.
    + left. symmetry. exact Hj.
    + repeat (apply Forall_cons in Hfree as [? Hfree]).
      repeat constructor; assumption.
Qed.

Lemma unpack_join_witness :
  key.unpack "p1_3_part-pair_B_True_False"
  = ok (key.mkFields "p1" "3" "part-pair" "B" "True" "False" "False")
  /\ Forall (free_of "_") ["p1"; "3"; "part-pair"; "B"; "True"; "False"].
Proof.
  split; [reflexivity|].
  exact (proj2 (unpack_join "p1_3_part-pair_B_True_False"
                  (key.mkFields "p1" "3" "part-pair" "B" "True" "False" "False")
                  eq_refl)).
Defined.

(** X5. Whether a key unpacks depends on its number of underscores alone:
    with five or six it unpacks, with fewer the tuple assignment raises for
    want of values, with more it raises for too many. *)
Theorem unpack_field_count k :
  ((count_char "_" k = 5 \/ count_char "_" k = 6)%nat ->
   exists f, key.unpack k = ok f)
  /\ ((count_char "_" k < 5)%nat ->
      key.unpack k = raise (ValueError "not enough values to unpack"))
  /\ ((6 < count_char "_" k)%nat ->
      key.unpack k = raise (ValueError "too many values to unpack")).
Proof.
  unfold key.unpack. pose proof (split_length "_" k) as Hlen.
  destruct (Py.split "_" k)
    as [|a [|b [|c [|d [|e [|g [|h [|i rest]]]]]]]];
    simpl in Hlen; (split; [|split]); intros Hc; try lia;
    try reflexivity; try (eexists; reflexivity).
Qed.

Lemma unpack_field_count_witness :
  count_char "_" "p1_0_default_A" = 3%nat
  /\ key.unpack "p1_0_default_A"
     = raise (ValueError "not enough values to unpack").
Proof.
  split; [reflexivity|].
  apply (proj1 (proj2 (unpack_field_count "p1_0_default_A"))).
  vm_compute. lia.
Defined.

End KeyFields.

(** ** More on normalizing a prediction *)

Section NormalizeFacts.

Lemma mem_upper_char c :
  Py.mem (Py.upper_char c) scoring.strip_chars = Py.mem c scoring.strip_chars.
Proof. destruct c as [[] [] [] [] [] [] [] []]; reflexivity. Qed.

Lemma upper_char_idem c : Py.upper_char (Py.upper_char c) = Py.upper_char c.
Proof. destruct c as [[] [] [] [] [] [] [] []]; reflexivity. Qed.

Lemma upper_idem s : Py.upper (Py.upper s) = Py.upper s.
Proof.
  induction s as [|c s IH]; simpl; [reflexivity|].
  rewrite upper_char_idem, IH. reflexivity.
Qed.

Lemma upper_head_out s :
  head_out scoring.strip_chars s -> head_out scoring.strip_chars (Py.upper s).
Proof. destruct s as [|c s]; simpl; [trivial|]. rewrite mem_upper_char. trivial. Qed.

Lemma upper_last_out s :
  last_out scoring.strip_chars s -> last_out scoring.strip_chars (Py.upper s).
Proof.
  induction s as [|c s IH]; [trivial|].
  destruct s as [|d s]; [simpl; rewrite mem_upper_char; trivial|].
  intros H. apply IH in H. exact H.
Qed.

Lemma lstrip_fixed chars s : head_out chars s -> Py.lstrip chars s = s.
Proof. destruct s as [|c s]; simpl; [trivial|]. intros ->. reflexivity. Qed.

Lemma rstrip_fixed chars s : last_out chars s -> Py.rstrip chars s = s.
Proof.
  induction s as [|c s IH]; [trivial|].
  destruct s as [|d s].
  - simpl. intros ->. reflexivity.
  - intros H. change (last_out chars (String d s)) in H.
    specialize (IH H). change (Py.rstrip chars (String c (String d s)))
      with (match Py.rstrip chars (String d s) with
            | EmptyString =>
                if Py.mem c chars then EmptyString else String c EmptyString
            | r => String c r
            end).
    rewrite IH. reflexivity.
Qed.

(** X6. Normalizing is idempotent: a normalized prediction neither begins
    nor ends with one of the five stripped characters, is unchanged by
    upper-casing, and normalizes to itself. *)
Theorem normalize_idempotent text :
  scoring.normalize (scoring.normalize text) = scoring.normalize text
  /\ head_out scoring.strip_chars (scoring.normalize text)
  /\ last_out scoring.strip_chars (scoring.normalize text)
  /\ Py.upper (scoring.normalize text) = scoring.normalize text.
Proof.
  destruct (strip_spec scoring.strip_chars text)
    as (l & r & _ & _ & _ & Hh & Hl).
  assert (Hh' := upper_head_out _ Hh). assert (Hl' := upper_last_out _ Hl).
  fold (scoring.normalize text) in Hh', Hl'.
  split; [|split; [exact Hh'|split; [exact Hl'|apply upper_idem]]].
  unfold scoring.normalize at 1. unfold Py.strip.
  rewrite (lstrip_fixed _ _ Hh'), (rstrip_fixed _ _ Hl').
  apply upper_idem.
Qed.

End NormalizeFacts.

(** ** Iterating over the annotation file *)

Section IterFacts.

Lemma elem_of_enumerate_from {A} (l : list A) : forall n i x,
  (i, x) ∈ base.enumerate_from n l <-> (n <= i)%nat /\ l !! (i - n)%nat = Some x.
Proof.
  induction l as [|y l IH]; intros n i x; simpl.
  - rewrite elem_of_nil. split; [contradiction | intros [_ H]; discriminate H].
  - rewrite elem_of_cons, IH. split.
    + intros [E | [Hle Hl]].
      * inversion E; subst. rewrite Nat.sub_diag. split; [lia | reflexivity].
      * split; [lia|]. replace (i - n)%nat with (S (i - S n)) by lia. exact Hl.
    + intros [Hle Hl]. destruct (decide (i = n)) as [-> | Hne].
      * left. rewrite Nat.sub_diag in Hl. simpl in Hl. congruence.
      * right. split; [lia|].
        replace (i - n)%nat with (S (i - S n)) in Hl by lia. exact Hl.
Qed.

Lemma length_enumerate_from {A} (l : list A) n :
  length (base.enumerate_from n l) = length l.
Proof. revert n. induction l as [|y l IH]; intros n; simpl; [|rewrite IH]; reflexivity. Qed.

Lemma elem_of_flat_map {A B} (f : A -> list B) (l : list A) (y : B) :
  y ∈ flat_map f l <-> exists x, x ∈ l /\ y ∈ f x.
Proof.
  rewrite list_elem_of_In, in_flat_map. split.
  - intros (x & Hx & Hy). exists x. rewrite !list_elem_of_In. split; assumption.
  - intros (x & Hx & Hy). exists x. rewrite <- !list_elem_of_In. split; assumption.
Qed.

Lemma flat_map_unit_length {A B} (f : A -> list B) (l : list A) :
  (forall x, length (f x) = 1%nat) -> length (flat_map f l) = length l.
Proof.
  intros Hf. induction l as [|x l IH]; simpl; [reflexivity|].
  rewrite length_app, Hf, IH. reflexivity.
Qed.

(** The number of entries of an annotation file. *)
Definition total_entries (data : base.annotations) : nat :=
  list_sum (map (fun kv => length kv.2) data).

(** X7. [iter_annotations] yields exactly the entries of the file, each
    with its paper id and its position in that paper's list; for part-pair
    questions it leaves out the entries whose [part_pair] is empty, and for
    any other question type it yields every entry once. *)
Theorem iter_annotations_spec data question_type whole_page whole_doc :
  (forall key idx ann,
     (key, idx, ann) ∈ base.iter_annotations data question_type
                         whole_page whole_doc
     <-> exists entries,
           (key, entries) ∈ data
           /\ entries !! idx = Some ann
           /\ (question_type = "part_pair" ->
               truthy_part_pair (types.part_pair (types.mcq ann)) = true))
  /\ (question_type <> "part_pair" ->
      length (base.iter_annotations data question_type whole_page whole_doc)
      = total_entries data).
Proof.
  split.
  - intros key idx ann. unfold base.iter_annotations.
    rewrite elem_of_flat_map. split.
    + intros ([k entries] & Hin & Hy).
      apply elem_of_flat_map in Hy as ([i a] & Hia & Hy).
      apply elem_of_enumerate_from in Hia as [_ Hl].
      rewrite Nat.sub_0_r in Hl.
      destruct (String.eqb_spec question_type "part_pair") as [Eq|Eq]; simpl in Hy.
      * destruct (truthy_part_pair (types.part_pair (types.mcq a))) eqn:Et;
          simpl in Hy; [|apply elem_of_nil in Hy; contradiction].
        apply list_elem_of_singleton in Hy. inversion Hy; subst.
        exists entries. repeat split; try assumption. intros _. exact Et.
      * apply list_elem_of_singleton in Hy. inversion Hy; subst.
        exists entries. repeat split; try assumption. contradiction.
    + intros (entries & Hin & Hl & Ht).
      exists (key, entries). split; [exact Hin|].
      apply elem_of_flat_map. exists (idx, ann). split.
      * apply elem_of_enumerate_from. rewrite Nat.sub_0_r. split; [lia | exact Hl].
      * destruct (String.eqb_spec question_type "part_pair") as [Eq|Eq]; simpl.
        -- rewrite (Ht Eq). simpl. left.
        -- left.
  - intros Hne. apply String.eqb_neq in Hne.
    unfold base.iter_annotations, total_entries.
    induction data as [|[k entries] data IH]; simpl; [reflexivity|].
    rewrite length_app, IH. f_equal.
    rewrite <- (length_enumerate_from entries 0).
    apply flat_map_unit_length. intros [i a]. rewrite Hne. reflexivity.
Qed.

Lemma iter_annotations_spec_witness :
  "default" <> "part_pair"
  /\ length (base.iter_annotations
               [("p1", [sample_entry (PPDict []); sample_entry (PPDict [])]);
                ("p2", [sample_entry (PPItem sample_part_pair)])]
               "default" false false) = 3%nat
  /\ base.iter_annotations
       [("p1", [sample_entry (PPDict []); sample_entry (PPDict [])]);
        ("p2", [sample_entry (PPItem sample_part_pair)])]
       "part_pair" false false
     = [("p2", 0%nat, sample_entry (PPItem sample_part_pair))].
Proof.
  split; [discriminate|]. split; [|reflexivity].
  exact (proj2 (iter_annotations_spec
                  [("p1", [sample_entry (PPDict []); sample_entry (PPDict [])]);
                   ("p2", [sample_entry (PPItem sample_part_pair)])]
                  "default" false false) ltac:(discriminate)).
Defined.

End IterFacts.

(** ** The context of a question *)

Section ContextFacts.

Import helpers.

(** How a part is shown when neither pages nor the document stand in for
    it: a text part as its content, an image part as an image. *)
Definition shown_as (part : InconsistencyPart) (c : context_part) : Prop :=
  match part with
  | types.TextInconsistencyPart _ content _ => c = CtxText content
  | types.ImageInconsistencyPart _ _ => exists b, c = CtxImage b
  end.

Definition is_image (c : context_part) : Prop := exists b, c = CtxImage b.

Definition is_text_part (part : InconsistencyPart) : Prop :=
  match part with
  | types.TextInconsistencyPart _ _ _ => True
  | types.ImageInconsistencyPart _ _ => False
  end.

Lemma context_of_parts_plain w id parts :
  exists cs, context_of_parts w id false parts = ok cs /\ Forall2 shown_as parts cs.
Proof.
  induction parts as [|p parts (cs & Hcs & Hall)]; simpl.
  - exists []. split; [reflexivity | constructor].
  - rewrite Hcs. destruct p as [page image_id | page content line]; simpl.
    + eexists. split; [reflexivity|]. constructor; [|exact Hall].
      eexists. reflexivity.
    + eexists. split; [reflexivity|]. constructor; [reflexivity|exact Hall].
Qed.

Lemma context_of_part_pages w id p c :
  context_of_part w id true p = ok c ->
  Forall is_image c /\ (length c <= 1)%nat.
Proof.
  destruct p as [page image_id | page content line]; simpl.
  - destruct (render_page w _ page) as [e|[b|]]; simpl; intros H;
      inversion H; subst; split; simpl; try lia; repeat constructor.
    eexists. reflexivity.
  - destruct (render_page w _ page) as [e|[b|]]; simpl; intros H;
      inversion H; subst; split; simpl; try lia; repeat constructor.
    eexists. reflexivity.
Qed.

Lemma context_of_parts_pages w id parts : forall cs,
  context_of_parts w id true parts = ok cs ->
  Forall is_image cs /\ (length cs <= length parts)%nat.
Proof.
  induction parts as [|p parts IH]; simpl; intros cs H.
  - inversion H. split; [constructor | simpl; lia].
  - destruct (context_of_part w id true p) as [e|c] eqn:Ec; [discriminate|].
    simpl in H.
    destruct (context_of_parts w id true parts) as [e|cs'] eqn:Ecs; [discriminate|].
    simpl in H. inversion H; subst.
    destruct (context_of_part_pages w id p c Ec) as [Hc Hlen].
    destruct (IH cs' eq_refl) as [Hcs Hlen'].
    split; [apply Forall_app; split; assumption|].
    rewrite length_app. lia.
Qed.

Lemma context_of_parts_text_pages w id parts :
  Forall is_text_part parts ->
  exists cs, context_of_parts w id true parts = ok cs.
Proof.
  induction 1 as [|p parts Hp _ (cs & Hcs)]; simpl.
  - eexists. reflexivity.
  - rewrite Hcs. destruct p as [page image_id | page content line];
      [contradiction|]. simpl.
    destruct (render_page w _ page) as [e|[b|]]; simpl; eexists; reflexivity.
Qed.

(** X8. What [get_list_of_context] returns in its three modes.  Plain: it
    never raises and gives one context part per inconsistency part, in
    order, a text part as its content and an image part as an image.
    Whole document: the parts of the annotation are ignored and only
    non-empty images are returned.  Whole page: whatever is returned
    consists of images only, at most one per part, and if all parts are
    text parts no exception escapes. *)
Theorem get_list_of_context_modes w annotation id :
  (exists cs,
     get_list_of_context w annotation id false false = ok cs
     /\ Forall2 shown_as (types.inconsistency_parts annotation) cs)
  /\ (forall whole_page, exists cs,
        get_list_of_context w annotation id whole_page true = ok cs
        /\ Forall (fun c => exists b, c = CtxImage (Some b) /\ b <> "") cs
        /\ forall annotation',
             get_list_of_context w annotation' id whole_page true = ok cs)
  /\ (forall cs,
        get_list_of_context w annotation id true false = ok cs ->
        Forall is_image cs
        /\ (length cs <= length (types.inconsistency_parts annotation))%nat)
  /\ (Forall is_text_part (types.inconsistency_parts annotation) ->
      exists cs, get_list_of_context w annotation id true false = ok cs).
Proof.
  unfold get_list_of_context. split; [|split; [|split]].
  - apply context_of_parts_plain.
  - intros whole_page. eexists. split; [reflexivity|]. split; [|reflexivity].
    rewrite map_is_fmap. apply Forall_fmap, Forall_forall.
    intros b Hb. apply list_elem_of_filter in Hb as [Hb _].
    exists b. split; [reflexivity|].
    unfold truthy_str in Hb. apply negb_true_iff, String.eqb_neq in Hb. exact Hb.
  - apply context_of_parts_pages.
  - apply context_of_parts_text_pages.
Qed.

Lemma get_list_of_context_modes_witness :
  Forall is_text_part [types.TextInconsistencyPart 3 "The text says 5%." 12]
  /\ exists cs,
       get_list_of_context sample_world
         (types.mkAnnotationEntry
            [types.TextInconsistencyPart 3 "The text says 5%." 12]
            "" "" "" (types.mcq (sample_entry (PPDict []))))
         "p1" true false = ok cs.
Proof.
  assert (H : Forall is_text_part
                [types.TextInconsistencyPart 3 "The text says 5%." 12])
    by (repeat constructor).
  split; [exact H|].
  exact (proj2 (proj2 (proj2
           (get_list_of_context_modes sample_world
              (types.mkAnnotationEntry
                 [types.TextInconsistencyPart 3 "The text says 5%." 12]
                 "" "" "" (types.mcq (sample_entry (PPDict []))))
              "p1"))) H).
Defined.

Definition is_text_item (item : base.GenericItem) : Prop :=
  exists t, item = base.TextItem t.

(** X9. The two builders for ordinary questions agree.  Whatever
    [build_default_context] returns, [build_without_context] returns the
    same question, answers and correct letter, and the default items are
    the context parts followed by the items without context.  The items
    without context are texts only: the question, the answers in order and
    the closing instruction. *)
Theorem without_context_is_suffix w annotation id question_type
    whole_page whole_doc :
  (forall items question answers correct_letter,
     base.build_default_context w annotation id question_type
       whole_page whole_doc = ok (items, question, answers, correct_letter) ->
     exists parts items',
       get_list_of_context w annotation id whole_page whole_doc = ok parts
       /\ base.build_without_context w annotation question_type
          = ok (items', question, answers, correct_letter)
       /\ items = map base.item_of_part parts ++ items')
  /\ (forall items' question answers correct_letter,
        base.build_without_context w annotation question_type
        = ok (items', question, answers, correct_letter) ->
        items' = base.TextItem question :: map base.TextItem answers
                 ++ [base.TextItem (after_question_prompt w)]
        /\ Forall is_text_item items'
        /\ length items' = (length answers + 2)%nat).
Proof.
  unfold base.build_default_context, base.build_without_context.
  destruct (getattr_mcq (types.mcq annotation) question_type) as [e|attr];
    simpl; [split; intros; discriminate|].
  destruct (as_item attr) as [e|mcq_item]; simpl; [split; intros; discriminate|].
  destruct (prepare_answers mcq_item question_type) as [e|[answers cl]]; simpl;
    [split; intros; discriminate|].
  split.
  - intros items question answers' cl' H.
    destruct (get_list_of_context w annotation id whole_page whole_doc)
      as [e|parts]; simpl in H; [discriminate|].
    inversion H; subst. eexists _, _. repeat split.
  - intros items' question answers' cl' H. inversion H; subst.
    split; [reflexivity|]. split.
    + constructor; [eexists; reflexivity|].
      apply Forall_app. split.
      * rewrite map_is_fmap. apply Forall_fmap, Forall_forall.
        intros a _. eexists. reflexivity.
      * repeat constructor. eexists. reflexivity.
    + simpl. rewrite length_app, length_map. simpl. lia.
Qed.

Lemma without_context_is_suffix_witness :
  base.build_default_context sample_world
    (types.mkAnnotationEntry
       [types.TextInconsistencyPart 3 "The text says 5%." 12]
       "" "" "" (types.mcq (sample_entry (PPDict []))))
    "p1" "default" false false
  = ok ([base.TextItem "The text says 5%.";
         base.TextItem "Which claim is inconsistent?";
         base.TextItem "wrong"; base.TextItem "right";
         base.TextItem "Answer with the letter only."],
        "Which claim is inconsistent?", ["wrong"; "right"], "B")
  /\ exists parts items',
       base.build_without_context sample_world
         (types.mkAnnotationEntry
            [types.TextInconsistencyPart 3 "The text says 5%." 12]
            "" "" "" (types.mcq (sample_entry (PPDict []))))
         "default"
       = ok (items', "Which claim is inconsistent?", ["wrong"; "right"], "B")
       /\ [base.TextItem "The text says 5%.";
           base.TextItem "Which claim is inconsistent?";
           base.TextItem "wrong"; base.TextItem "right";
           base.TextItem "Answer with the letter only."]
          = map base.item_of_part parts ++ items'.
Proof.
  assert (H : base.build_default_context sample_world
                (types.mkAnnotationEntry
                   [types.TextInconsistencyPart 3 "The text says 5%." 12]
                   "" "" "" (types.mcq (sample_entry (PPDict []))))
                "p1" "default" false false
              = ok ([base.TextItem "The text says 5%.";
                     base.TextItem "Which claim is inconsistent?";
                     base.TextItem "wrong"; base.TextItem "right";
                     base.TextItem "Answer with the letter only."],
                    "Which claim is inconsistent?", ["wrong"; "right"], "B"))
    by (vm_compute; reflexivity).
  split; [exact H|].
  destruct (proj1 (without_context_is_suffix sample_world _ "p1" "default"
                     false false) _ _ _ _ H) as (parts & items' & _ & Hw & Hi).
  exists parts, items'. split; [exact Hw | exact Hi].
Defined.

End ContextFacts.

(** ** The context of a part-pair question *)

Section PartPairContext.

Import helpers.

Lemma list_index_Some x l : forall i,
  base.list_index x l = Some i ->
  l !! i = Some x /\ forall j y, (j < i)%nat -> l !! j = Some y -> y <> x.
Proof.
  induction l as [|a l IH]; intros i; simpl; [discriminate|].
  destruct (String.eqb_spec a x) as [E|E].
  - intros H. inversion H; subst. split; [reflexivity|]. intros j y Hj. lia.
  - destruct (base.list_index x l) as [k|]; simpl; [|discriminate].
    intros H. inversion H; subst. destruct (IH k eq_refl) as [Hk Hmin].
    split; [exact Hk|]. intros [|j] y Hj Hy.
    + simpl in Hy. inversion Hy; subst. exact E.
    + simpl in Hy. apply (Hmin j y); [lia | exact Hy].
Qed.

Lemma list_index_elem x l : x ∈ l -> is_Some (base.list_index x l).
Proof.
  induction l as [|a l IH]; intros H; [apply elem_of_nil in H; contradiction|].
  simpl. destruct (String.eqb_spec a x) as [E|E]; [eexists; reflexivity|].
  apply elem_of_cons in H as [-> | H]; [contradiction|].
  destruct (IH H) as [k ->]. eexists. reflexivity.
Qed.

Lemma StronglySorted_lookup_le {A} (R : relation A) (l : list A) :
  StronglySorted R l ->
  forall i j x y, (i < j)%nat -> l !! i = Some x -> l !! j = Some y -> R x y.
Proof.
  induction 1 as [|a l Hs IH Hall]; intros i j x y Hij Hi Hj;
    [discriminate|].
  destruct j as [|j]; [lia|]. simpl in Hj. destruct i as [|i].
  - simpl in Hi. inversion Hi; subst.
    eapply Forall_forall in Hall; [exact Hall|].
    eapply list_elem_of_lookup_2. exact Hj.
  - simpl in Hi. apply (IH i j); [lia | assumption | assumption].
Qed.

(** The part of [build_part_pair_context] after the guard has passed. *)
Definition part_pair_ready (annotation : AnnotationEntry) (m : MCQItem)
  : Prop :=
  types.part_pair (types.mcq annotation) = PPItem m
  /\ types.question m <> "" /\ types.correct m <> "".

(** X10. For a part-pair item with a question and a correct answer whose
    first letter is not declared again, [build_part_pair_context] returns
    the least letter, in sorted order, whose option is the correct answer;
    the items are the opening text, the stem, the instruction, a letter
    text and an image per option, and the closing instruction.  An item
    without letters makes the lookup of the correct answer raise. *)
Theorem build_part_pair_context_letter w annotation id m :
  part_pair_ready annotation m ->
  let d := dict_of_zip (types.letters m)
             (types.correct m :: types.incorrect m) in
  (forall l0 rest,
     types.letters m = l0 :: rest -> l0 ∉ rest ->
     exists items correct_letter,
       base.build_part_pair_context w annotation id = ok (items, correct_letter)
       /\ d !! correct_letter = Some (types.correct m)
       /\ (forall l, d !! l = Some (types.correct m) -> String.le correct_letter l)
       /\ length items = (4 + 2 * length (sorted_keys d))%nat
       /\ head items
          = Some (base.TextItem
                    "You are provided with a part of a scientific paper:")
       /\ last items = Some (base.TextItem (after_question_prompt w)))
  /\ (types.letters m = [] ->
      base.build_part_pair_context w annotation id
      = raise (ValueError "is not in list")).
Proof.
  intros (Hpp & Hq & Hc) d.
  unfold base.build_part_pair_context. rewrite Hpp. simpl.
  apply String.eqb_neq in Hq, Hc. unfold truthy_str. rewrite Hq, Hc. simpl.
  fold d. split.
  - intros l0 rest Hl Hnot.
    assert (Hd0 : d !! l0 = Some (types.correct m)).
    { unfold d. rewrite Hl. apply dict_of_zip_first. exact Hnot. }
    assert (Hin0 : l0 ∈ sorted_keys d).
    { apply sorted_keys_elem_of. rewrite Hd0. eexists. reflexivity. }
    assert (Hopt : types.correct m ∈ map (fun l => d !!! l) (sorted_keys d)).
    { rewrite map_is_fmap. apply list_elem_of_fmap. exists l0.
      split; [|exact Hin0]. symmetry. apply lookup_total_correct. exact Hd0. }
    destruct (list_index_elem _ _ Hopt) as [i Hi]. rewrite Hi.
    apply list_index_Some in Hi as [Hi Hmin].
    rewrite map_is_fmap in Hi, Hmin.
    apply list_lookup_fmap_Some in Hi as (cl & Hcl & Hsl).
    rewrite (list_lookup_total_correct _ _ _ Hsl).
    assert (Hdcl : d !! cl = Some (types.correct m)).
    { assert (Hs : is_Some (d !! cl)).
      { apply sorted_keys_elem_of. eapply list_elem_of_lookup_2. exact Hsl. }
      destruct Hs as [v Hv]. rewrite Hv. f_equal.
      rewrite (lookup_total_correct _ _ _ Hv) in Hcl. congruence. }
    eexists _, cl. split; [reflexivity|]. split; [exact Hdcl|].
    split; [|split; [|split; [reflexivity|]]].
    + intros l Hl'.
      assert (Hinl : l ∈ sorted_keys d).
      { apply sorted_keys_elem_of. rewrite Hl'. eexists. reflexivity. }
      apply list_elem_of_lookup_1 in Hinl as [j Hj].
      destruct (Nat.lt_trichotomy i j) as [Hlt | [-> | Hgt]].
      * destruct (sorted_keys_sorted d) as [Hs _].
        apply (StronglySorted_lookup_le _ _ Hs i j); assumption.
      * rewrite Hsl in Hj. inversion Hj; subst. reflexivity.
      * exfalso. apply (Hmin j (d !!! l) Hgt); [|apply lookup_total_correct; exact Hl'].
        rewrite list_lookup_fmap, Hj. reflexivity.
    + cbn [app length]. rewrite length_app.
      rewrite (flat_map_constant_length (c:=2));
        [|intros [a b] _; reflexivity].
      rewrite length_zip, length_map, Nat.min_id. simpl. lia.
    + cbn [app]. rewrite !app_comm_cons. apply last_snoc.
  - intros Hl. unfold d. rewrite Hl. reflexivity.
Qed.

Lemma build_part_pair_context_letter_witness :
  part_pair_ready (sample_entry (PPItem sample_part_pair)) sample_part_pair
  /\ exists items,
       base.build_part_pair_context sample_world
         (sample_entry (PPItem sample_part_pair)) "p1" = ok (items, "B")
       /\ length items = 8%nat.
Proof.
  assert (H : part_pair_ready (sample_entry (PPItem sample_part_pair))
                sample_part_pair)
    by (split; [reflexivity | split; discriminate]).
  split; [exact H|].
  destruct (proj1 (build_part_pair_context_letter sample_world _ "p1" _ H)
              "B" ["A"] eq_refl)
    as (items & cl & Hb & _ & _ & Hlen & _).
  - intros Hin. apply list_elem_of_singleton in Hin. discriminate Hin.
  - exists items. split; [|rewrite Hlen; vm_compute; reflexivity].
    rewrite Hb. f_equal. f_equal.
    assert (E : base.build_part_pair_context sample_world
                  (sample_entry (PPItem sample_part_pair)) "p1"
                = ok (items, cl)) by exact Hb.
    vm_compute in E. inversion E. reflexivity.
Defined.

End PartPairContext.

(** ** Preparing the requests of a batch run *)

Section PrepareFacts.

(** The request appended for an annotation: its key carries the paper id,
    the index, the question type and the flags of the run, and its system
    instruction is the system prompt. *)
Definition gemini_request_for (w : World) (question_type : string)
    (whole_page whole_doc without_context : bool)
    (it : string * nat * AnnotationEntry) (r : gemini_batch.request) : Prop :=
  exists correct_letter,
    gemini_batch.key r
    = key.custom_id it.1.1 it.1.2 question_type correct_letter
        whole_page whole_doc without_context
    /\ gemini_batch.system_instruction r = system_prompt w.

(** The attributes a run of the request loop leaves alone. *)
Definition gemini_frame (self self' : gemini_batch.provider) : Prop :=
  gemini_batch.model self' = gemini_batch.model self
  /\ gemini_batch.responses self' = gemini_batch.responses self
  /\ gemini_batch.batch_jobs self' = gemini_batch.batch_jobs self
  /\ gemini_batch.self_file_name self' = gemini_batch.self_file_name self
  /\ gemini_batch.self_batch_name self' = gemini_batch.self_batch_name self
  /\ gemini_batch.max_batch_size_mb self' = gemini_batch.max_batch_size_mb self.

Lemma gemini_handle_appends w qt wp wd wc self it self' :
  gemini_batch.handle w qt wp wd wc self it = ok self' ->
  (self' = self /\ wc = false /\ qt = "part_pair")
  \/ exists items cl,
       self' = gemini_batch.append_request w self items
                 (key.custom_id it.1.1 it.1.2 qt cl wp wd wc).
Proof.
  destruct it as [[k i] a]. unfold gemini_batch.handle.
  destruct wc.
  - unfold gemini_batch._handle_one_annotation_without_context.
    destruct (base.build_without_context w a qt) as [e|[[[items q] ans] cl]];
      simpl; [discriminate|].
    intros H. inversion H. right. eexists _, _. reflexivity.
  - destruct (String.eqb_spec qt "part_pair") as [E|E].
    + unfold gemini_batch._handle_one_part_pair_annotation.
      destruct (base.build_part_pair_context w a k) as [e|[items cl]];
        simpl; [discriminate|].
      destruct items as [|x items]; intros H; inversion H.
      * left. repeat split. exact E.
      * right. eexists _, _. reflexivity.
    + unfold gemini_batch._handle_one_annotation.
      destruct (base.build_default_context w a k qt wp wd)
        as [e|[[[items q] ans] cl]]; simpl; [discriminate|].
      intros H. inversion H. right. eexists _, _. reflexivity.
Qed.

Lemma gemini_loop_appends w qt wp wd wc its : forall self self',
  for_each (gemini_batch.handle w qt wp wd wc) its self = ok self' ->
  exists used new,
    sublist used its
    /\ Forall2 (gemini_request_for w qt wp wd wc) used new
    /\ gemini_batch.batch_requests self'
       = gemini_batch.batch_requests self ++ new
    /\ gemini_frame self self'
    /\ (wc = true \/ qt <> "part_pair" -> used = its).
Proof.
  induction its as [|it its IH]; intros self self' H; simpl in H.
  - inversion H; subst. exists [], []. rewrite app_nil_r.
    repeat split; constructor.
  - destruct (gemini_batch.handle w qt wp wd wc self it) as [e|s1] eqn:Eh;
      simpl in H; [discriminate|].
    destruct (IH s1 self' H) as (used & new & Hsub & Hall & Hreq & Hfr & Hfull).
    apply gemini_handle_appends in Eh as [(-> & Hwc & Hqt) | (items & cl & ->)].
    + exists used, new. split; [constructor; exact Hsub|].
      split; [exact Hall|]. split; [exact Hreq|]. split; [exact Hfr|].
      intros [Hc | Hc]; congruence.
    + exists (it :: used),
        (gemini_batch.mkRequest (key.custom_id it.1.1 it.1.2 qt cl wp wd wc)
           (gemini_batch.encode_parts items) (system_prompt w) :: new).
      split; [constructor; exact Hsub|].
      split; [constructor; [|exact Hall]|split; [|split]].
      * exists cl. split; reflexivity.
      * rewrite Hreq. simpl. rewrite <- app_assoc. reflexivity.
      * exact Hfr.
      * intros Hc. rewrite (Hfull Hc). reflexivity.
Qed.

(** X11. The request loop of the Gemini backend only appends: after it,
    [batch_requests] is what it was before the run followed by one request
    for each handled annotation, in order, keyed with the run's question
    type and flags (page and document flags forced off for part-pair
    questions); the responses are emptied and nothing else changes.
    Except for part-pair questions with context, every yielded annotation
    gets its request. *)
Theorem prepare_requests_appends w data self question_type
    whole_page whole_doc without_context self' :
  gemini_batch.prepare_requests w data self question_type
    whole_page whole_doc without_context = ok self' ->
  let wp := if whole_page && String.eqb question_type "part_pair"
            then false else whole_page in
  let wd := if whole_doc && String.eqb question_type "part_pair"
            then false else whole_doc in
  exists used new,
    sublist used (base.iter_annotations data question_type wp wd)
    /\ Forall2 (gemini_request_for w question_type wp wd without_context)
         used new
    /\ gemini_batch.batch_requests self'
       = gemini_batch.batch_requests self ++ new
    /\ gemini_batch.responses self' = []
    /\ gemini_batch.model self' = gemini_batch.model self
    /\ gemini_batch.batch_jobs self' = gemini_batch.batch_jobs self
    /\ (without_context = true \/ question_type <> "part_pair" ->
        used = base.iter_annotations data question_type wp wd).
Proof.
  intros H. cbv zeta. unfold gemini_batch.prepare_requests in H.
  apply gemini_loop_appends in H
    as (used & new & Hsub & Hall & Hreq & Hfr & Hfull).
  destruct Hfr as (Hm & Hr & Hj & _).
  exists used, new. repeat split; assumption.
Qed.

Lemma prepare_requests_appends_witness :
  exists self',
    gemini_batch.prepare_requests sample_world
      [("p1", [sample_entry (PPDict [])])]
      (gemini_batch.mkProvider "gemini-2.0-flash" []
         [gemini_batch.mkRequest "old_0_default_A_False_False_False" [] ""]
         [] None None (1900 # 1))
      "default" false false false = ok self'
    /\ exists new,
         gemini_batch.batch_requests self'
         = [gemini_batch.mkRequest "old_0_default_A_False_False_False" [] ""]
           ++ new
         /\ length new = 1%nat.
Proof.
  destruct (gemini_batch.prepare_requests sample_world
              [("p1", [sample_entry (PPDict [])])]
              (gemini_batch.mkProvider "gemini-2.0-flash" []
                 [gemini_batch.mkRequest "old_0_default_A_False_False_False"
                    [] ""]
                 [] None None (1900 # 1))
              "default" false false false) as [e|self'] eqn:E;
    [vm_compute in E; discriminate E|].
  exists self'. split; [reflexivity|].
  destruct (prepare_requests_appends _ _ _ _ _ _ _ _ E)
    as (used & new & _ & Hall & Hreq & _ & _ & _ & Hfull).
  exists new. split; [exact Hreq|].
  rewrite <- (Forall2_length _ _ _ Hall), Hfull; [reflexivity|].
  right. discriminate.
Defined.

End PrepareFacts.

(** ** Reconciling the results of a Gemini run *)

Section ReconcileFacts.

(** The lines of the output file of a job. *)
Definition downloaded (r : gemini_batch.remote) (j : gemini_batch.job)
  : list gemini_batch.result_line :=
  match gemini_batch.dest_file_name
          (gemini_batch.batches_get r (gemini_batch.batch_name j)) with
  | Some f => gemini_batch.files_download r f
  | None => []
  end.

Lemma gemini_fetch_ready r jobs : forall acc,
  Forall (gemini_ready r) jobs ->
  gemini_batch.fetch_all r jobs acc = ok (acc ++ flat_map (downloaded r) jobs).
Proof.
  induction jobs as [|j jobs IH]; intros acc Hall; simpl.
  - rewrite app_nil_r. reflexivity.
  - apply Forall_cons in Hall as [[Hs (f & Hf & Hne)] Hall].
    unfold gemini_succeeded in Hs. unfold downloaded at 1.
    rewrite Hs, Hf, (truthy_str_true f Hne). simpl.
    rewrite (IH _ Hall), <- app_assoc. reflexivity.
Qed.

Lemma gemini_fetch_ok r jobs : forall acc lines,
  gemini_batch.fetch_all r jobs acc = ok lines -> Forall (gemini_ready r) jobs.
Proof.
  induction jobs as [|j jobs IH]; intros acc lines H; [constructor|].
  simpl in H.
  destruct (String.eqb_spec
              (gemini_batch.state_name
                 (gemini_batch.batches_get r (gemini_batch.batch_name j)))
              "JOB_STATE_SUCCEEDED") as [E|E]; simpl in H; [|discriminate].
  destruct (gemini_batch.dest_file_name _) as [f|] eqn:Ef; [|discriminate].
  destruct (truthy_str f) eqn:Et; [|discriminate].
  constructor; [|apply (IH _ _ H)].
  split; [exact E|]. exists f. split; [exact Ef|].
  apply truthy_str_nonempty. exact Et.
Qed.

(** What [write_results] has done when it returns. *)
Lemma write_results_ok {response} w (responses : list response)
    model_id question_type wp wd wc events path :
  base.write_results w responses model_id question_type wp wd wc
  = ok (events, path) ->
  events
  = [base.EvWriteResults
       (base.results_file w model_id question_type wp wd wc) responses]
  /\ path = base.results_file w model_id question_type wp wd wc.
Proof.
  unfold base.write_results.
  destruct (base.makedirs _) as [e|[]]; simpl; [discriminate|].
  intros H. inversion H. split; reflexivity.
Qed.

(** The response appended for a line. *)
Definition response_of (line : gemini_batch.result_line)
    (resp : batch.response) : Prop :=
  exists d, gemini_batch.score_line line = ok (resp, d).

Lemma gemini_score_all lines : forall responses last0 responses' last',
  gemini_batch.score_all lines responses last0 = ok (responses', last') ->
  exists new,
    responses' = responses ++ new
    /\ Forall2 response_of lines new
    /\ match last lines with
       | Some line =>
           exists resp d,
             gemini_batch.score_line line = ok (resp, d) /\ last' = Some d
       | None => last' = last0
       end.
Proof.
  induction lines as [|line lines IH];
    intros responses last0 responses' last' H.
  - simpl in H. inversion H; subst. exists []. rewrite app_nil_r.
    split; [reflexivity|]. split; [constructor | reflexivity].
  - simpl in H.
    destruct (gemini_batch.score_line line) as [e|[resp d]] eqn:Es;
      simpl in H; [discriminate|].
    destruct (IH _ _ _ _ H) as (new & -> & Hall & Hlast).
    exists (resp :: new). rewrite <- app_assoc. split; [reflexivity|].
    split; [constructor; [eexists; exact Es | exact Hall]|].
    rewrite last_cons. destruct (last lines) as [l2|]; [exact Hlast|].
    exists resp, d. split; [exact Es | exact Hlast].
Qed.

(** X12. When [get_batch_results] of the Gemini backend returns, every job
    had succeeded with an output file, there was at least one result line,
    the responses are the scored lines of all jobs in job order, one per
    line, and exactly one results file was written: it holds these
    responses and is named after the model and the question type and flags
    found in the key of the last line. *)
Theorem get_batch_results_success w r self events self' :
  gemini_batch.get_batch_results w r self = (events, ok self') ->
  exists jobs d,
    gemini_batch.batch_jobs_to_process self = ok jobs
    /\ Forall (gemini_ready r) jobs
    /\ Forall2 response_of (flat_map (downloaded r) jobs)
         (gemini_batch.responses self')
    /\ (exists line resp,
          last (flat_map (downloaded r) jobs) = Some line
          /\ gemini_batch.score_line line = ok (resp, d))
    /\ events
       = [base.EvWriteResults
            (base.results_file w (gemini_batch.model self)
               (key.d_question_type d) (key.d_whole_page d)
               (key.d_whole_doc d) (key.d_without_context d))
            (gemini_batch.responses self')]
    /\ gemini_batch.batch_requests self' = gemini_batch.batch_requests self
    /\ gemini_batch.batch_jobs self' = gemini_batch.batch_jobs self.
Proof.
  unfold gemini_batch.get_batch_results.
  destruct (gemini_batch.batch_jobs_to_process self) as [e|jobs]; simpl;
    [discriminate|].
  destruct (gemini_batch.fetch_all r jobs []) as [e|lines] eqn:Ef; simpl;
    [discriminate|].
  pose proof (gemini_fetch_ok r jobs _ _ Ef) as Hready.
  rewrite (gemini_fetch_ready r jobs [] Hready) in Ef. simpl in Ef.
  inversion Ef; subst lines. clear Ef.
  destruct (gemini_batch.score_all _ [] None) as [e|[responses last]] eqn:Es;
    simpl; [discriminate|].
  destruct last as [d|]; simpl; [|discriminate].
  destruct (base.write_results w responses _ _ _ _ _) as [e|[ev pth]] eqn:Ew;
    [discriminate|].
  apply write_results_ok in Ew as [-> _].
  intros H. inversion H; subst. clear H.
  apply gemini_score_all in Es as (new & -> & Hall & Hlast).
  exists jobs, d. split; [reflexivity|]. split; [exact Hready|].
  split; [exact Hall|]. split; [|repeat split].
  destruct (last (flat_map (downloaded r) jobs)) as [line|];
    [|discriminate Hlast].
  destruct Hlast as (resp & d' & Hs & Hd). inversion Hd; subst d'.
  exists line, resp. split; [reflexivity | exact Hs].
Qed.

(** X13. With every job succeeded and naming its output file (a name that
    is not empty), [get_batch_results]
    still raises and writes nothing when the output files hold no line at
    all (the flags are read from loop variables that were never bound) or
    when the key of some line cannot be decoded. *)
Theorem get_batch_results_no_file w r self jobs :
  gemini_batch.batch_jobs_to_process self = ok jobs ->
  Forall (gemini_ready r) jobs ->
  (flat_map (downloaded r) jobs = [] ->
   gemini_batch.get_batch_results w r self
   = ([], raise (UnboundLocalError
                   "cannot access local variable 'whole_page'")))
  /\ ((exists line e,
         line ∈ flat_map (downloaded r) jobs
         /\ key.decode (gemini_batch.line_key line) = raise e) ->
      exists e, gemini_batch.get_batch_results w r self = ([], raise e)).
Proof.
  intros Hjobs Hready. unfold gemini_batch.get_batch_results.
  rewrite Hjobs. simpl. rewrite (gemini_fetch_ready r jobs [] Hready). simpl.
  split.
  - intros ->. reflexivity.
  - intros (line & e & Hin & Hbad).
    assert (Hfail : forall lines responses last,
              line ∈ lines ->
              exists e', gemini_batch.score_all lines responses last = raise e').
    { induction lines as [|l1 lines IH]; intros responses last Hl.
      - apply elem_of_nil in Hl. contradiction.
      - simpl. destruct (gemini_batch.score_line l1) as [e1|[resp d]] eqn:Es;
          simpl; [eexists; reflexivity|].
        apply elem_of_cons in Hl as [-> | Hl]; [|apply IH; exact Hl].
        unfold gemini_batch.score_line in Es. rewrite Hbad in Es. discriminate. }
    destruct (Hfail _ [] None Hin) as [e' He']. rewrite He'. simpl.
    eexists. reflexivity.
Qed.

(** A remote service with one succeeded job whose output has the given
    lines. *)
Definition one_job_remote (lines : list gemini_batch.result_line)
  : gemini_batch.remote :=
  {| gemini_batch.json_dumps_len := fun _ => 1%nat;
     gemini_batch.create_batch := fun _ _ => raise (ValueError "not used");
     gemini_batch.batches_get :=
       fun _ => gemini_batch.mkBatchResponse "JOB_STATE_SUCCEEDED" (Some "out");
     gemini_batch.files_download := fun _ => lines |}.

Definition one_job_provider : gemini_batch.provider :=
  gemini_batch.mkProvider "gemini-2.0-flash" [] [] []
    (Some "files/f1") (Some "batches/j1") (1900 # 1).

Lemma get_batch_results_no_file_witness :
  gemini_batch.batch_jobs_to_process one_job_provider
  = ok [gemini_batch.mkJob "files/f1" "batches/j1"]
  /\ Forall (gemini_ready (one_job_remote []))
       [gemini_batch.mkJob "files/f1" "batches/j1"]
  /\ gemini_batch.get_batch_results sample_world (one_job_remote [])
       one_job_provider
     = ([], raise (UnboundLocalError
                     "cannot access local variable 'whole_page'")).
Proof.
  assert (Hr : Forall (gemini_ready (one_job_remote []))
                 [gemini_batch.mkJob "files/f1" "batches/j1"]).
  { constructor; [|constructor]. split; [reflexivity|].
    exists "out". split; [reflexivity | discriminate]. }
  split; [reflexivity|]. split; [exact Hr|].
  exact (proj1 (get_batch_results_no_file sample_world (one_job_remote [])
                  one_job_provider _ eq_refl Hr) eq_refl).
Defined.

Lemma get_batch_results_success_witness :
  exists events self',
    gemini_batch.get_batch_results sample_world
      (one_job_remote
         [gemini_batch.mkResultLine "p1_0_default_A_True_False_False" None])
      one_job_provider = (events, ok self')
    /\ events
       = [base.EvWriteResults "results/gemini-2.0-flash_default_fullpage.json"
            [batch.mkResponse "p1" "0" "default" "A" None false]].
Proof.
  destruct (gemini_batch.get_batch_results sample_world
              (one_job_remote
                 [gemini_batch.mkResultLine "p1_0_default_A_True_False_False"
                    None])
              one_job_provider) as [events [e|self']] eqn:E;
    [vm_compute in E; discriminate E|].
  exists events, self'. split; [reflexivity|].
  destruct (get_batch_results_success _ _ _ _ _ E)
    as (jobs & d & _ & _ & _ & _ & Hev & _).
  vm_compute in E. inversion E. reflexivity.
Defined.

End ReconcileFacts.

(** ** A run of the synchronous backend *)

Section ClusterFacts.

Lemma normalize_fixed text :
  scoring.normalize (scoring.normalize text) = scoring.normalize text.
Proof.
  destruct (strip_spec scoring.strip_chars text)
    as (l & r & _ & _ & _ & Hh & Hl).
  apply upper_head_out in Hh. apply upper_last_out in Hl.
  fold (scoring.normalize text) in Hh, Hl.
  unfold scoring.normalize at 1. unfold Py.strip.
  rewrite (lstrip_fixed _ _ Hh), (rstrip_fixed _ _ Hl).
  apply upper_idem.
Qed.

(** Whether the run treats the model as a reasoning model: the flag of
    the provider, or the loader of its model sets it. *)
Definition run_reasoning (self : cluster.provider) : bool :=
  cluster.self_reasoning self
  || match cluster.lookup_model (cluster.model self) cluster.model_map with
     | Some load => cluster.sets_reasoning load
     | None => false
     end.

(** The part of the generated text that is scored: for a reasoning model
    what follows the first closing think tag, if there is one. *)
Definition answer_text (reasoning : bool) (full_text : string) : string :=
  if reasoning then
    match cluster.split_once "</think>" full_text with
    | Some (_, final_part) => final_part
    | None => full_text
    end
  else full_text.

(** The reasoning recorded with a response. *)
Definition thinking_text (reasoning : bool) (full_text : string)
  : option string :=
  if reasoning then
    match cluster.split_once "</think>" full_text with
    | Some (thinking_part, _) =>
        Some (Py.strip cluster.isspace_chars
                (cluster.remove_all "<think>" thinking_part))
    | None => None
    end
  else None.

(** The response recorded for an annotation by a run that started from
    [self]: it carries the annotation's id and index; some context was sent
    to the model, with the token limit of the run, and the prediction is
    the normalized answer part of the generated text; the verdict is the
    comparison of prediction and correct letter. *)
Definition cluster_response_for (llm : cluster.engine) (self : cluster.provider)
    (it : string * nat * AnnotationEntry) (resp : cluster.response) : Prop :=
  cluster.id resp = it.1.1
  /\ cluster.idx resp = it.1.2
  /\ scoring.normalize (cluster.prediction resp) = cluster.prediction resp
  /\ cluster.is_correct resp
     = String.eqb (cluster.prediction resp) (cluster.correct_letter resp)
  /\ exists items include_images full_text,
       llm (cluster.model self) items
         (if run_reasoning self then 16384 else 10) include_images
       = ok full_text
       /\ cluster.prediction resp
          = scoring.normalize (answer_text (run_reasoning self) full_text)
       /\ cluster.reasoning resp = thinking_text (run_reasoning self) full_text.

Lemma run_reasoning_fixed self responses :
  run_reasoning
    (cluster.mkProvider (cluster.model self) (run_reasoning self) responses)
  = run_reasoning self.
Proof.
  unfold run_reasoning. cbn [cluster.self_reasoning cluster.model].
  destruct (cluster.self_reasoning self); cbn [orb]; [reflexivity|].
  destruct (cluster.lookup_model (cluster.model self) cluster.model_map)
    as [load|]; [|reflexivity].
  destruct (cluster.sets_reasoning load); reflexivity.
Qed.

Lemma cluster_run_inference llm self id idx items cl img self' :
  cluster._run_inference llm self id idx items cl img = ok self' ->
  exists resp,
    self' = cluster.mkProvider (cluster.model self) (run_reasoning self)
              (cluster.responses self ++ [resp])
    /\ cluster.id resp = id /\ cluster.idx resp = idx
    /\ cluster.correct_letter resp = cl
    /\ scoring.normalize (cluster.prediction resp) = cluster.prediction resp
    /\ cluster.is_correct resp
       = String.eqb (cluster.prediction resp) (cluster.correct_letter resp)
    /\ exists full_text,
         llm (cluster.model self) items
           (if run_reasoning self then 16384 else 10) img = ok full_text
         /\ cluster.prediction resp
            = scoring.normalize (answer_text (run_reasoning self) full_text)
         /\ cluster.reasoning resp
            = thinking_text (run_reasoning self) full_text.
Proof.
  unfold cluster._run_inference, run_reasoning, answer_text, thinking_text.
  destruct (cluster.lookup_model (cluster.model self) cluster.model_map)
    as [load|]; [|discriminate].
  set (R := cluster.self_reasoning self || cluster.sets_reasoning load).
  destruct (llm (cluster.model self) items (if R then 16384 else 10) img)
    as [e|full_text] eqn:El; simpl; [discriminate|].
  intros H. injection H as <-.
  destruct R.
  - destruct (cluster.split_once "</think>" full_text)
      as [[thinking_part final_part]|] eqn:Es;
      (eexists; split; [reflexivity|]; simpl;
       repeat split; try apply normalize_fixed;
       exists full_text; rewrite Es; repeat split; reflexivity).
  - eexists. split; [reflexivity|]. simpl.
    repeat split; try apply normalize_fixed.
    exists full_text. repeat split; reflexivity.
Qed.

Lemma cluster_handle_appends w llm qt wp wd wc self it self' :
  cluster.handle w llm qt wp wd wc self it = ok self' ->
  (self' = self /\ wc = false /\ qt = "part_pair")
  \/ exists resp,
       self' = cluster.mkProvider (cluster.model self) (run_reasoning self)
                 (cluster.responses self ++ [resp])
       /\ cluster_response_for llm self it resp.
Proof.
  destruct it as [[k i] a]. unfold cluster.handle.
  assert (Hrun : forall items cl img,
            cluster._run_inference llm self k i items cl img = ok self' ->
            exists resp,
              self' = cluster.mkProvider (cluster.model self)
                        (run_reasoning self)
                        (cluster.responses self ++ [resp])
              /\ cluster_response_for llm self (k, i, a) resp).
  { intros items cl img H.
    apply cluster_run_inference in H
      as (resp & -> & Hid & Hidx & _ & Hn & Hc & full_text & Hl & Hp & Hr).
    exists resp. split; [reflexivity|].
    split; [exact Hid|]. split; [exact Hidx|]. split; [exact Hn|].
    split; [exact Hc|]. exists items, img, full_text. auto. }
  destruct wc.
  - destruct (String.eqb qt "part_pair"); [discriminate|].
    unfold cluster._handle_one_annotation_without_context.
    destruct (base.build_without_context w a qt) as [e|[[[items q] ans] cl]];
      simpl; [discriminate|].
    intros H. right. eapply Hrun. exact H.
  - destruct (String.eqb_spec qt "part_pair") as [E|E].
    + unfold cluster._handle_one_part_pair_annotation.
      destruct (base.build_part_pair_context w a k) as [e|[items cl]];
        simpl; [discriminate|].
      destruct items as [|x items]; intros H.
      * inversion H. left. repeat split. exact E.
      * right. eapply Hrun. exact H.
    + unfold cluster._handle_one_annotation.
      destruct (base.build_default_context w a k qt wp wd)
        as [e|[[[items q] ans] cl]]; simpl; [discriminate|].
      intros H. right. eapply Hrun. exact H.
Qed.

Lemma cluster_response_for_ext llm self1 self2 it resp :
  cluster.model self1 = cluster.model self2 ->
  run_reasoning self1 = run_reasoning self2 ->
  cluster_response_for llm self1 it resp ->
  cluster_response_for llm self2 it resp.
Proof.
  unfold cluster_response_for. intros <- <-. exact (fun H => H).
Qed.

Lemma cluster_loop_appends w llm qt wp wd wc its : forall self self',
  for_each (cluster.handle w llm qt wp wd wc) its self = ok self' ->
  exists used new,
    sublist used its
    /\ Forall2 (cluster_response_for llm self) used new
    /\ cluster.responses self' = cluster.responses self ++ new
    /\ cluster.model self' = cluster.model self
    /\ (qt <> "part_pair" -> used = its)
    /\ cluster.self_reasoning self'
       = (if bool_decide (used = []) then cluster.self_reasoning self
          else run_reasoning self).
Proof.
  induction its as [|it its IH]; intros self self' H; simpl in H.
  - inversion H; subst. exists [], []. rewrite app_nil_r.
    repeat split; constructor.
  - destruct (cluster.handle w llm qt wp wd wc self it) as [e|s1] eqn:Eh;
      simpl in H; [discriminate|].
    destruct (IH s1 self' H)
      as (used & new & Hsub & Hall & Hresp & Hm & Hfull & Hflag).
    apply cluster_handle_appends in Eh
      as [(-> & Hwc & Hqt) | (resp & -> & Hfor)].
    + exists used, new. split; [constructor; exact Hsub|].
      repeat split; try assumption. intros Hc. congruence.
    + exists (it :: used), (resp :: new). split; [constructor; exact Hsub|].
      split; [|split; [|split; [|split]]].
      * constructor; [exact Hfor|].
        eapply Forall2_impl; [exact Hall|].
        intros it' resp'. apply cluster_response_for_ext; [reflexivity|].
        apply run_reasoning_fixed.
      * rewrite Hresp. simpl. rewrite <- app_assoc. reflexivity.
      * exact Hm.
      * intros Hc. rewrite (Hfull Hc). reflexivity.
      * rewrite Hflag, run_reasoning_fixed. simpl.
        destruct (bool_decide (used = [])); reflexivity.
Qed.

(** X14. When a run of the synchronous backend returns, it has written
    exactly one results file, named after the model, question type and
    flags of the run, holding the responses of this run only (what the
    provider held before is discarded): one response per handled
    annotation, in order, with that annotation's id and index, a
    normalized prediction and a verdict that is the comparison of the
    prediction with the correct letter.  The prediction is the normalized
    text generated for the annotation; for a reasoning model (the loaders
    of InternVL3.5 and GLM set the flag) it is the normalized text after
    the first closing think tag, and what precedes the tag is recorded as
    the reasoning.  For every question type other than part-pair, every
    yielded annotation has its response. *)
Theorem cluster_run_responses w llm data self question_type
    whole_page whole_doc without_context events self' :
  cluster.run_mcq_inference w llm data self question_type
    whole_page whole_doc without_context = (events, ok self') ->
  events
  = [base.EvWriteResults
       (base.results_file w (cluster.model self) question_type
          whole_page whole_doc without_context)
       (cluster.responses self')]
  /\ cluster.model self' = cluster.model self
  /\ exists used,
       sublist used (base.iter_annotations data question_type
                       whole_page whole_doc)
       /\ Forall2 (cluster_response_for llm self) used
            (cluster.responses self')
       /\ (question_type <> "part_pair" ->
           used = base.iter_annotations data question_type
                    whole_page whole_doc)
       /\ cluster.self_reasoning self'
          = (if bool_decide (used = []) then cluster.self_reasoning self
             else run_reasoning self).
Proof.
  unfold cluster.run_mcq_inference.
  destruct (for_each _ _ _) as [e|s1] eqn:El; [discriminate|].
  apply cluster_loop_appends in El
    as (used & new & Hsub & Hall & Hresp & Hm & Hfull & Hflag).
  simpl in Hresp, Hm, Hflag. subst new.
  destruct (base.write_results w _ _ _ _ _ _) as [e|[ev pth]] eqn:Ew;
    [discriminate|].
  apply write_results_ok in Ew as [-> _].
  intros H. inversion H; subst. rewrite Hm.
  split; [reflexivity|]. split; [reflexivity|].
  exists used. split; [exact Hsub|]. split; [|split; [exact Hfull|]].
  - eapply Forall2_impl; [exact Hall|].
    intros it resp. apply cluster_response_for_ext; reflexivity.
  - exact Hflag.
Qed.

(** A model that thinks aloud before it answers. *)
Definition thinking_engine : cluster.engine :=
  fun _ _ _ _ => ok "<think> the totals differ </think> b) ".

Lemma cluster_run_responses_witness :
  cluster.run_mcq_inference sample_world thinking_engine
    [("p1", [sample_entry (PPDict [])])]
    (cluster.mkProvider "zai-org/GLM-4.5V-FP8" false
       [cluster.mkResponse "old" 7 "A" "A" true None])
    "default" false false false
  = ([base.EvWriteResults "results/zai-org-GLM-4.5V-FP8_default.json"
        [cluster.mkResponse "p1" 0 "B" "B" true (Some "the totals differ")]],
     ok (cluster.mkProvider "zai-org/GLM-4.5V-FP8" true
           [cluster.mkResponse "p1" 0 "B" "B" true
              (Some "the totals differ")]))
  /\ exists used,
       Forall2 (cluster_response_for thinking_engine
                  (cluster.mkProvider "zai-org/GLM-4.5V-FP8" false
                     [cluster.mkResponse "old" 7 "A" "A" true None]))
         used
         [cluster.mkResponse "p1" 0 "B" "B" true (Some "the totals differ")].
Proof.
  assert (H : cluster.run_mcq_inference sample_world thinking_engine
                [("p1", [sample_entry (PPDict [])])]
                (cluster.mkProvider "zai-org/GLM-4.5V-FP8" false
                   [cluster.mkResponse "old" 7 "A" "A" true None])
                "default" false false false
              = ([base.EvWriteResults
                    "results/zai-org-GLM-4.5V-FP8_default.json"
                    [cluster.mkResponse "p1" 0 "B" "B" true
                       (Some "the totals differ")]],
                 ok (cluster.mkProvider "zai-org/GLM-4.5V-FP8" true
                       [cluster.mkResponse "p1" 0 "B" "B" true
                          (Some "the totals differ")])))
    by (vm_compute; reflexivity).
  split; [exact H|].
  destruct (cluster_run_responses _ _ _ _ _ _ _ _ _ _ H)
    as (_ & _ & used & _ & Hall & _).
  exists used. exact Hall.
Defined.

End ClusterFacts.

(** ** More on the results file *)

Section ResultsFileMore.

Lemma results_file_split w model_id question_type :
  exists pre,
    (forall wp wd wc,
       base.results_file w model_id question_type wp wd wc
       = pre +:+ ((if wp then "_fullpage" else "")
                  +:+ (if wd then "_wholedoc" else "")
                  +:+ (if wc then "_without_context" else "")
                  +:+ ".json")).
Proof.
  set (M := Py.replace "_" "-" (Py.replace "/" "-" model_id)).
  set (Q := Py.replace "_" "-" question_type).
  assert (Hstart : forall x, Py.startswith "/" (M +:+ "_" +:+ Q +:+ x) = false).
  { intros x. apply startswith_app_free; [|reflexivity].
    apply replace_keeps_free; [discriminate|]. apply replace_free. discriminate. }
  assert (Happ : forall a b c : string, (a +:+ b) +:+ c = a +:+ b +:+ c).
  { intros a b c. induction a as [|x a IH]; [reflexivity|].
    change (String x ((a +:+ b) +:+ c) = String x (a +:+ b +:+ c)).
    rewrite IH. reflexivity. }
  destruct (String.eqb (getenv (RESULTS_DIR w) "results") ""
            || Py.endswith "/" (getenv (RESULTS_DIR w) "results")) eqn:E.
  - exists (getenv (RESULTS_DIR w) "results" +:+ M +:+ "_" +:+ Q).
    intros wp' wd' wc'. unfold base.results_file, Py.path_join.
    fold M Q. rewrite Hstart, E. rewrite !Happ. reflexivity.
  - exists (getenv (RESULTS_DIR w) "results" +:+ "/" +:+ M +:+ "_" +:+ Q).
    intros wp' wd' wc'. unfold base.results_file, Py.path_join.
    fold M Q. rewrite Hstart, E. rewrite !Happ. reflexivity.
Qed.

(** X15. Runs of the same model and question type that differ in a flag
    write to different results files. *)
Theorem results_file_flags_injective w model_id question_type
    wp wd wc wp' wd' wc' :
  (wp, wd, wc) <> (wp', wd', wc') ->
  base.results_file w model_id question_type wp wd wc
  <> base.results_file w model_id question_type wp' wd' wc'.
Proof.
  intros Hne Heq.
  destruct (results_file_split w model_id question_type) as [pre Hpre].
  rewrite !Hpre in Heq. apply String.app_inj in Heq.
  apply Hne.
  destruct wp, wd, wc, wp', wd', wc'; try reflexivity;
    vm_compute in Heq; discriminate Heq.
Qed.

Lemma results_file_flags_injective_witness :
  (true, false, false) <> (false, true, false)
  /\ base.results_file sample_world "gpt-5" "edit" true false false
     <> base.results_file sample_world "gpt-5" "edit" false true false.
Proof.
  assert (H : (true, false, false) <> (false, true, false)) by discriminate.
  split; [exact H|].
  exact (results_file_flags_injective sample_world "gpt-5" "edit"
           true false false false true false H).
Defined.




End ResultsFileMore.

(** ** Where the merged results go *)

Section MergedPathFacts.

Import helpers.

Lemma str_app_assoc (a b c : string) : (a +:+ b) +:+ c = a +:+ b +:+ c.
Proof.
  induction a as [|x a IH]; [reflexivity|].
  change (String x ((a +:+ b) +:+ c) = String x (a +:+ b +:+ c)).
  rewrite IH. reflexivity.
Qed.

Lemma str_app_cons x (a b : string) : String x a +:+ b = String x (a +:+ b).
Proof. reflexivity. Qed.

Lemma head_upto_slash_free b : free_of "/" b -> Py.head_upto_slash b = "".
Proof.
  induction b as [|c b IH]; intros H; simpl; [reflexivity|].
  apply free_of_cons in H as [Hc Hb]. rewrite (IH Hb).
  apply Ascii.eqb_neq in Hc. rewrite Hc. reflexivity.
Qed.

Lemma head_upto_slash_app a b :
  free_of "/" b ->
  Py.head_upto_slash (a +:+ String "/" b) = a +:+ "/".
Proof.
  intros Hb. induction a as [|c a IH].
  - change (Py.head_upto_slash (String "/" b) = "/"). simpl.
    rewrite (head_upto_slash_free b Hb). reflexivity.
  - rewrite !str_app_cons. simpl. rewrite IH.
    destruct a; reflexivity.
Qed.

Lemma all_in_snoc chars s :
  all_in chars s -> s <> "" -> exists s' c, s = s' +:+ String c "" /\ Py.mem c chars = true.
Proof.
  induction s as [|x s IH]; intros Hall Hne; [contradiction|].
  apply Forall_cons in Hall as [Hx Hall].
  destruct s as [|y s].
  - exists "", x. split; [reflexivity | exact Hx].
  - destruct (IH Hall) as (s' & c & E & Hc); [discriminate|].
    exists (String x s'), c. rewrite str_app_cons, <- E. split; [reflexivity | exact Hc].
Qed.

Lemma rstrip_empty_all chars s : Py.rstrip chars s = "" -> all_in chars s.
Proof.
  intros E. destruct (rstrip_spec chars s) as (r & Hs & Hr & _).
  rewrite E in Hs. change (s = r) in Hs. subst r. exact Hr.
Qed.

Lemma rstrip_snoc_in chars s c :
  Py.mem c chars = true ->
  Py.rstrip chars (s +:+ String c "") = Py.rstrip chars s.
Proof.
  intros Hc. induction s as [|x s IH].
  - change (Py.rstrip chars (String c "") = ""). simpl. rewrite Hc. reflexivity.
  - rewrite str_app_cons. simpl. rewrite IH. reflexivity.
Qed.

Lemma last_out_not_endswith s :
  last_out "/" s -> Py.endswith "/" s = false.
Proof.
  induction s as [|x s IH]; [reflexivity|].
  destruct s as [|y s].
  - simpl. unfold Py.mem. simpl. intros H.
    apply orb_false_iff in H as [H _]. exact H.
  - intros H. apply IH in H. exact H.
Qed.

Lemma endswith_snoc s : Py.endswith "/" (s +:+ "/") = true.
Proof.
  induction s as [|x s IH]; [reflexivity|].
  rewrite str_app_cons.
  change (Py.endswith "/" (String x (s +:+ "/")))
    with (match s +:+ "/" with
          | EmptyString => Ascii.eqb x "/"
          | _ => Py.endswith "/" (s +:+ "/")
          end).
  destruct (s +:+ "/") eqn:E; [destruct s; discriminate E | exact IH].
Qed.

Lemma mem_slash c : Py.mem c "/" = true -> c = "/"%char.
Proof.
  unfold Py.mem. simpl. rewrite orb_false_r. apply Ascii.eqb_eq.
Qed.

(** [os.path.dirname] undoes the join of a directory it produced with a
    file name. *)
Lemma dirname_join_dirname p b :
  free_of "/" b -> b <> "" ->
  Py.dirname (Py.path_join (Py.dirname p) b) = Py.dirname p.
Proof.
  intros Hb Hbne.
  assert (Hstart : Py.startswith "/" b = false).
  { destruct b as [|c b]; [contradiction|].
    apply free_of_cons in Hb as [Hc _]. simpl. apply Ascii.eqb_neq. exact Hc. }
  unfold Py.dirname at 2 3.
  destruct (Py.rstrip "/" (Py.head_upto_slash p)) as [|h0 h] eqn:Er.
  - (* the head is empty or slashes only *)
    destruct (Py.head_upto_slash p) as [|x hd] eqn:Eh.
    + unfold Py.path_join. rewrite Hstart. simpl.
      change ("" +:+ b) with b.
      unfold Py.dirname. rewrite (head_upto_slash_free b Hb). reflexivity.
    + pose proof (rstrip_empty_all _ _ Er) as Hall.
      destruct (all_in_snoc _ _ Hall) as (s' & c & E & Hc); [discriminate|].
      apply mem_slash in Hc. subst c.
      unfold Py.path_join. rewrite Hstart, E, endswith_snoc, orb_true_r.
      unfold Py.dirname. rewrite str_app_assoc.
      change ("/" +:+ b) with (String "/" b).
      rewrite (head_upto_slash_app s' b Hb), <- E, Er. reflexivity.
  - (* the head with its trailing slashes removed *)
    destruct (rstrip_spec "/" (Py.head_upto_slash p)) as (r & _ & _ & Hlast).
    rewrite Er in Hlast.
    unfold Py.path_join.
    rewrite Hstart, (last_out_not_endswith _ Hlast). simpl.
    unfold Py.dirname.
    change (String h0 h +:+ "/" +:+ b) with (String h0 h +:+ String "/" b).
    rewrite (head_upto_slash_app (String h0 h) b Hb).
    rewrite (rstrip_snoc_in "/" (String h0 h) "/" eq_refl).
    rewrite (rstrip_fixed _ _ Hlast). reflexivity.
Qed.

(** X17. The file [merge_binary_results] writes lies in the directory of
    its first argument: the directory part of the returned path is the
    directory part of [binary_file_1], and its last component is
    [merged_results.json]. *)
Theorem merged_results_sibling w (fs : files) binary_file_1 binary_file_2
    events output_path :
  merge_binary_results w fs binary_file_1 binary_file_2
  = (events, ok output_path) ->
  Py.dirname output_path = Py.dirname binary_file_1
  /\ exists dir, output_path = dir +:+ "merged_results.json"
                 /\ (dir = "" \/ Py.endswith "/" dir = true).
Proof.
  unfold merge_binary_results.
  destruct (negb _); [discriminate|].
  destruct (fs !! binary_file_1) as [results1|]; [|discriminate].
  destruct (fs !! binary_file_2) as [results2|]; [|discriminate].
  destruct (merge results1 results2) as [e|merged]; [discriminate|].
  intros H. inversion H; subst. split.
  - apply dirname_join_dirname; [reflexivity | discriminate].
  - unfold Py.path_join. simpl.
    destruct (String.eqb_spec (Py.dirname binary_file_1) "") as [E|E]; simpl.
    + exists "". rewrite E. split; [reflexivity | left; reflexivity].
    + destruct (Py.endswith "/" (Py.dirname binary_file_1)) eqn:Ee.
      * exists (Py.dirname binary_file_1). split; [reflexivity | right; exact Ee].
      * exists (Py.dirname binary_file_1 +:+ "/").
        rewrite str_app_assoc. split; [reflexivity|].
        right. apply endswith_snoc.
Qed.

Lemma merged_results_sibling_witness :
  merge_binary_results sample_world sample_files
    "runs/a/consistent.json" "runs/a/inconsistent.json"
  = ([EvOpenRead "runs/a/consistent.json";
      EvOpenRead "runs/a/inconsistent.json";
      EvLoad "runs/a/consistent.json"; EvLoad "runs/a/inconsistent.json";
      EvDump "runs/a/merged_results.json"
        [mkMergedResult "p1" (IdxInt 0) "AB" "AC" false]],
     ok "runs/a/merged_results.json")
  /\ Py.dirname "runs/a/merged_results.json"
     = Py.dirname "runs/a/consistent.json".
Proof.
  assert (H : merge_binary_results sample_world sample_files
                "runs/a/consistent.json" "runs/a/inconsistent.json"
              = ([EvOpenRead "runs/a/consistent.json";
                  EvOpenRead "runs/a/inconsistent.json";
                  EvLoad "runs/a/consistent.json";
                  EvLoad "runs/a/inconsistent.json";
                  EvDump "runs/a/merged_results.json"
                    [mkMergedResult "p1" (IdxInt 0) "AB" "AC" false]],
                 ok "runs/a/merged_results.json"))
    by (vm_compute; reflexivity).
  split; [exact H|].
  exact (proj1 (merged_results_sibling _ _ _ _ _ _ H)).
Defined.

End MergedPathFacts.

(** ** More on merging binary results *)

Section MergeMore.

Import helpers.

Lemma merge_loop_items lk rs : forall acc out,
  merge_loop lk rs acc = ok out ->
  exists ms, out = acc ++ ms
             /\ Forall2 (fun it m => merge_item lk it = ok m) rs ms.
Proof.
  induction rs as [|it rs IH]; intros acc out H; simpl in H.
  - inversion H; subst. exists []. rewrite app_nil_r. split; [reflexivity|constructor].
  - destruct (merge_item lk it) as [e|m] eqn:Em; simpl in H; [discriminate|].
    destruct (IH _ _ H) as (ms & -> & Hall).
    exists (m :: ms). rewrite <- app_assoc. split; [reflexivity|].
    constructor; assumption.
Qed.

Lemma merge_item_pair results2 item1 m :
  merge_item (results_lookup results2) item1 = ok m ->
  merged_pair results2 item1 m.
Proof.
  unfold merge_item. rewrite results_lookup_counterpart. fold (key_of item1).
  destruct (counterpart results2 (key_of item1)) as [item2|] eqn:Ec;
    [|discriminate].
  destruct (r_prediction item1) as [p1|] eqn:E1; simpl; [|discriminate].
  destruct (r_prediction item2) as [p2|] eqn:E2; simpl; [|discriminate].
  intros H. inversion H. exists item2, p1, p2. repeat split; assumption.
Qed.

Lemma str_app_eq_length (a b c d : string) :
  a +:+ b = c +:+ d -> String.length a = String.length c -> a = c /\ b = d.
Proof.
  revert c. induction a as [|x a IH]; intros [|y c] H Hlen; try discriminate.
  - split; [reflexivity | exact H].
  - change (String x (a +:+ b) = String y (c +:+ d)) in H.
    inversion H; subst. simpl in Hlen.
    destruct (IH c) as [-> ->]; [assumption | lia | split; reflexivity].
Qed.

(** X18. A merged record is correct exactly when both sub-answers are,
    provided the first prediction is as long as the first correct letter
    (as it is for single letters): then the equality of the two
    concatenations is the conjunction of the two equalities. *)
Theorem merge_and_semantics results1 results2 merged :
  merge results1 results2 = ok merged ->
  Forall2
    (fun item1 m =>
       exists item2 p1 p2,
         counterpart results2 (key_of item1) = Some item2
         /\ r_prediction item1 = Some p1
         /\ r_prediction item2 = Some p2
         /\ (String.length p1 = String.length (r_correct_letter item1) ->
             (m_is_correct m = true
              <-> p1 = r_correct_letter item1 /\ p2 = r_correct_letter item2)))
    results1 merged.
Proof.
  unfold merge. intros H.
  apply merge_loop_items in H as (ms & -> & Hall). simpl.
  eapply Forall2_impl; [exact Hall|].
  intros item1 m Hm. apply merge_item_pair in Hm
    as (item2 & p1 & p2 & Hc & H1 & H2 & ->).
  exists item2, p1, p2.
  split; [exact Hc|]. split; [exact H1|]. split; [exact H2|].
  intros Hlen. simpl. split.
  - intros Hok. apply bool_decide_eq_true in Hok.
    exact (str_app_eq_length _ _ _ _ Hok Hlen).
  - intros [-> ->]. apply bool_decide_eq_true. reflexivity.
Qed.

Lemma merge_and_semantics_witness :
  merge [mkBinaryResult "p1" (IdxInt 0) (Some "A") "A"]
        [mkBinaryResult "p1" (IdxInt 0) (Some "B") "C"]
  = ok [mkMergedResult "p1" (IdxInt 0) "AB" "AC" false]
  /\ Forall2 (fun item1 m => exists item2 : binary_result,
                counterpart [mkBinaryResult "p1" (IdxInt 0) (Some "B") "C"]
                  (key_of item1) = Some item2)
       [mkBinaryResult "p1" (IdxInt 0) (Some "A") "A"]
       [mkMergedResult "p1" (IdxInt 0) "AB" "AC" false].
Proof.
  assert (H : merge [mkBinaryResult "p1" (IdxInt 0) (Some "A") "A"]
                    [mkBinaryResult "p1" (IdxInt 0) (Some "B") "C"]
              = ok [mkMergedResult "p1" (IdxInt 0) "AB" "AC" false])
    by reflexivity.
  split; [exact H|].
  eapply Forall2_impl; [exact (merge_and_semantics _ _ _ H)|].
  intros item1 m (item2 & _ & _ & Hc & _). exists item2. exact Hc.
Defined.

Lemma merge_loop_ext lk lk' rs :
  (forall it, it ∈ rs -> lk !! key_of it = lk' !! key_of it) ->
  forall acc, merge_loop lk rs acc = merge_loop lk' rs acc.
Proof.
  induction rs as [|it rs IH]; intros Hext acc; simpl; [reflexivity|].
  assert (Hit : merge_item lk it = merge_item lk' it).
  { unfold merge_item. fold (key_of it). rewrite (Hext it); [reflexivity | left]. }
  rewrite Hit. destruct (merge_item lk' it); simpl; [reflexivity|].
  apply IH. intros it' Hin. apply Hext. right. exact Hin.
Qed.

Lemma filter_filter_key (P : binary_result -> Prop)
    `{forall x, Decision (P x)} k (l : list binary_result) :
  (forall x, key_of x = k -> P x) ->
  filter (fun x => key_of x = k) (filter P l)
  = filter (fun x => key_of x = k) l.
Proof.
  intros HP. induction l as [|x l IH]; [reflexivity|].
  rewrite (filter_cons P). destruct (decide (P x)) as [Hx|Hx].
  - rewrite !filter_cons, IH. reflexivity.
  - rewrite (filter_cons (fun x => key_of x = k) x l).
    destruct (decide (key_of x = k)) as [E|E]; [|exact IH].
    exfalso. apply Hx, HP, E.
Qed.

(** X19. The merge follows [results1]: on success the merged records have
    the ids and indices of [results1], in its order and number; items of
    [results2] whose key does not occur in [results1] play no role
    (dropping them changes neither result nor error); and an empty
    [results1] gives the empty list whatever [results2] holds. *)
Theorem merge_follows_results1 results1 results2 :
  (forall merged,
     merge results1 results2 = ok merged ->
     map m_id merged = map r_id results1
     /\ map m_idx merged = map r_idx results1)
  /\ merge results1
       (filter (fun x => key_of x ∈ map key_of results1) results2)
     = merge results1 results2
  /\ merge [] results2 = ok [].
Proof.
  split; [|split; [|reflexivity]].
  - unfold merge. intros merged H.
    apply merge_loop_items in H as (ms & -> & Hall). simpl.
    induction Hall as [|it m rs ms Hm _ IH]; [split; reflexivity|].
    apply merge_item_pair in Hm as (item2 & p1 & p2 & _ & _ & _ & ->).
    destruct IH as [IH1 IH2]. simpl. rewrite IH1, IH2. split; reflexivity.
  - unfold merge. apply merge_loop_ext. intros it Hin.
    rewrite !results_lookup_counterpart. unfold counterpart.
    rewrite filter_filter_key; [reflexivity|].
    intros x Hx. rewrite Hx, map_is_fmap.
    apply list_elem_of_fmap. exists it. split; [reflexivity | exact Hin].
Qed.

Lemma merge_follows_results1_witness :
  merge [mkBinaryResult "p1" (IdxInt 0) (Some "A") "A"]
        [mkBinaryResult "p9" (IdxInt 4) None "D";
         mkBinaryResult "p1" (IdxInt 0) (Some "B") "C"]
  = ok [mkMergedResult "p1" (IdxInt 0) "AB" "AC" false]
  /\ map m_id [mkMergedResult "p1" (IdxInt 0) "AB" "AC" false]
     = map r_id [mkBinaryResult "p1" (IdxInt 0) (Some "A") "A"].
Proof.
  assert (H : merge [mkBinaryResult "p1" (IdxInt 0) (Some "A") "A"]
                    [mkBinaryResult "p9" (IdxInt 4) None "D";
                     mkBinaryResult "p1" (IdxInt 0) (Some "B") "C"]
              = ok [mkMergedResult "p1" (IdxInt 0) "AB" "AC" false])
    by reflexivity.
  split; [exact H|].
  exact (proj1 (proj1 (merge_follows_results1 _ _) _ H)).
Defined.

End MergeMore.

(** ** Tiling pages into one image ([helpers.concat_images])

    An image is modelled by its size and a number that stands for its
    content; the result of [concat_images] by the size of the new image and
    the pastes made into it, in order, each with the offset it was made
    at.  [column_num] is taken non-negative. *)

Module tiling.

Local Open Scope nat_scope.

Record image : Type := mkImage {
  width : nat;
  height : nat;
  pixels : nat
}.

Record canvas : Type := mkCanvas {
  total_width : nat;
  total_height : nat;
  pastes : list (image * (nat * nat))
}.

(** [math.ceil(n / m)] for a positive divisor. *)
Definition ceil_div (n m : nat) : nat := (n + m - 1) / m.

(** The loop variables of the paste loop. *)
Record paste_state : Type := mkPasteState {
  cnt : nat;
  x_offset : nat;
  y_offset : nat;
  pasted : list (image * (nat * nat))
}.

(** One iteration of [for cnt, image in enumerate(images)]. *)
Definition paste_step (column_num : nat) (st : paste_state) (img : image)
  : paste_state :=
  let pasted := pasted st ++ [(img, (x_offset st, y_offset st))] in
  let x_offset := x_offset st + width img in
  if ((cnt st + 1) mod column_num =? 0)%nat
  then {| cnt := cnt st + 1; x_offset := 0;
          y_offset := y_offset st + height img; pasted := pasted |}
  else {| cnt := cnt st + 1; x_offset := x_offset;
          y_offset := y_offset st; pasted := pasted |}.

Inductive tiling_error : Type := ZeroDivisionError.

(** [concat_images(images, column_num)]: [None] for no images, a division
    by zero for zero columns. *)
Definition concat_images (images : list image) (column_num : nat)
  : tiling_error + option canvas :=
  match images with
  | [] => inr None
  | first :: _ =>
      if (column_num =? 0)%nat then inl ZeroDivisionError
      else
        let '(total_height, total_width) :=
          if (column_num =? 1)%nat
          then (height first * length images, width first)
          else (height first * ceil_div (length images) column_num,
                width first * column_num) in
        let st := fold_left (paste_step column_num) images
                    {| cnt := 0; x_offset := 0; y_offset := 0; pasted := [] |} in
        inr (Some {| total_width := total_width;
                     total_height := total_height;
                     pastes := pasted st |})
  end.

End tiling.

Section TilingFacts.

Import tiling.

Local Open Scope nat_scope.

Lemma succ_div_mod (n c : nat) :
  (0 < c)%nat ->
  (((n + 1) mod c = 0 /\ (n + 1) / c = n / c + 1 /\ n mod c + 1 = c)
   \/ ((n + 1) mod c <> 0 /\ (n + 1) / c = n / c
       /\ (n + 1) mod c = n mod c + 1))%nat.
Proof.
  intros Hc.
  pose proof (Nat.div_mod_eq n c) as Hn.
  pose proof (Nat.mod_upper_bound n c ltac:(lia)) as Hb.
  destruct (decide (n mod c + 1 = c)%nat) as [E|E].
  - left.
    assert (Hq : (n + 1 = (n / c + 1) * c + 0)%nat) by nia.
    assert (Hd : ((n + 1) / c = n / c + 1)%nat).
    { symmetry. apply (Nat.div_unique (n + 1) c (n / c + 1) 0); lia. }
    assert (Hm : ((n + 1) mod c = 0)%nat).
    { symmetry. apply (Nat.mod_unique (n + 1) c (n / c + 1) 0); lia. }
    lia.
  - right.
    assert (Hd : ((n + 1) / c = n / c)%nat).
    { symmetry. apply (Nat.div_unique (n + 1) c (n / c) (n mod c + 1)); lia. }
    assert (Hm : ((n + 1) mod c = n mod c + 1)%nat).
    { symmetry. apply (Nat.mod_unique (n + 1) c (n / c) (n mod c + 1)); lia. }
    lia.
Qed.

(** The cell of the grid the image number [k] goes to. *)
Definition cell_offset (w h c k : nat) : nat * nat :=
  ((k mod c) * w, (k / c) * h)%nat.

Definition uniform (w h : nat) (images : list image) : Prop :=
  Forall (fun img => width img = w /\ height img = h) images.

Lemma paste_step_uniform w h c st img :
  (0 < c)%nat ->
  width img = w -> height img = h ->
  x_offset st = ((cnt st mod c) * w)%nat ->
  y_offset st = ((cnt st / c) * h)%nat ->
  let st' := paste_step c st img in
  cnt st' = S (cnt st)
  /\ x_offset st' = ((cnt st' mod c) * w)%nat
  /\ y_offset st' = ((cnt st' / c) * h)%nat
  /\ pasted st' = pasted st ++ [(img, cell_offset w h c (cnt st))].
Proof.
  intros Hc Hw Hh Hx Hy. cbv zeta. unfold paste_step, cell_offset.
  rewrite <- Hx, <- Hy.
  destruct (succ_div_mod (cnt st) c Hc) as [(Hm & Hd & Hr) | (Hm & Hd & Hr)].
  - apply Nat.eqb_eq in Hm as Hm'. rewrite Hm'. cbn [cnt x_offset y_offset pasted].
    replace (S (cnt st)) with (cnt st + 1) by lia.
    rewrite Hm, Hd, Hy, Hh. repeat split; lia.
  - apply Nat.eqb_neq in Hm as Hm'. rewrite Hm'. cbn [cnt x_offset y_offset pasted].
    replace (S (cnt st)) with (cnt st + 1) by lia.
    rewrite Hr, Hd, Hx, Hw. repeat split; lia.
Qed.

Lemma paste_loop_uniform w h c images : forall st,
  (0 < c)%nat ->
  uniform w h images ->
  x_offset st = ((cnt st mod c) * w)%nat ->
  y_offset st = ((cnt st / c) * h)%nat ->
  pasted (fold_left (paste_step c) images st)
  = pasted st
    ++ imap (fun k img => (img, cell_offset w h c (cnt st + k))) images.
Proof.
  intros st Hc Hu. revert st.
  induction Hu as [|img images [Hw Hh] _ IH]; intros st Hx Hy.
  - simpl. rewrite app_nil_r. reflexivity.
  - destruct (paste_step_uniform w h c st img Hc Hw Hh Hx Hy)
      as (Hcnt & Hx' & Hy' & Hp).
    cbn [fold_left]. rewrite (IH _ Hx' Hy'), Hp, <- app_assoc.
    f_equal. cbn [imap app]. rewrite Nat.add_0_r. f_equal.
    apply imap_ext. intros k x _. cbn. rewrite Hcnt.
    replace (S (cnt st) + k) with (cnt st + S k) by lia. reflexivity.
Qed.

Lemma ceil_div_gt (k n c : nat) :
  (0 < c)%nat -> (k < n)%nat -> (k / c < ceil_div n c)%nat.
Proof.
  intros Hc Hk. unfold ceil_div.
  apply Nat.Div0.div_lt_upper_bound.
  pose proof (Nat.div_mod_eq (n + c - 1) c) as Hn.
  pose proof (Nat.mod_upper_bound (n + c - 1) c ltac:(lia)) as Hb.
  nia.
Qed.

(** X20. For a positive number of columns and images that all have the
    size of the first, [concat_images] lays the images out on a grid, row
    by row: image number [k] is pasted at column [k mod column_num] and row
    [k / column_num], each paste lies within the new image, and no two
    images share a cell.  Without images the result is [None]; with zero
    columns the division raises. *)
Theorem concat_images_grid (images : list image) (column_num w h : nat) :
  (0 < column_num)%nat ->
  images <> [] ->
  uniform w h images ->
  exists c,
    concat_images images column_num = inr (Some c)
    /\ total_width c = (w * column_num)%nat
    /\ total_height c = (h * ceil_div (length images) column_num)%nat
    /\ pastes c = imap (fun k img => (img, cell_offset w h column_num k)) images
    /\ (forall k img x y,
          pastes c !! k = Some (img, (x, y)) ->
          (x + width img <= total_width c)%nat
          /\ (y + height img <= total_height c)%nat)
    /\ (forall k k',
          (k < length images)%nat -> (k' < length images)%nat -> k <> k' ->
          ((k mod column_num)%nat, (k / column_num)%nat)
          <> ((k' mod column_num)%nat, (k' / column_num)%nat)).
Proof.
  intros Hc Hne Hu. unfold concat_images.
  destruct images as [|first rest] eqn:Ei; [contradiction|].
  rewrite <- Ei in *. clear Hne.
  assert (Hfirst : width first = w /\ height first = h).
  { rewrite Ei in Hu. apply Forall_cons in Hu as [Hf _]. exact Hf. }
  destruct Hfirst as [Hw Hh].
  replace (column_num =? 0)%nat with false by (symmetry; apply Nat.eqb_neq; lia).
  pose proof (paste_loop_uniform w h column_num images
                {| cnt := 0; x_offset := 0; y_offset := 0; pasted := [] |}
                Hc Hu) as Hloop.
  simpl in Hloop. rewrite Nat.Div0.mod_0_l, Nat.Div0.div_0_l in Hloop.
  specialize (Hloop eq_refl eq_refl).
  assert (Hsize :
    (if (column_num =? 1)%nat
     then (height first * length images, width first)
     else (height first * ceil_div (length images) column_num,
           width first * column_num))%nat
    = (h * ceil_div (length images) column_num, w * column_num)%nat).
  { rewrite Hw, Hh. destruct (Nat.eqb_spec column_num 1) as [->|_]; [|reflexivity].
    unfold ceil_div. rewrite Nat.add_sub, Nat.div_1_r, Nat.mul_1_r. reflexivity. }
  rewrite Hsize. eexists. split; [reflexivity|]. simpl.
  split; [reflexivity|]. split; [reflexivity|]. split; [exact Hloop|]. split.
  - intros k img x y Hk. rewrite Hloop in Hk.
    apply list_lookup_imap_Some in Hk as (img' & Himg & E).
    unfold cell_offset in E. injection E as E1 E2 E3. subst img' x y.
    assert (Hin : img ∈ images) by (eapply list_elem_of_lookup_2; exact Himg).
    eapply Forall_forall in Hu; [|exact Hin]. destruct Hu as [-> ->].
    apply lookup_lt_Some in Himg.
    pose proof (Nat.mod_upper_bound k column_num ltac:(lia)) as Hb.
    pose proof (ceil_div_gt k (length images) column_num Hc Himg) as Hr.
    split; nia.
  - intros k k' _ _ Hkk E. inversion E as [[Em Ed]]. apply Hkk.
    rewrite (Nat.div_mod_eq k column_num), (Nat.div_mod_eq k' column_num).
    rewrite Em, Ed. reflexivity.
Qed.

Lemma concat_images_grid_witness :
  (0 < 3)%nat
  /\ replicate 4 (mkImage 10 20 7) <> []
  /\ uniform 10 20 (replicate 4 (mkImage 10 20 7))
  /\ exists c,
       concat_images (replicate 4 (mkImage 10 20 7)) 3 = inr (Some c)
       /\ total_width c = 30%nat /\ total_height c = 40%nat
       /\ pastes c
          = [(mkImage 10 20 7, (0, 0)%nat); (mkImage 10 20 7, (10, 0)%nat);
             (mkImage 10 20 7, (20, 0)%nat); (mkImage 10 20 7, (0, 20)%nat)].
Proof.
  assert (Hu : uniform 10 20 (replicate 4 (mkImage 10 20 7)))
    by (repeat constructor).
  split; [lia|]. split; [discriminate|]. split; [exact Hu|].
  destruct (concat_images_grid (replicate 4 (mkImage 10 20 7)) 3 10 20
              ltac:(lia) ltac:(discriminate) Hu)
    as (c & Hc & Hw & Hh & Hp & _).
  exists c. split; [exact Hc|]. split; [exact Hw|]. split; [exact Hh|].
  exact Hp.
Defined.

End TilingFacts.

(** ** Paging a whole document ([helpers.convert_whole_doc_to_base64_list])

    [extract_pdf_pages] is the page renderer (it returns no page on any
    failure of its own); [jpeg_base64] saves a tiled image as JPEG and
    encodes it, [None] when that raises.  Every exception below is caught
    by the function's [try] and turns the result into the empty list.
    [max_images] is taken non-negative, and [math.ceil(n / m)] is the
    exact ceiling, as it is for page counts. *)

Module whole_doc.

Import tiling.

Local Open Scope nat_scope.

Section convert.

Variable extract_pdf_pages : string -> nat -> nat -> list image.
Variable jpeg_base64 : canvas -> option string.

(** [range(0, n, step)] for a positive [step]. *)
Definition range_step (n step : nat) : list nat :=
  map (fun k => k * step) (seq 0 (ceil_div n step)).

(** The [for i in range(...)] loop; [None] is an exception that leaves
    it. *)
Fixpoint batch_loop (all_pages : list image)
    (pages_per_image max_images column_num : nat)
    (starts : list nat) (base64_images : list string) : option (list string) :=
  match starts with
  | [] => Some base64_images
  | i :: starts =>
      let batch_pages := take pages_per_image (drop i all_pages) in
      match concat_images batch_pages column_num with
      | inl _ => None
      | inr None =>
          batch_loop all_pages pages_per_image max_images column_num
            starts base64_images
      | inr (Some concatenated_image) =>
          match jpeg_base64 concatenated_image with
          | None => None
          | Some img_base64 =>
              let base64_images := base64_images ++ [img_base64] in
              if max_images <=? length base64_images
              then Some base64_images
              else batch_loop all_pages pages_per_image max_images column_num
                     starts base64_images
          end
      end
  end.

Definition convert_whole_doc_to_base64_list (pdf_path : string)
    (max_images column_num max_pages resolution : nat) : list string :=
  let all_pages := extract_pdf_pages pdf_path max_pages resolution in
  match all_pages with
  | [] => []
  | _ :: _ =>
      if max_images =? 0 then []
      else
        let pages_per_image := ceil_div (length all_pages) max_images in
        match batch_loop all_pages pages_per_image max_images column_num
                (range_step (length all_pages) pages_per_image) [] with
        | Some base64_images => base64_images
        | None => []
        end
  end.

End convert.

End whole_doc.

Section WholeDocFacts.

Import tiling whole_doc.

Local Open Scope nat_scope.

Variable extract_pdf_pages : string -> nat -> nat -> list image.
Variable jpeg_base64 : canvas -> option string.

Lemma ceil_div_mul_ge (n p : nat) : 0 < p -> n <= ceil_div n p * p.
Proof.
  intros Hp. unfold ceil_div.
  pose proof (Nat.div_mod_eq (n + p - 1) p) as Hn.
  pose proof (Nat.mod_upper_bound (n + p - 1) p ltac:(lia)) as Hb.
  nia.
Qed.

Lemma ceil_div_pos (n m : nat) : 0 < n -> 0 < m -> 0 < ceil_div n m.
Proof.
  intros Hn Hm. pose proof (ceil_div_mul_ge n m Hm). nia.
Qed.

Lemma ceil_div_start (k n p : nat) :
  0 < p -> k < ceil_div n p -> k * p < n.
Proof.
  intros Hp Hk. unfold ceil_div in Hk.
  pose proof (Nat.div_mod_eq (n + p - 1) p) as Hn.
  pose proof (Nat.mod_upper_bound (n + p - 1) p ltac:(lia)) as Hb.
  nia.
Qed.

(** Grouping by [ceil(n / m)] gives at most [m] groups. *)
Lemma ceil_div_groups (n m : nat) :
  0 < m -> ceil_div n (ceil_div n m) <= m.
Proof.
  intros Hm. destruct (Nat.eq_dec n 0) as [->|Hn].
  - unfold ceil_div at 2. replace (0 + m - 1) with (m - 1) by lia.
    rewrite Nat.div_small by lia. unfold ceil_div. simpl. lia.
  - pose proof (ceil_div_pos n m ltac:(lia) Hm) as Hp.
    pose proof (ceil_div_mul_ge n m Hm) as Hge.
    set (p := ceil_div n m) in *.
    unfold ceil_div.
    assert (H : (n + p - 1) / p < m + 1); [|lia].
    apply Nat.Div0.div_lt_upper_bound. nia.
Qed.

(** The pages of group number [k]. *)
Definition group (all_pages : list image) (pages_per_image k : nat)
  : list image :=
  take pages_per_image (drop (k * pages_per_image) all_pages).

Lemma groups_concat {A} (p : nat) : forall c (l : list A),
  0 < p -> length l <= c * p ->
  concat (map (fun k => take p (drop (k * p) l)) (seq 0 c)) = l.
Proof.
  induction c as [|c IH]; intros l Hp Hl.
  - destruct l; [reflexivity | simpl in Hl; lia].
  - cbn [seq map concat]. rewrite <- seq_shift, map_map.
    rewrite Nat.mul_0_l, drop_0.
    transitivity (take p l ++ drop p l); [|apply take_drop]. f_equal.
    rewrite <- (IH (drop p l) Hp).
    + f_equal. apply map_ext. intros k. rewrite drop_drop.
      f_equal; f_equal; lia.
    + rewrite length_drop. lia.
Qed.

Lemma concat_images_Some (images : list image) (column_num : nat) :
  images <> [] -> 0 < column_num ->
  exists c, concat_images images column_num = inr (Some c).
Proof.
  intros Hne Hc. unfold concat_images.
  destruct images as [|first rest]; [contradiction|].
  replace (column_num =? 0) with false by (symmetry; apply Nat.eqb_neq; lia).
  destruct (column_num =? 1); eexists; reflexivity.
Qed.

Lemma group_nonempty (all_pages : list image) (p k : nat) :
  0 < p -> k < ceil_div (length all_pages) p ->
  group all_pages p k <> [].
Proof.
  intros Hp Hk E. apply (f_equal length) in E. unfold group in E.
  rewrite length_take, length_drop in E. simpl in E.
  pose proof (ceil_div_start _ _ _ Hp Hk). lia.
Qed.

(** The image made of a group of pages. *)
Definition encoded (column_num : nat) (g : list image) (s : string) : Prop :=
  exists c, concat_images g column_num = inr (Some c)
            /\ jpeg_base64 c = Some s.

Lemma batch_loop_ok all_pages p max_images column_num : forall ks acc,
  0 < p -> 0 < column_num ->
  (forall c, jpeg_base64 c <> None) ->
  length acc + length ks <= max_images ->
  Forall (fun k => k < ceil_div (length all_pages) p) ks ->
  exists out,
    batch_loop jpeg_base64 all_pages p max_images column_num
      (map (fun k => k * p) ks) acc = Some (acc ++ out)
    /\ Forall2 (encoded column_num) (map (group all_pages p) ks) out.
Proof.
  intros ks acc Hp Hcol Hj. revert acc.
  induction ks as [|k ks IH]; intros acc Hlen Hks.
  - exists []. rewrite app_nil_r. split; [reflexivity | constructor].
  - apply Forall_cons in Hks as [Hk Hks].
    destruct (concat_images_Some (group all_pages p k) column_num
                (group_nonempty _ _ _ Hp Hk) Hcol) as [c Hc].
    destruct (jpeg_base64 c) as [s|] eqn:Es; [|destruct (Hj c Es)].
    cbn [map batch_loop]. fold (group all_pages p k). rewrite Hc, Es.
    destruct (Nat.leb_spec max_images (length (acc ++ [s]))) as [Hfull|Hmore].
    + rewrite length_app in Hfull. simpl in Hfull, Hlen.
      destruct ks; [|simpl in Hlen; lia].
      exists [s]. split; [reflexivity|].
      constructor; [exists c; auto | constructor].
    + destruct (IH (acc ++ [s])) as (out & Hout & Hf).
      * rewrite length_app. simpl in *. lia.
      * exact Hks.
      * exists (s :: out). rewrite Hout, <- app_assoc. split; [reflexivity|].
        constructor; [exists c; auto | exact Hf].
Qed.

Lemma batch_loop_fails all_pages p max_images column_num : forall ks acc,
  0 < p -> 0 < column_num ->
  length acc + length ks <= max_images ->
  Forall (fun k => k < ceil_div (length all_pages) p) ks ->
  (exists k c, k ∈ ks
               /\ concat_images (group all_pages p k) column_num = inr (Some c)
               /\ jpeg_base64 c = None) ->
  batch_loop jpeg_base64 all_pages p max_images column_num
    (map (fun k => k * p) ks) acc = None.
Proof.
  intros ks acc Hp Hcol. revert acc.
  induction ks as [|k ks IH]; intros acc Hlen Hks (k' & c' & Hin & Hc' & Hj').
  - apply elem_of_nil in Hin. contradiction.
  - apply Forall_cons in Hks as [Hk Hks].
    destruct (concat_images_Some (group all_pages p k) column_num
                (group_nonempty _ _ _ Hp Hk) Hcol) as [c Hc].
    cbn [map batch_loop]. fold (group all_pages p k). rewrite Hc.
    destruct (jpeg_base64 c) as [s|] eqn:Es; [|reflexivity].
    apply elem_of_cons in Hin as [->|Hin]; [congruence|].
    destruct (Nat.leb_spec max_images (length (acc ++ [s]))) as [Hfull|Hmore].
    + rewrite length_app in Hfull. simpl in Hfull, Hlen.
      destruct ks; [apply elem_of_nil in Hin; contradiction|].
      simpl in Hlen. lia.
    + apply IH.
      * rewrite length_app. simpl in *. lia.
      * exact Hks.
      * exists k', c'. auto.
Qed.

Lemma batch_loop_bound all_pages p max_images column_num : forall starts acc out,
  0 < max_images ->
  length acc < max_images ->
  batch_loop jpeg_base64 all_pages p max_images column_num starts acc
  = Some out ->
  length out <= max_images.
Proof.
  induction starts as [|i starts IH]; intros acc out Hm Hacc Hout.
  - simpl in Hout. injection Hout as <-. lia.
  - cbn [batch_loop] in Hout.
    destruct (concat_images _ column_num) as [e|[c|]]; [discriminate | |].
    + destruct (jpeg_base64 c) as [s|]; [|discriminate].
      destruct (Nat.leb_spec max_images (length (acc ++ [s]))) as [Hfull|Hmore].
      * injection Hout as <-. rewrite length_app. simpl. lia.
      * eapply IH; [exact Hm | exact Hmore | exact Hout].
    + eapply IH; [exact Hm | exact Hacc | exact Hout].
Qed.

Lemma seq_lt (c : nat) : Forall (fun k => k < c) (seq 0 c).
Proof.
  apply Forall_forall. intros k Hk. apply elem_of_seq in Hk. lia.
Qed.

Local Abbreviation convert :=
  (convert_whole_doc_to_base64_list extract_pdf_pages jpeg_base64).

(** X21. When tiling and encoding do not fail, the whole-document images
    are exactly the images of consecutive groups of
    [ceil(len(pages) / max_images)] pages: the groups are at most
    [max_images], none is empty, and together they are all the pages in
    order, so stopping at [max_images] images never leaves a page out. *)
Theorem whole_doc_covers_all_pages
    (pdf_path : string) (max_images column_num max_pages resolution : nat) :
  0 < max_images -> 0 < column_num ->
  (forall c, jpeg_base64 c <> None) ->
  let all_pages := extract_pdf_pages pdf_path max_pages resolution in
  let pages_per_image := ceil_div (length all_pages) max_images in
  let groups :=
    map (group all_pages pages_per_image)
        (seq 0 (ceil_div (length all_pages) pages_per_image)) in
  concat groups = all_pages
  /\ length groups <= max_images
  /\ Forall (fun g => g <> [] /\ length g <= pages_per_image) groups
  /\ Forall2 (encoded column_num) groups
       (convert pdf_path max_images column_num max_pages resolution).
Proof.
  intros Hm Hcol Hj. cbv zeta. unfold convert_whole_doc_to_base64_list.
  generalize (extract_pdf_pages pdf_path max_pages resolution).
  intros all_pages.
  destruct all_pages as [|pg rest] eqn:Epages.
  - replace (ceil_div (length []) max_images) with 0.
    + simpl. split; [reflexivity|]. split; [lia|]. split; constructor.
    + unfold ceil_div. simpl. rewrite Nat.div_small; lia.
  - rewrite <- Epages.
    assert (Hn : 0 < length all_pages) by (rewrite Epages; simpl; lia).
    clear Epages.
    set (p := ceil_div (length all_pages) max_images).
    assert (Hp : 0 < p) by (apply ceil_div_pos; assumption).
    replace (max_images =? 0) with false by (symmetry; apply Nat.eqb_neq; lia).
    split; [|split; [|split]].
    + apply (groups_concat p); [exact Hp | apply ceil_div_mul_ge; exact Hp].
    + rewrite length_map, length_seq. apply ceil_div_groups. exact Hm.
    + apply Forall_forall. intros g Hg.
      apply list_elem_of_fmap in Hg as (k & -> & Hk).
      apply elem_of_seq in Hk. split.
      * apply group_nonempty; [exact Hp | lia].
      * unfold group. rewrite length_take. lia.
    + destruct (batch_loop_ok all_pages p max_images column_num
                  (seq 0 (ceil_div (length all_pages) p)) [] Hp Hcol Hj)
        as (out & Hout & Hf).
      * rewrite length_seq. simpl. apply ceil_div_groups. exact Hm.
      * apply seq_lt.
      * unfold range_step. rewrite Hout. exact Hf.
Qed.

(** X22. Whatever the renderer and the encoder do,
    [convert_whole_doc_to_base64_list] returns at most [max_images]
    images. *)
Theorem whole_doc_at_most_max_images
    (pdf_path : string) (max_images column_num max_pages resolution : nat) :
  length (convert pdf_path max_images column_num max_pages resolution)
  <= max_images.
Proof.
  unfold convert_whole_doc_to_base64_list.
  destruct (extract_pdf_pages pdf_path max_pages resolution) as [|pg rest];
    [simpl; lia|].
  destruct (Nat.eqb_spec max_images 0) as [->|Hm]; [simpl; lia|].
  destruct (batch_loop _ _ _ _ _ _ _) as [out|] eqn:Eloop; [|simpl; lia].
  eapply batch_loop_bound; [| |exact Eloop]; simpl; lia.
Qed.

(** X23. The result is all or nothing: with zero images allowed, with zero
    columns, or when the encoding of any one group of pages fails, the
    function returns no image at all, also not those of the groups before
    the failing one. *)
Theorem whole_doc_all_or_nothing
    (pdf_path : string) (max_images column_num max_pages resolution : nat) :
  let all_pages := extract_pdf_pages pdf_path max_pages resolution in
  let pages_per_image := ceil_div (length all_pages) max_images in
  max_images = 0 \/ column_num = 0
  \/ (exists k c,
        k < ceil_div (length all_pages) pages_per_image
        /\ concat_images (group all_pages pages_per_image k) column_num
           = inr (Some c)
        /\ jpeg_base64 c = None) ->
  convert pdf_path max_images column_num max_pages resolution = [].
Proof.
  cbv zeta. unfold convert_whole_doc_to_base64_list.
  generalize (extract_pdf_pages pdf_path max_pages resolution).
  intros all_pages H.
  destruct all_pages as [|pg rest] eqn:Epages; [reflexivity|].
  rewrite <- Epages in *.
  destruct (Nat.eqb_spec max_images 0) as [Hm0|Hm]; [reflexivity|].
  assert (Hn : 0 < length all_pages) by (rewrite Epages; simpl; lia).
  set (p := ceil_div (length all_pages) max_images) in *.
  assert (Hp : 0 < p) by (apply ceil_div_pos; lia).
  destruct H as [H | [-> | (k & c & Hk & Hc & Hj)]]; [contradiction | |].
  - unfold range_step.
    pose proof (ceil_div_pos (length all_pages) p Hn Hp) as Hc.
    destruct (ceil_div (length all_pages) p) as [|c]; [lia|].
    cbn [seq map batch_loop].
    assert (Hg : take p (drop (0 * p) all_pages) <> []).
    { rewrite Epages. simpl. destruct p; [lia | discriminate]. }
    unfold concat_images.
    destruct (take p (drop (0 * p) all_pages)); [contradiction | reflexivity].
  - destruct (Nat.eq_dec column_num 0) as [->|Hcol].
    { unfold concat_images in Hc.
      destruct (group all_pages p k); discriminate. }
    unfold range_step. rewrite (batch_loop_fails all_pages p max_images column_num).
    + reflexivity.
    + exact Hp.
    + lia.
    + rewrite length_seq. simpl. apply ceil_div_groups. lia.
    + apply seq_lt.
    + exists k, c. split; [apply elem_of_seq; lia | auto].
Qed.

End WholeDocFacts.

Definition sample_pages : string -> nat -> nat -> list tiling.image :=
  fun _ _ _ => map (tiling.mkImage 10 20) (seq 0 7).

Definition sample_jpeg : tiling.canvas -> option string :=
  fun c => Some (Py.str_nat (length (tiling.pastes c))).

Definition failing_jpeg : tiling.canvas -> option string :=
  fun c => if (length (tiling.pastes c) =? 1)%nat then None else Some "img".

Lemma whole_doc_covers_all_pages_witness :
  (0 < 3)%nat /\ (0 < 3)%nat
  /\ (forall c, sample_jpeg c <> None)
  /\ Forall2 (encoded sample_jpeg 3)
       (map (group (sample_pages "paper.pdf" 1000%nat 144%nat) 3)
            (seq 0 3))
       (whole_doc.convert_whole_doc_to_base64_list sample_pages sample_jpeg
          "paper.pdf" 3 3 1000 144).
Proof.
  assert (Hj : forall c, sample_jpeg c <> None) by discriminate.
  split; [lia|]. split; [lia|]. split; [exact Hj|].
  exact (proj2 (proj2 (proj2
           (whole_doc_covers_all_pages sample_pages sample_jpeg
              "paper.pdf" 3 3 1000 144 ltac:(lia) ltac:(lia) Hj)))).
Defined.

Lemma whole_doc_all_or_nothing_witness :
  (exists k c,
     (k < tiling.ceil_div 7 3)%nat
     /\ tiling.concat_images
          (group (sample_pages "paper.pdf" 1000%nat 144%nat) 3 k) 3
        = inr (Some c)
     /\ failing_jpeg c = None)
  /\ whole_doc.convert_whole_doc_to_base64_list sample_pages failing_jpeg
       "paper.pdf" 3 3 1000 144 = [].
Proof.
  assert (H : exists k c,
     (k < tiling.ceil_div 7 3)%nat
     /\ tiling.concat_images
          (group (sample_pages "paper.pdf" 1000%nat 144%nat) 3 k) 3
        = inr (Some c)
     /\ failing_jpeg c = None).
  { exists 2%nat. eexists. split; [vm_compute; lia|].
    split; [vm_compute; reflexivity | reflexivity]. }
  split; [exact H|].
  apply (whole_doc_all_or_nothing sample_pages failing_jpeg
           "paper.pdf" 3 3 1000 144).
  right. right. exact H.
Defined.
